(** * FLARE on-the-fly engine: a verification development

    A shallow embedding of

    - [src/otf_engine/otf.py]   (class [OTF]: the on-the-fly learning loop;
      [parse_otf_output]),
    - [src/flare/md.py]         ([update_positions], [calculate_temperature]),
    - [src/flare/dft_interface/pyscf_util.py] ([parse_dft_input],
      [run_def_par]),

    with the properties of the engine stated and proved over it.

    Numbers are IEEE-754 binary64 values, as numpy and Python floats are:
    they are the [spec_float] of the standard library at precision 53 and
    maximal exponent 1024, with its correctly rounded operations; the one
    operation that is not correctly rounded, [pow] of the C library behind
    [dt ** 2], is a parameter.  Python exceptions are values of [exn]; a
    method of [OTF] is a function from the object to an outcome and the
    object after the call. *)

From Stdlib Require Import ZArith Bool String Ascii Lia SpecFloat.
From stdpp Require Import base list gmap strings sorting.

Local Open Scope Z_scope.

(** ** binary64 *)

Module F64.

Definition prec : Z := 53.
Definition emax : Z := 1024.

Abbreviation float := spec_float.

Definition add : float -> float -> float := SFadd prec emax.
Definition sub : float -> float -> float := SFsub prec emax.
Definition mul : float -> float -> float := SFmul prec emax.
Definition div : float -> float -> float := SFdiv prec emax.
Definition sqrt : float -> float := SFsqrt prec emax.
Definition abs : float -> float := SFabs.

(** [x < y], [x <= y], [x == y], [x >= y]: false as soon as an operand is
    not a number. *)
Definition ltb : float -> float -> bool := SFltb.
Definition leb : float -> float -> bool := SFleb.
Definition eqb : float -> float -> bool := SFeqb.
Definition geb (x y : float) : bool := SFleb y x.

Definition valid (x : float) : bool := valid_binary prec emax x.

Definition is_nan (x : float) : bool :=
  match x with S754_nan => true | _ => false end.

Definition is_zero (x : float) : bool :=
  match x with S754_zero _ => true | _ => false end.

Definition is_infinity (x : float) : bool :=
  match x with S754_infinity _ => true | _ => false end.

(** A finite number: neither an infinity nor a NaN. *)
Definition is_finite (x : float) : bool :=
  match x with S754_zero _ | S754_finite _ _ _ => true | _ => false end.

(** The float nearest to an integer (ties to even). *)
Definition of_Z (n : Z) : float := binary_normalize prec emax n 0 false.

(** A decimal literal [n / d] of the source, for [n] and [d] that are
    floats themselves: the correctly rounded quotient is the float nearest
    to the decimal, which is what the Python parser produces. *)
Definition decimal (n d : Z) : float := div (of_Z n) (of_Z d).

Definition zero : float := S754_zero false.
Definition one : float := Eval vm_compute in of_Z 1.
Definition two : float := Eval vm_compute in of_Z 2.
Definition half : float := Eval vm_compute in decimal 5 10.

End F64.

Abbreviation float := spec_float.

(** The arithmetic stays folded in proofs. *)
Arguments F64.add : simpl never.
Arguments F64.sub : simpl never.
Arguments F64.mul : simpl never.
Arguments F64.div : simpl never.
Arguments F64.sqrt : simpl never.
Arguments F64.of_Z : simpl never.
Arguments F64.leb : simpl never.
Arguments F64.ltb : simpl never.
Arguments F64.geb : simpl never.

(** ** Python exceptions and outcomes *)

Inductive exn : Type :=
| IndexError
| KeyError
| ValueError
| OverflowError
| ZeroDivisionError
| AssertionError (msg : string).

Inductive res (A : Type) : Type :=
| Ok (a : A)
| Raise (e : exn).
Arguments Ok {A} a.
Arguments Raise {A} e.

Definition res_bind {A B} (r : res A) (k : A -> res B) : res B :=
  match r with
  | Ok a => k a
  | Raise e => Raise e
  end.

(** [l[i]] and [d[k]] of Python. *)
Definition py_index {A} (l : list A) (i : nat) : res A :=
  match l !! i with
  | Some x => Ok x
  | None => Raise IndexError
  end.

Definition py_getitem {A} (d : gmap string A) (k : string) : res A :=
  match d !! k with
  | Some x => Ok x
  | None => Raise KeyError
  end.

(** ** The C library *)

(** [x ** y] on Python floats goes to [pow] of the C library of the
    platform once the special values are dealt with, and takes what that
    returns: a value, and the [errno] it left, if any.  IEEE 754 does not
    fix the value, and libraries differ in its last bit, so the library is
    a parameter.  [EDOM] stands for any [errno] other than [ERANGE]. *)
Inductive errno : Type :=
| ERANGE
| EDOM.

Class Libm : Type := {
  (** [pow(x, y)] *)
  pow : float -> float -> float * option errno
}.

(** [x ** 2] on a Python float, as [float_pow] of CPython computes it for
    the exponent 2.0: a NaN, an infinity, a zero, 1.0 and -1.0 are answered
    at once, with the NaN, [inf], 0.0 and 1.0; another [x] goes to [pow]
    by its absolute value.  An infinite result that set no [errno] counts
    as [ERANGE], and [ERANGE] with a result of zero as none; then [ERANGE]
    is an [OverflowError] and any other [errno] a [ValueError]. *)
Definition py_sq `{Libm} (x : float) : res float :=
  if F64.is_nan x then Ok x
  else if F64.is_infinity x then Ok (F64.abs x)
  else if F64.is_zero x then Ok F64.zero
  else
    let iv := F64.abs x in
    if F64.eqb iv F64.one then Ok F64.one
    else
      let '(ix, e) := pow iv F64.two in
      match e with
      | None => if F64.is_infinity ix then Raise OverflowError else Ok ix
      | Some ERANGE => if F64.is_zero ix then Ok ix else Raise OverflowError
      | Some EDOM => Raise ValueError
      end.

(** ** Rows of three components *)

Record vec3 : Type := V3 { c0 : float; c1 : float; c2 : float }.

Definition components (v : vec3) : list float := [c0 v; c1 v; c2 v].

Definition vmap (f : float -> float) (v : vec3) : vec3 :=
  V3 (f (c0 v)) (f (c1 v)) (f (c2 v)).

Definition vmap2 (f : float -> float -> float) (u v : vec3) : vec3 :=
  V3 (f (c0 u) (c0 v)) (f (c1 u) (c1 v)) (f (c2 u) (c2 v)).

(** [v[j]] and [v[j] = x] for [j] in [range(3)]. *)
Definition vget (v : vec3) (j : nat) : res float :=
  match j with
  | 0%nat => Ok (c0 v)
  | 1%nat => Ok (c1 v)
  | 2%nat => Ok (c2 v)
  | _ => Raise IndexError
  end.

Definition vset (v : vec3) (j : nat) (x : float) : res vec3 :=
  match j with
  | 0%nat => Ok (V3 x (c1 v) (c2 v))
  | 1%nat => Ok (V3 (c0 v) x (c2 v))
  | 2%nat => Ok (V3 (c0 v) (c1 v) x)
  | _ => Raise IndexError
  end.

Definition entries (a : list vec3) : list float := concat (map components a).

(** ** numpy reductions *)

(** [np.maximum]: a NaN operand wins. *)
Definition np_maximum (a b : float) : float :=
  if F64.geb a b || F64.is_nan a then a else b.

(** [np.fmax]: a NaN operand loses. *)
Definition np_fmax (a b : float) : float :=
  if F64.geb a b || F64.is_nan b then a else b.

Definition reduce (f : float -> float -> float) (l : list float) : res float :=
  match l with
  | [] => Raise ValueError
  | x :: rest => Ok (fold_left f rest x)
  end.

(** [np.max] of a row, which has three components, and [np.nanmax] of the
    whole array, which raises on an empty one. *)
Definition np_max (v : vec3) : float :=
  np_maximum (np_maximum (c0 v) (c1 v)) (c2 v).
Definition np_nanmax (a : list vec3) : res float := reduce np_fmax (entries a).

(** ** Structure *)

(** Modelled from the spec: the class [Structure] (module [struc]) is not
    part of the sources; its attributes are the ones the engine reads and
    writes, each array an ordered sequence of rows of three components, and
    [nat] the number of atoms. *)
Record Structure : Type := mkStructure {
  positions : list vec3;
  prev_positions : list vec3;
  species : list string;
  mass_dict : gmap string float;
  cell : list vec3;
  forces : list vec3;
  stds : list vec3
}.

Definition nat_of (s : Structure) : nat := length (positions s).

Definition set_positions (p : list vec3) (s : Structure) : Structure :=
  mkStructure p (prev_positions s) (species s) (mass_dict s) (cell s)
    (forces s) (stds s).
Definition set_prev_positions (p : list vec3) (s : Structure) : Structure :=
  mkStructure (positions s) p (species s) (mass_dict s) (cell s)
    (forces s) (stds s).
Definition set_forces (f : list vec3) (s : Structure) : Structure :=
  mkStructure (positions s) (prev_positions s) (species s) (mass_dict s)
    (cell s) f (stds s).
Definition set_stds (d : list vec3) (s : Structure) : Structure :=
  mkStructure (positions s) (prev_positions s) (species s) (mass_dict s)
    (cell s) (forces s) d.

(** ** The uncertainty policy on an array of standard deviations *)

(** The literal [.1]. *)
Definition threshold : float := Eval vm_compute in F64.decimal 1 10.

(** The loop of [is_std_in_bound] over [enumerate(stds)], from index [i],
    appending to [problem_atoms]. *)
Fixpoint problem_loop (i : nat) (a : list vec3) (problem_atoms : list nat)
  : list nat :=
  match a with
  | [] => problem_atoms
  | std :: rest =>
      problem_loop (S i) rest
        (if F64.geb (np_max std) threshold
         then problem_atoms ++ [i] else problem_atoms)
  end.

Definition std_in_bound (a : list vec3) : res (bool * list nat) :=
  res_bind (np_nanmax a) (fun m =>
  if F64.geb m threshold then Ok (false, problem_loop 0 a [])
  else Ok (true, [])).

(** ** [src/flare/md.py] *)

Module md.

(** The attribute this module reads the labels from. *)
Definition species_labels : Structure -> list string := species.

(** [2 * pos - pre_pos + dtdt * forces / mass] on rows. *)
Definition verlet (dtdt mass : float) (pos pre_pos frc : vec3) : vec3 :=
  vmap2 F64.add
    (vmap2 F64.sub (vmap (F64.mul F64.two) pos) pre_pos)
    (vmap (fun x => F64.div x mass) (vmap (F64.mul dtdt) frc)).

(** [np.zeros((noa, 3))]. *)
Definition np_zeros (noa : Z) : res (list vec3) :=
  if noa <? 0 then Raise ValueError
  else Ok (replicate (Z.to_nat noa) (V3 F64.zero F64.zero F64.zero)).

(** One turn of the loop of [update_positions], at index [i]. *)
Definition update_row (dtdt : float) (structure : Structure)
    (new_pos : list vec3) (i : nat) : res (list vec3) :=
  res_bind (py_index (prev_positions structure) i) (fun pre_pos =>
  res_bind (py_index (species_labels structure) i) (fun label =>
  res_bind (py_getitem (mass_dict structure) label) (fun mass =>
  res_bind (py_index (positions structure) i) (fun pos =>
  res_bind (py_index (forces structure) i) (fun frc =>
  if decide (i < length new_pos)%nat
  then Ok (<[i := verlet dtdt mass pos pre_pos frc]> new_pos)
  else Raise IndexError))))).

Fixpoint update_loop (dtdt : float) (structure : Structure)
    (idx : list nat) (new_pos : list vec3) : res (list vec3) :=
  match idx with
  | [] => Ok new_pos
  | i :: rest =>
      res_bind (update_row dtdt structure new_pos i)
        (update_loop dtdt structure rest)
  end.

Definition update_positions `{Libm} (dt : float) (noa : Z)
    (structure : Structure) : res (list vec3) :=
  res_bind (py_sq dt) (fun dtdt =>
  res_bind (np_zeros noa) (fun new_pos =>
  update_loop dtdt structure
    (seq 0 (length (prev_positions structure))) new_pos)).

(** A Python number: the [int] the kinetic energy starts as, or the
    float it is once a term was added. *)
Inductive number : Type :=
| PyInt (n : Z)
| Float (x : float).

(** [int] to [float], where Python converts. *)
Definition float_of_int (n : Z) : res float :=
  let r := F64.of_Z n in
  if F64.is_infinity r then Raise OverflowError else Ok r.

(** The shape numpy sees an operand without rows in: [(0, 3)] when it is
    held as an array of rows, [(0,)] when it is an empty list or an array
    made from one.  The rows do not tell which, so an operand comes with
    it; of an operand with [n] rows the shape is [(n, 3)] either way. *)
Inductive shape0 : Type :=
| Shape_0_3
| Shape_0.

Definition flat (sh : shape0) (a : list vec3) : bool :=
  match a, sh with
  | [], Shape_0 => true
  | _, _ => false
  end.

(** [a - b] on arrays of rows, with the broadcasting of numpy: a flat
    operand goes with a flat one only; rows go with as many rows, and one
    row with any number. *)
Definition np_subtract (sa sb : shape0) (a b : list vec3)
  : res (list vec3) :=
  if xorb (flat sa a) (flat sb b) then Raise ValueError
  else if decide (length a = length b)
  then Ok (zip_with (vmap2 F64.sub) a b)
  else match a, b with
       | [x], _ => Ok (map (fun y => vmap2 F64.sub x y) b)
       | _, [y] => Ok (map (fun x => vmap2 F64.sub x y) a)
       | _, _ => Raise ValueError
       end.

(** [KE += 0.5 * mass * v * v], a numpy float from then on. *)
Definition add_term (KE : number) (mass v : float) : res number :=
  let term := F64.mul (F64.mul (F64.mul F64.half mass) v) v in
  match KE with
  | PyInt n => res_bind (float_of_int n) (fun k => Ok (Float (F64.add k term)))
  | Float k => Ok (Float (F64.add k term))
  end.

Fixpoint ke_components (structure : Structure) (velocities : list vec3)
    (i : nat) (js : list nat) (KE : number) : res number :=
  match js with
  | [] => Ok KE
  | j :: rest =>
      res_bind (py_index (species_labels structure) i) (fun label =>
      res_bind (py_getitem (mass_dict structure) label) (fun mass =>
      res_bind (py_index velocities i) (fun row =>
      res_bind (vget row j) (fun v =>
      res_bind (add_term KE mass v)
        (ke_components structure velocities i rest)))))
  end.

Fixpoint ke_atoms (structure : Structure) (velocities : list vec3)
    (idx : list nat) (KE : number) : res number :=
  match idx with
  | [] => Ok KE
  | i :: rest =>
      res_bind (ke_components structure velocities i (seq 0 3) KE)
        (ke_atoms structure velocities rest)
  end.

(** The literal [0.0000861733034]. *)
Definition kb : float := Eval vm_compute in F64.decimal 861733034 (10 ^ 13).

(** [2 * KE / d] for a Python float [d]: true division of Python when
    [KE] is still an [int], division of numpy otherwise. *)
Definition two_KE_over (KE : number) (d : float) : res float :=
  match KE with
  | PyInt n =>
      res_bind (float_of_int (2 * n)) (fun k =>
      if F64.is_zero d then Raise ZeroDivisionError else Ok (F64.div k d))
  | Float k => Ok (F64.div (F64.mul F64.two k) d)
  end.

(** [calculate_temperature], with the shapes [new_pos] and
    [structure.prev_positions] have when they have no rows. *)
Definition calculate_temperature (sh_new sh_prev : shape0)
    (new_pos : list vec3) (structure : Structure) (dt : float) (noa : Z)
  : res (number * float * list vec3) :=
  res_bind (np_subtract sh_new sh_prev new_pos (prev_positions structure))
    (fun diff =>
  let velocities :=
    map (vmap (fun x => F64.div x (F64.mul F64.two dt))) diff in
  res_bind (ke_atoms structure velocities
              (seq 0 (length (positions structure))) (PyInt 0)) (fun KE =>
  res_bind (float_of_int (3 * noa - 3)) (fun dof =>
  res_bind (two_KE_over KE (F64.mul dof kb)) (fun temperature =>
  Ok (KE, temperature, velocities))))).

End md.

(** ** [src/flare/dft_interface/pyscf_util.py] *)

Module pyscf_util.

(** What the docstring of [parse_dft_input] names as its results. *)
Definition parsed : Type :=
  (list vec3 * list string * list vec3 * gmap string float)%type.

Definition py_assert (b : bool) (msg : string) : res unit :=
  if b then Ok tt else Raise (AssertionError msg).

(** [parse_dft_input] on the lines read from the file.  The body has no
    [return]: past the assertions the value is Python's [None]. *)
Definition parse_dft_input (lines : list string) : res (option parsed) :=
  let cell_index : option nat := None in
  let positions_index : option nat := None in
  let nat : option nat := None in
  let cell_index :=
    fold_left (fun _ (_ : Datatypes.nat * string) => None)
      (imap (fun i line => (i, line)) lines) cell_index in
  res_bind (py_assert (bool_decide (is_Some cell_index))
              "Failed to find cell in input file") (fun _ =>
  res_bind (py_assert (bool_decide (is_Some positions_index))
              "Failed to find positions in input") (fun _ =>
  res_bind (py_assert (bool_decide (is_Some nat))
              "Failed to find number of atoms in input") (fun _ =>
  Ok None))).


(** *** The names of the module, and [run_def_par] *)

(** The names the module binds at top level: what it imports, [name], and
    its two functions. *)
Definition module_names : list string :=
  ["os"; "call"; "time"; "np"; "output"; "struc"; "List"; "pyscf"; "name";
   "run_def_par"; "parse_dft_input"]%string.

(** How a call ends: with a value, with the [NameError] of a name that is
    bound nowhere, or with another exception. *)
Inductive outcome (A : Type) : Type :=
| Returned (a : A)
| NameError (name : string)
| Raised (e : exn).
Arguments Returned {A} a.
Arguments NameError {A} name.
Arguments Raised {A} e.

Section Calls.

(** What lies outside the module: the values of Python and the state of
    the file system; the builtins; the value a name of the module is bound
    to; what the call of a value does, and what [os.remove] does. *)
Context {value files : Type}.
Variable builtins : string -> option value.
Variable bound : string -> value.
Variable call : value -> list value -> files -> outcome value * files.
Variable os_remove : value -> files -> outcome unit * files.

(** A global name in the body of a function: the module first, the
    builtins next. *)
Definition load_global (name : string) : outcome value :=
  if decide (name ∈ module_names) then Returned (bound name)
  else match builtins name with
       | Some v => Returned v
       | None => NameError name
       end.

(** [run_def_par]: edit the input, remove the edited file, parse the
    forces.  The run of the DFT code in between is a [#TODO]. *)
Definition run_def_par (dft_input structure dft_loc ncpus dft_out npool
    mpi : value) (w : files) : outcome value * files :=
  match load_global "edit_dft_input_positions" with
  | Returned f =>
      match call f [dft_input; structure] w with
      | (Returned newfilename, w) =>
          match os_remove newfilename w with
          | (Returned _, w) =>
              match load_global "parse_dft_forces" with
              | Returned g => call g [dft_out] w
              | NameError n => (NameError n, w)
              | Raised e => (Raised e, w)
              end
          | (NameError n, w) => (NameError n, w)
          | (Raised e, w) => (Raised e, w)
          end
      | r => r
      end
  | NameError n => (NameError n, w)
  | Raised e => (Raised e, w)
  end.

End Calls.

End pyscf_util.

(** ** [src/otf_engine/otf.py] *)

Module otf.

(** The modules the engine imports and that are not part of the sources
    ([gp], [env], [punchout], [qe_util], [numpy.random]), each through the
    calls the engine makes. *)
Class Collaborators : Type := {
  GaussianProcess : Type;
  Environment : Type;
  RandomState : Type;
  (** [ChemicalEnvironment(structure, n)] *)
  ChemicalEnvironment : Structure -> nat -> Environment;
  (** [gp.predict(chemenv, d)]: the force and its variance *)
  predict : GaussianProcess -> Environment -> nat -> float * float;
  (** [gp.update_db(structure, forces)] and [gp.train()] *)
  update_db : GaussianProcess -> Structure -> list vec3 -> GaussianProcess;
  train : GaussianProcess -> GaussianProcess;
  (** [punchout(structure, target, d=d)] *)
  punchout : Structure -> option nat -> float -> Structure;
  (** [run_espresso(qe_input, structure)] *)
  run_espresso : string -> Structure -> list vec3;
  (** a draw of the generator for a bound: some number and the generator
      after the draw *)
  draw : RandomState -> nat -> nat * RandomState
}.

Section Engine.
Context `{libm : Libm} `{Collaborators}.

(** What the engine appends to ['otf_run.out'].  The texts with
    formatted numbers are kept as the data they print. *)
Inductive entry : Type :=
| Text (s : string)
| Config (frame : Z) (dt : float)
    (rows : list (string * vec3 * vec3 * vec3))
| QEResult (rows : list (string * vec3 * vec3))
| Hyperparameters (gp : GaussianProcess).

(** What [self.train_structure] is bound to once it is set: the object
    [self.structure] itself, after [self.train_structure = self.structure],
    so that what is written into the structure afterwards shows through
    it; or a structure of its own, the one [punchout] returned. *)
Inductive referent : Type :=
| TheStructure
| Punched (t : Structure).

Definition referred (s : Structure) (r : referent) : Structure :=
  match r with
  | TheStructure => s
  | Punched t => t
  end.

(** An [OTF] object, with the file it appends to and the generator of
    [np.random], which its methods reach besides [self]. *)
Record OTF : Type := mkOTF {
  qe_input : string;
  dt : float;
  Nsteps : Z;
  gp : GaussianProcess;
  cutoff : float;
  punchout_d : option float;
  structure : Structure;
  curr_step : Z;
  train_referent : option referent;
  otf_run_out : list entry;
  np_random : RandomState
}.

Definition with_gp (g : GaussianProcess) (o : OTF) : OTF :=
  mkOTF (qe_input o) (dt o) (Nsteps o) g (cutoff o) (punchout_d o)
    (structure o) (curr_step o) (train_referent o) (otf_run_out o)
    (np_random o).
Definition with_structure (s : Structure) (o : OTF) : OTF :=
  mkOTF (qe_input o) (dt o) (Nsteps o) (gp o) (cutoff o) (punchout_d o)
    s (curr_step o) (train_referent o) (otf_run_out o) (np_random o).
Definition with_curr_step (n : Z) (o : OTF) : OTF :=
  mkOTF (qe_input o) (dt o) (Nsteps o) (gp o) (cutoff o) (punchout_d o)
    (structure o) n (train_referent o) (otf_run_out o) (np_random o).
Definition with_train_structure (t : option referent) (o : OTF) : OTF :=
  mkOTF (qe_input o) (dt o) (Nsteps o) (gp o) (cutoff o) (punchout_d o)
    (structure o) (curr_step o) t (otf_run_out o) (np_random o).
Definition with_otf_run_out (l : list entry) (o : OTF) : OTF :=
  mkOTF (qe_input o) (dt o) (Nsteps o) (gp o) (cutoff o) (punchout_d o)
    (structure o) (curr_step o) (train_referent o) l (np_random o).
Definition with_np_random (r : RandomState) (o : OTF) : OTF :=
  mkOTF (qe_input o) (dt o) (Nsteps o) (gp o) (cutoff o) (punchout_d o)
    (structure o) (curr_step o) (train_referent o) (otf_run_out o) r.

(** [self.train_structure], as it reads now. *)
Definition train_structure (o : OTF) : option Structure :=
  referred (structure o) <$> train_referent o.

(** *** Methods: the object goes in, an outcome and the object come out *)

Definition M (A : Type) : Type := OTF -> res A * OTF.

Definition ret {A} (a : A) : M A := fun o => (Ok a, o).
Definition bind {A B} (m : M A) (k : A -> M B) : M B :=
  fun o => match m o with
           | (Ok a, o') => k a o'
           | (Raise e, o') => (Raise e, o')
           end.
Definition get : M OTF := fun o => (Ok o, o).
Definition modify (f : OTF -> OTF) : M unit := fun o => (Ok tt, f o).
Definition lift {A} (r : res A) : M A := fun o => (r, o).

Notation "x <- m ;; k" := (bind m (fun x => k))
  (at level 63, m at next level, right associativity).
Notation "m ;;; k" := (bind m (fun _ => k))
  (at level 63, right associativity).

(** [for x in l: body(x)] *)
Fixpoint for_ {A} (l : list A) (body : A -> M unit) : M unit :=
  match l with
  | [] => ret tt
  | x :: rest => body x ;;; for_ rest body
  end.

(** [a[n][i] = x] *)
Definition setitem2 (a : list vec3) (n i : nat) (x : float)
  : res (list vec3) :=
  res_bind (py_index a n) (fun row =>
  res_bind (vset row i x) (fun row' => Ok (<[n := row']> a))).

(** [write_to_output]: one more piece at the end of the file. *)
Definition write_to_output (e : entry) : M unit :=
  modify (fun o => with_otf_run_out (otf_run_out o ++ [e]) o).

(** The body of the inner loop of [predict_on_structure]. *)
Definition predict_component (chemenv : Environment) (n i : nat) : M unit :=
  o <- get ;;
  let '(force, var) := predict (gp o) chemenv (i + 1) in
  f <- lift (setitem2 (forces (structure o)) n i force) ;;
  modify (fun o => with_structure (set_forces f (structure o)) o) ;;;
  d <- lift (setitem2 (stds (structure o)) n i
               (F64.sqrt (F64.abs var))) ;;
  modify (fun o => with_structure (set_stds d (structure o)) o).

Definition predict_on_structure : M unit :=
  o <- get ;;
  for_ (seq 0 (nat_of (structure o))) (fun n =>
    o <- get ;;
    let chemenv := ChemicalEnvironment (structure o) n in
    for_ (seq 0 3) (predict_component chemenv n)).

(** [np.random.randint(0, n)] and [np.random.choice(l)] *)
Definition randint (n : nat) : M nat :=
  if decide (n = 0)%nat then lift (Raise ValueError)
  else
    o <- get ;;
    let '(k, r) := draw (np_random o) n in
    modify (with_np_random r) ;;;
    ret (k mod n)%nat.

Definition choice (l : list nat) : M nat :=
  k <- randint (length l) ;;
  lift (py_index l k).

(** The rows [run_and_train] prints: label, position and oracle force of
    each atom of the training structure. *)
Definition qe_row (t : Structure) (frc : list vec3) (n : nat)
  : res (string * vec3 * vec3) :=
  res_bind (py_index (species t) n) (fun label =>
  res_bind (py_index (positions t) n) (fun pos =>
  res_bind (py_index frc n) (fun f => Ok (label, pos, f)))).

Fixpoint collect {A} (f : nat -> res A) (idx : list nat) : res (list A) :=
  match idx with
  | [] => Ok []
  | i :: rest =>
      res_bind (f i) (fun x =>
      res_bind (collect f rest) (fun xs => Ok (x :: xs)))
  end.

Definition newline : string := String (Ascii.ascii_of_nat 10) EmptyString.

Definition run_and_train (punchout_target : option nat) : M unit :=
  write_to_output
    (Text ("====================" ++ newline ++ "Calling QE... ")) ;;;
  o <- get ;;
  r <- match punchout_d o with
       | None => ret TheStructure
       | Some d =>
           target <- match train_structure o with
                     | None =>
                         k <- randint (nat_of (structure o)) ;; ret (Some k)
                     | Some _ => ret punchout_target
                     end ;;
           ret (Punched (punchout (structure o) target d))
       end ;;
  modify (with_train_structure (Some r)) ;;;
  let t := referred (structure o) r in
  let frc := run_espresso (qe_input o) t in
  write_to_output (Text ("Done." ++ newline)) ;;;
  rows <- lift (collect (qe_row t frc) (seq 0 (nat_of t))) ;;
  write_to_output (QEResult rows) ;;;
  write_to_output
    (Text ("Updating database hyperparameters..." ++ newline)) ;;;
  modify (fun o => with_gp (update_db (gp o) t frc) o) ;;;
  modify (fun o => with_gp (train (gp o)) o) ;;;
  o <- get ;;
  write_to_output (Hyperparameters (gp o)).

(** One turn of the loop of [update_positions], at index [i]. *)
Definition update_row (dtdt : float) (i : nat) : M unit :=
  o <- get ;;
  let s := structure o in
  pre_pos <- lift (py_index (prev_positions s) i) ;;
  temp_pos <- lift (py_index (positions s) i) ;;
  label <- lift (py_index (species s) i) ;;
  mass <- lift (py_getitem (mass_dict s) label) ;;
  let pos := temp_pos in
  frc <- lift (py_index (forces s) i) ;;
  modify (fun o => with_structure
            (set_positions
               (<[i := md.verlet dtdt mass pos pre_pos frc]>
                  (positions (structure o))) (structure o)) o) ;;;
  modify (fun o => with_structure
            (set_prev_positions
               (<[i := temp_pos]> (prev_positions (structure o)))
               (structure o)) o).

Definition update_positions : M unit :=
  o <- get ;;
  dtdt <- lift (py_sq (dt o)) ;;
  for_ (seq 0 (length (prev_positions (structure o)))) (update_row dtdt).

Definition config_row (s : Structure) (i : nat)
  : res (string * vec3 * vec3 * vec3) :=
  res_bind (py_index (species s) i) (fun label =>
  res_bind (py_index (positions s) i) (fun pos =>
  res_bind (py_index (forces s) i) (fun frc =>
  res_bind (py_index (stds s) i) (fun std => Ok (label, pos, frc, std))))).

Definition write_config : M unit :=
  o <- get ;;
  rows <- lift (collect (config_row (structure o))
                  (seq 0 (length (positions (structure o))))) ;;
  write_to_output (Config (curr_step o) (dt o) rows).

Definition is_std_in_bound : M (bool * list nat) :=
  o <- get ;;
  lift (std_in_bound (stds (structure o))).

(** Truth of a float in a condition: anything but a zero. *)
Definition truthy (d : option float) : bool :=
  match d with
  | None => false
  | Some x => negb (F64.is_zero x)
  end.

(** The two ways through the body of the main loop. *)
Inductive transition : Type := Correct | Integrate.

(** The body of [while self.curr_step < self.Nsteps]. *)
Definition loop_body : M transition :=
  predict_on_structure ;;;
  r <- is_std_in_bound ;;
  let '(std_in_bound, problem_atoms) := r in
  if negb std_in_bound then
    write_config ;;;
    o <- get ;;
    target_atom <- (if truthy (punchout_d o)
                    then k <- choice problem_atoms ;; ret (Some k)
                    else ret None) ;;
    run_and_train target_atom ;;;
    ret Correct
  else
    write_config ;;;
    update_positions ;;;
    modify (fun o => with_curr_step (curr_step o + 1) o) ;;;
    ret Integrate.

(** The main loop, for at most [fuel] turns: the transitions taken, and
    whether the condition of the loop came out false. *)
Fixpoint main_loop (fuel : nat) : M (bool * list transition) :=
  fun o =>
    if curr_step o <? Nsteps o then
      match fuel with
      | O => (Ok (false, []), o)
      | S fuel' =>
          (t <- loop_body ;;
           r <- main_loop fuel' ;;
           ret (fst r, t :: snd r)) o
      end
    else (Ok (true, []), o).

Definition run (fuel : nat) : M (bool * list transition) :=
  run_and_train None ;;;
  main_loop fuel.

End Engine.


(** *** [parse_otf_output] *)

(** [s[0]] on a string. *)
Definition first_char (s : string) : res Ascii.ascii :=
  match s with
  | EmptyString => Raise IndexError
  | String c _ => Ok c
  end.

(** [l.index(x)]: the first position of [x]. *)
Fixpoint list_index (l : list string) (x : string) : res nat :=
  match l with
  | [] => Raise ValueError
  | y :: rest =>
      if String.eqb y x then Ok 0%nat
      else res_bind (list_index rest x) (fun i => Ok (S i))
  end.

(** The white space [strip] removes, among the characters below 256: tab
    to carriage return, the four separators, the space, next line and
    the no-break space. *)
Definition is_space (c : Ascii.ascii) : bool :=
  let n := Ascii.nat_of_ascii c in
  ((9 <=? n) && (n <=? 13) || (28 <=? n) && (n <=? 32) ||
   (n =? 133) || (n =? 160))%nat.

Fixpoint lstrip (s : list Ascii.ascii) : list Ascii.ascii :=
  match s with
  | c :: rest => if is_space c then lstrip rest else s
  | [] => []
  end.

(** [s.strip()] *)
Definition strip (s : string) : string :=
  string_of_list_ascii
    (reverse (lstrip (reverse (lstrip (list_ascii_of_string s))))).

(** [s.split(sep)] for a separator of one character. *)
Fixpoint split (sep : Ascii.ascii) (s : string) : list string :=
  match s with
  | EmptyString => [EmptyString]
  | String c rest =>
      if Ascii.eqb c sep then EmptyString :: split sep rest
      else match split sep rest with
           | [] => [String c EmptyString]
           | x :: xs => String c x :: xs
           end
  end.

(** [sep.join(l)] *)
Definition join (sep : string) (l : list string) : string :=
  String.concat sep l.

(** The function [vars] of Python, which the parser stores where the
    standard deviations were meant to go. *)
Inductive builtin : Type := builtin_vars.

(** [{'positions': positions, 'forces': forces, 'vars': vars}] *)
Record frame : Type := mkFrame {
  frame_positions : list (list float);
  frame_forces : list (list float);
  frame_vars : builtin
}.

(** The keys of [results], frame numbers and ['species'], and its
    values. *)
Inductive key : Type :=
| KeyInt (n : nat)
| KeyStr (s : string).

Inductive value : Type :=
| Frame (f : frame)
| Species (l : list string).

Definition key_eqb (a b : key) : bool :=
  match a, b with
  | KeyInt m, KeyInt n => Nat.eqb m n
  | KeyStr s, KeyStr t => String.eqb s t
  | _, _ => false
  end.

(** [d[k] = v] on a dictionary, which keeps the order of insertion: in
    place when the key is there, at the end otherwise. *)
Fixpoint setitem (d : list (key * value)) (k : key) (v : value)
  : list (key * value) :=
  match d with
  | [] => [(k, v)]
  | (k', v') :: rest =>
      if key_eqb k' k then (k, v) :: rest else (k', v') :: setitem rest k v
  end.

Section Parser.

(** [np.fromstring(text, sep=',')] *)
Variable np_fromstring : string -> res (list float).

(** The lists the loop over the atoms of a frame appends to, and the
    dictionary. *)
Record atoms : Type := mkAtoms {
  positions_ : list (list float);
  forces_ : list (list float);
  stds_ : list (list float);
  species_ : list string;
  results_ : list (key * value)
}.

(** The body of [for at_index in range(n_atoms)]. *)
Definition parse_atom (lines : list string) (frame_number index : nat)
    (a : atoms) (at_index : nat) : res atoms :=
  res_bind (py_index lines (index + at_index + 1)) (fun line =>
  let at_line := split ","%char (strip line) in
  res_bind (py_index at_line 0) (fun a0 =>
  let species := species_ a ++ [a0] in
  res_bind (py_index at_line 1) (fun a1 =>
  res_bind (py_index at_line 2) (fun a2 =>
  res_bind (py_index at_line 3) (fun a3 =>
  res_bind (np_fromstring (join "," [a1; a2; a3])) (fun p =>
  let positions := positions_ a ++ [p] in
  res_bind (py_index at_line 4) (fun a4 =>
  res_bind (py_index at_line 5) (fun a5 =>
  res_bind (py_index at_line 6) (fun a6 =>
  res_bind (np_fromstring (join "," [a4; a5; a6])) (fun f =>
  let forces := forces_ a ++ [f] in
  res_bind (py_index at_line 7) (fun a7 =>
  res_bind (py_index at_line 8) (fun a8 =>
  res_bind (py_index at_line 9) (fun a9 =>
  res_bind (np_fromstring (join "," [a7; a8; a9])) (fun d =>
  let stds := stds_ a ++ [d] in
  Ok (mkAtoms positions forces stds species
        (setitem (results_ a) (KeyInt frame_number)
           (Frame (mkFrame positions forces builtin_vars)))))))))))))))))).

Fixpoint parse_atoms (lines : list string) (frame_number index : nat)
    (idx : list nat) (a : atoms) : res atoms :=
  match idx with
  | [] => Ok a
  | at_index :: rest =>
      res_bind (parse_atom lines frame_number index a at_index)
        (parse_atoms lines frame_number index rest)
  end.

(** The loop over [enumerate(frame_indices)]: what was printed so far, the
    dictionary, and how the loop ends. *)
Fixpoint parse_frames (lines : list string) (n_atoms : Z)
    (frames : list (nat * nat)) (results : list (key * value))
    (printed : list (list (key * value)))
  : list (list (key * value)) * res unit :=
  match frames with
  | [] => (printed, Ok tt)
  | (frame_number, index) :: rest =>
      match parse_atoms lines frame_number index
              (seq 0 (Z.to_nat n_atoms)) (mkAtoms [] [] [] [] results) with
      | Ok a =>
          let results := setitem (results_ a) (KeyStr "species")
                           (Species (species_ a)) in
          parse_frames lines n_atoms rest results (printed ++ [results])
      | Raise e => (printed, Raise e)
      end
  end.

(** [[lines.index(line) for line in lines if line[0] == '-']], over the
    lines [todo] that are left. *)
Fixpoint frame_indices (lines todo : list string) : res (list nat) :=
  match todo with
  | [] => Ok []
  | line :: rest =>
      res_bind (first_char line) (fun c =>
      if Ascii.eqb c "-"%char
      then res_bind (list_index lines line) (fun i =>
           res_bind (frame_indices lines rest) (fun l => Ok (i :: l)))
      else frame_indices lines rest)
  end.

(** [parse_otf_output] on the lines read from the file: the dictionaries
    it prints, in order, and how it ends.  It has no [return]. *)
Definition parse_otf_output (lines : list string)
  : list (list (key * value)) * res unit :=
  match frame_indices lines lines with
  | Raise e => ([], Raise e)
  | Ok indices =>
      match res_bind (py_index indices 1) (fun i1 =>
            res_bind (py_index indices 0) (fun i0 =>
            Ok (Z.of_nat i1 - Z.of_nat i0 - 2))) with
      | Raise e => ([], Raise e)
      | Ok n_atoms =>
          parse_frames lines n_atoms
            (imap (fun frame_number index => (frame_number, index)) indices)
            [] []
      end
  end.

End Parser.

End otf.

(** ** Sample systems to run the code on *)

Module sample.

(** A surrogate that reports one force and one variance whatever it is
    asked, an oracle that returns a zero force per atom, no punch-out. *)
Definition constant_surrogate (force var : float) : otf.Collaborators :=
  {| otf.GaussianProcess := unit;
     otf.Environment := unit;
     otf.RandomState := unit;
     otf.ChemicalEnvironment := fun _ _ => tt;
     otf.predict := fun _ _ _ => (force, var);
     otf.update_db := fun g _ _ => g;
     otf.train := fun g => g;
     otf.punchout := fun s _ _ => s;
     otf.run_espresso := fun _ s =>
       replicate (nat_of s) (V3 F64.zero F64.zero F64.zero);
     otf.draw := fun r _ => (0%nat, r) |}.

(** The surrogate that is sure of a zero force, and the one that reports a
    variance of one, a standard deviation of one, whatever it is asked. *)
Definition sure : otf.Collaborators := constant_surrogate F64.zero F64.zero.
Definition unsure : otf.Collaborators :=
  constant_surrogate F64.zero (F64.of_Z 1).

Definition origin : vec3 := V3 F64.zero F64.zero F64.zero.

(** A C library whose [pow] is correctly rounded at the exponent 2.0, the
    one the code asks for, and sets [ERANGE] when a finite number
    overflows; at another exponent it has no answer. *)
Definition libm : Libm :=
  {| pow := fun x y =>
       if F64.eqb y F64.two then
         let r := F64.mul x x in
         (r, if F64.is_finite x && F64.is_infinity r then Some ERANGE
             else None)
       else (S754_nan, Some EDOM) |}.

(** Two hydrogen atoms 0.74 apart, at rest. *)
Definition molecule (stds : list vec3) : Structure :=
  {| positions := [origin; V3 F64.zero F64.zero (F64.decimal 74 100)];
     prev_positions := [origin; V3 F64.zero F64.zero (F64.decimal 74 100)];
     species := ["H"; "H"]%string;
     mass_dict := {[ "H"%string := F64.decimal 1008 1000 ]};
     cell := [];
     forces := [origin; origin];
     stds := stds |}.

(** One of the two atoms alone, moved by 0.01 since the previous step. *)
Definition lone_atom : Structure :=
  {| positions := [origin];
     prev_positions := [V3 F64.zero F64.zero (F64.decimal 1 100)];
     species := ["H"]%string;
     mass_dict := {[ "H"%string := F64.decimal 1008 1000 ]};
     cell := [];
     forces := [origin];
     stds := [origin] |}.

(** [OTF('pwscf.in', .0001, 5, kernel, cutoff=10, punchout_d=None)] on it,
    with the uncertainties [stds] in place. *)
Definition engine (force var : float) (stds : list vec3)
  : @otf.OTF (constant_surrogate force var) :=
  @otf.mkOTF (constant_surrogate force var)
    "pwscf.in" (F64.decimal 1 10000) 5 tt (F64.of_Z 10) None
    (molecule stds) 0 None [] tt.

End sample.

(** ** More systems to run the code on *)

Module cases.

(** A surrogate that reports a NaN as the variance for the first direction
    and a variance of one for the other two, whatever it is asked. *)
Definition torn : otf.Collaborators :=
  {| otf.GaussianProcess := unit;
     otf.Environment := unit;
     otf.RandomState := unit;
     otf.ChemicalEnvironment := fun _ _ => tt;
     otf.predict := fun _ _ d =>
       (F64.zero, if Nat.eqb d 1 then S754_nan else F64.of_Z 1);
     otf.update_db := fun g _ _ => g;
     otf.train := fun g => g;
     otf.punchout := fun s _ _ => s;
     otf.run_espresso := fun _ s =>
       replicate (nat_of s) (V3 F64.zero F64.zero F64.zero);
     otf.draw := fun r _ => (0%nat, r) |}.

(** An oracle that returns no force at all, beside the surrogate that is
    sure. *)
Definition silent : otf.Collaborators :=
  {| otf.GaussianProcess := unit;
     otf.Environment := unit;
     otf.RandomState := unit;
     otf.ChemicalEnvironment := fun _ _ => tt;
     otf.predict := fun _ _ _ => (F64.zero, F64.zero);
     otf.update_db := fun g _ _ => g;
     otf.train := fun g => g;
     otf.punchout := fun s _ _ => s;
     otf.run_espresso := fun _ _ => [];
     otf.draw := fun r _ => (0%nat, r) |}.

(** A structure without atoms. *)
Definition void : Structure :=
  {| positions := []; prev_positions := []; species := [];
     mass_dict := ∅; cell := []; forces := []; stds := [] |}.


(** The molecule of the sample in motion: each atom is 0.01 further along
    the last axis than a step ago, and a force of one pulls the first atom
    along the first axis and the second back along the last. *)
Definition pushed : Structure :=
  {| positions := [V3 F64.zero F64.zero (F64.decimal 1 100);
                   V3 F64.zero F64.zero (F64.decimal 75 100)];
     prev_positions := positions (sample.molecule []);
     species := ["H"; "H"]%string;
     mass_dict := mass_dict (sample.molecule []);
     cell := [];
     forces := [V3 (F64.of_Z 1) F64.zero F64.zero;
                V3 F64.zero F64.zero (F64.of_Z (-1))];
     stds := [sample.origin; sample.origin] |}.

(** The same with a helium atom in the place of the second hydrogen, and
    no mass for helium. *)
Definition unweighed : Structure :=
  {| positions := positions pushed;
     prev_positions := prev_positions pushed;
     species := ["H"; "He"]%string;
     mass_dict := mass_dict pushed;
     cell := [];
     forces := forces pushed;
     stds := stds pushed |}.

(** One hydrogen atom at rest, far out: 1e308 along the last axis. *)
Definition far : Structure :=
  {| positions := [V3 F64.zero F64.zero (F64.of_Z (10 ^ 308))];
     prev_positions := [V3 F64.zero F64.zero (F64.of_Z (10 ^ 308))];
     species := ["H"]%string;
     mass_dict := mass_dict (sample.molecule []);
     cell := [];
     forces := [sample.origin];
     stds := [sample.origin] |}.

(** [OTF('pwscf.in', dt, 5, kernel, cutoff=10, punchout_d=None)] on a
    structure, with the surrogate that is sure. *)
Definition stepping (dt : float) (s : Structure) : @otf.OTF sample.sure :=
  @otf.mkOTF sample.sure "pwscf.in" dt 5 tt (F64.of_Z 10) None s 0 None []
    tt.

(** [OTF('pwscf.in', .0001, 5, kernel, cutoff=10, punchout_d=d)] on a
    structure, with a training structure of its own or none. *)
Definition engine (C : otf.Collaborators) (g : otf.GaussianProcess)
    (r : otf.RandomState) (d : option float) (s : Structure)
    (t : option Structure) : otf.OTF :=
  otf.mkOTF "pwscf.in" (F64.decimal 1 10000) 5 g (F64.of_Z 10) d s 0
    (otf.Punched <$> t) [] r.

Definition tab : string := String (Ascii.ascii_of_nat 9) EmptyString.

(** The lines of an output file of one hydrogen atom: the time the
    constructor writes, what the first call of [run_and_train] appends, and
    the frame [write_config] appends. *)
Definition fresh_file : list string :=
  ["2018-07-09 16:37:51.209765" ++ otf.newline]%string.

Definition training_lines : list string :=
  ["====================" ++ otf.newline;
   "Calling QE... Done." ++ otf.newline;
   "Resultant Positions and Forces:" ++ otf.newline;
   "H: 0.00000000  0.00000000  0.00000000  " ++ tab
     ++ " 0.00000000  0.00000000  0.00000000  " ++ otf.newline;
   "Updating database hyperparameters..." ++ otf.newline;
   "New GP Hyperparameters:" ++ otf.newline;
   "Signal std: " ++ tab ++ "1.0" ++ otf.newline;
   "Length scale: " ++ tab ++ tab ++ "1.0" ++ otf.newline;
   "Noise std: " ++ tab ++ "0.1" ++ otf.newline]%string.

Definition frame_lines : list string :=
  ["-------------------- " ++ otf.newline;
   "- Frame 0 Sim. Time 0.0" ++ otf.newline;
   "El " ++ tab ++ tab ++ tab ++ " Position " ++ tab ++ tab ++ tab ++ tab
     ++ tab ++ " Force " ++ tab ++ tab ++ tab ++ tab ++ tab ++ tab ++ tab
     ++ " Std. Dev " ++ otf.newline;
   "H 0.00000000 0.00000000 0.00000000 " ++ tab
     ++ "0.00000000 0.00000000 0.00000000 " ++ tab
     ++ "0.000000e+00 0.000000e+00 0.000000e+00 " ++ otf.newline]%string.

End cases.

(** ** Notions the properties are stated with *)

(** No entry of the array is a NaN. *)
Definition no_nan (a : list vec3) : Prop :=
  Forall (fun x => F64.is_nan x = false) (entries a).

(** [m] is a maximum of [l]: one of its elements, and none is above it. *)
Definition is_maximum (m : float) (l : list float) : Prop :=
  m ∈ l /\ Forall (fun x => F64.leb x m = true) l.

(** Atom [i] of the array has a maximum over its components that is at or
    above the threshold. *)
Definition problem_atom (a : list vec3) (i : nat) : Prop :=
  exists row m,
    a !! i = Some row /\ is_maximum m (components row) /\
    F64.geb m threshold = true.

(** The mass the structure gives atom [i]. *)
Definition mass_of (s : Structure) (i : nat) : option float :=
  label ← species s !! i; mass_dict s !! label.

(** Every atom has a label, and every label a mass. *)
Definition has_masses (s : Structure) : Prop :=
  forall i, (i < length (positions s))%nat -> is_Some (mass_of s i).

(** [0.5 * mass * v * v] for the three components of a velocity, in order. *)
Definition kinetic_terms (mass : float) (v : vec3) : list float :=
  map (fun x => F64.mul (F64.mul (F64.mul F64.half mass) x) x) (components v).

(** The terms of all atoms, atom after atom, added up from zero in that
    order. *)
Definition kinetic_sum (s : Structure) (velocities : list vec3) : float :=
  fold_left F64.add
    (concat (imap (fun i v => kinetic_terms (default F64.zero (mass_of s i)) v)
               velocities))
    F64.zero.

(** The float a running kinetic energy stands for, and the two shapes it
    has: the [int] zero it starts as, or a float. *)
Definition as_float (KE : md.number) : float :=
  match KE with
  | md.PyInt _ => F64.zero
  | md.Float k => k
  end.

Definition fresh_or_float (KE : md.number) : Prop :=
  KE = md.PyInt 0 \/ exists k, KE = md.Float k.

(** The same float, up to the sign of a zero: what [==] tells of two
    numbers. *)
Definition unchanged (x y : float) : Prop :=
  x = y \/ (F64.is_zero x = true /\ F64.is_zero y = true).

Definition unchanged3 (u v : vec3) : Prop :=
  unchanged (c0 u) (c0 v) /\ unchanged (c1 u) (c1 v) /\
  unchanged (c2 u) (c2 v).

(** A coordinate: a binary64 number, finite, whose double is finite too. *)
Definition coordinate (p : float) : Prop :=
  F64.valid p = true /\ F64.is_finite p = true /\
  F64.is_finite (F64.mul F64.two p) = true.

Definition coordinates (v : vec3) : Prop :=
  coordinate (c0 v) /\ coordinate (c1 v) /\ coordinate (c2 v).

(** A row of zeros, of either sign. *)
Definition zero3 (v : vec3) : Prop :=
  F64.is_zero (c0 v) = true /\ F64.is_zero (c1 v) = true /\
  F64.is_zero (c2 v) = true.

(** A float that [** 2] hands to the C library: finite, not zero, and
    neither 1.0 nor -1.0. *)
Definition ordinary (x : float) : Prop :=
  F64.is_finite x = true /\ F64.is_zero x = false /\
  F64.eqb (F64.abs x) F64.one = false.

(** The C library squares [dt] to [dtdt]: [pow(|dt|, 2.0)] returns
    [dtdt], which is no infinity, and sets no [errno]. *)
Definition squares_to `{Libm} (dt dtdt : float) : Prop :=
  ordinary dt /\ pow (F64.abs dt) F64.two = (dtdt, None) /\
  F64.is_infinity dtdt = false.

(** [dt ** 2] returns, and what it returns is a finite float. *)
Definition finite_square `{Libm} (dt : float) : Prop :=
  exists dtdt, py_sq dt = Ok dtdt /\ F64.is_finite dtdt = true.

(** A mass to divide by: a number, and not zero. *)
Definition divisor (mass : float) : Prop :=
  F64.is_nan mass = false /\ F64.is_zero mass = false.

(** ** Notions of the engine the properties are stated with *)

Section EngineNotions.
Context `{libm : Libm} `{otf.Collaborators}.

(** The object with other positions and previous positions. *)
Definition moved (o : otf.OTF) (P Q : list vec3) : otf.OTF :=
  otf.with_structure
    (set_prev_positions Q (set_positions P (otf.structure o))) o.

(** Where the loop of [update_positions] stands before atom [k]: the
    atoms below [k] are updated, the others are as at the start. *)
Definition updated_below (s : Structure) (dtdt : float) (k : nat)
    (P Q : list vec3) : Prop :=
  length P = length (positions s) /\
  length Q = length (positions s) /\
  (forall i, (k <= i)%nat ->
     P !! i = positions s !! i /\ Q !! i = prev_positions s !! i) /\
  (forall i, (i < k)%nat -> Q !! i = positions s !! i) /\
  (forall i pos pre frc mass, (i < k)%nat ->
     positions s !! i = Some pos -> prev_positions s !! i = Some pre ->
     forces s !! i = Some frc -> mass_of s i = Some mass ->
     P !! i = Some (md.verlet dtdt mass pos pre frc)).

(** [m] never changes what [f] reads off the object, whatever the outcome. *)
Definition keeps {X A} (f : otf.OTF -> X) (m : otf.M A) : Prop :=
  forall o, f (snd (m o)) = f o.

(** What is read off the object without looking at the surrogate, the
    training structure, the output or the generator. *)
Record untouched {X} (f : otf.OTF -> X) : Prop := {
  untouched_gp : forall g o, f (otf.with_gp g o) = f o;
  untouched_train : forall t o, f (otf.with_train_structure t o) = f o;
  untouched_out : forall l o, f (otf.with_otf_run_out l o) = f o;
  untouched_random : forall r o, f (otf.with_np_random r o) = f o
}.

(** The same, without looking at the structure either. *)
Record setting {X} (f : otf.OTF -> X) : Prop := {
  setting_untouched : untouched f;
  setting_structure : forall s o, f (otf.with_structure s o) = f o
}.

(** The prediction went through and the policy answered [b]. *)
Definition policy_says (o : otf.OTF) (b : bool) : Prop :=
  exists o1 P,
    otf.predict_on_structure o = (Ok tt, o1) /\
    otf.is_std_in_bound o1 = (Ok (b, P), o1).

(** The arrays of a structure have one length. *)
Definition shaped (s : Structure) : Prop :=
  length (prev_positions s) = length (positions s) /\
  length (species s) = length (positions s) /\
  length (forces s) = length (positions s) /\
  length (stds s) = length (positions s).

(** The oracle returns a force for every atom it is given. *)
Definition oracle_ok : Prop :=
  forall q t, (nat_of t <= length (otf.run_espresso q t))%nat.

(** The object after [run_and_train] on the whole structure. *)
Definition trained (o : otf.OTF) (rows : list (string * vec3 * vec3))
  : otf.OTF :=
  let t := otf.structure o in
  let frc := otf.run_espresso (otf.qe_input o) t in
  let g := otf.train (otf.update_db (otf.gp o) t frc) in
  otf.with_otf_run_out
    (otf.otf_run_out o ++
     [otf.Text ("====================" ++ otf.newline ++ "Calling QE... ");
      otf.Text ("Done." ++ otf.newline);
      otf.QEResult rows;
      otf.Text ("Updating database hyperparameters..." ++ otf.newline);
      otf.Hyperparameters g])
    (otf.with_gp g (otf.with_train_structure (Some otf.TheStructure) o)).

(** The object after [write_config]. *)
Definition recorded (o : otf.OTF)
    (rows : list (string * vec3 * vec3 * vec3)) : otf.OTF :=
  otf.with_otf_run_out
    (otf.otf_run_out o ++ [otf.Config (otf.curr_step o) (otf.dt o) rows]) o.

(** The object with other forces and standard deviations. *)
Definition predicted (o : otf.OTF) (F D : list vec3) : otf.OTF :=
  otf.with_structure (set_stds D (set_forces F (otf.structure o))) o.

(** A force and a standard deviation the surrogate can report. *)
Definition reported_force (x : float) : Prop :=
  exists g e d, x = fst (otf.predict g e d).

Definition reported_std (x : float) : Prop :=
  exists g e d, x = F64.sqrt (F64.abs (snd (otf.predict g e d))).

(** The rows from [k] on are as they were, the rows below [k] hold what
    the surrogate reported. *)
Definition predicted_below (F0 D0 : list vec3) (k : nat) (F D : list vec3)
  : Prop :=
  length F = length F0 /\ length D = length D0 /\
  (forall j, (k <= j)%nat -> F !! j = F0 !! j /\ D !! j = D0 !! j) /\
  (forall j row, (j < k)%nat -> F !! j = Some row ->
     Forall reported_force (components row)) /\
  (forall j row, (j < k)%nat -> D !! j = Some row ->
     Forall reported_std (components row)).

(** The surrogate that is sure of a zero force: force and variance are
    zeros, whatever it is asked. *)
Definition surrogate_at_rest : Prop :=
  forall g e d,
    F64.is_zero (fst (otf.predict g e d)) = true /\
    F64.is_zero (snd (otf.predict g e d)) = true.

(** The surrogate that is never sure: a standard deviation at or above
    the threshold, whatever it is asked. *)
Definition surrogate_above : Prop :=
  forall g e d,
    F64.geb (F64.sqrt (F64.abs (snd (otf.predict g e d)))) threshold = true.

(** The engine on a system that rests at [p0]. *)
Definition at_rest (p0 : list vec3) (dtdt : float) (o : otf.OTF) : Prop :=
  let s := otf.structure o in
  shaped s /\ positions s <> [] /\ has_masses s /\
  (forall i mass, mass_of s i = Some mass -> divisor mass) /\
  py_sq (otf.dt o) = Ok dtdt /\ F64.is_finite dtdt = true /\
  Forall2 unchanged3 (positions s) p0 /\
  Forall2 unchanged3 (prev_positions s) p0 /\
  Forall coordinates p0.

(** What an entry of the output is, and for which frame. *)
Inductive kind : Type :=
| KText
| KConfig (frame : Z)
| KQEResult
| KHyperparameters.

Definition kind_of (e : otf.entry) : kind :=
  match e with
  | otf.Text _ => KText
  | otf.Config frame _ _ => KConfig frame
  | otf.QEResult _ => KQEResult
  | otf.Hyperparameters _ => KHyperparameters
  end.

End EngineNotions.

(** ** Notions for the further properties *)

(** A row that is listed as a problem: none of its components is a NaN and
    one of them is at or above the threshold. *)
Definition row_above (row : vec3) : Prop :=
  Forall (fun x => F64.is_nan x = false) (components row) /\
  Exists (fun x => F64.geb x threshold = true) (components row).

(** The entries a call of [run_and_train] appends to the output, by kind. *)
Definition training_kinds : list kind :=
  [KText; KText; KQEResult; KText; KHyperparameters].

(** The entries the turns of the main loop append, with the clock at [c]
    before the first of them: every turn writes the frame of the clock; a
    correcting turn goes on with the entries of [run_and_train] and leaves
    the clock, an integrating turn moves it by one. *)
Fixpoint turns_kinds (c : Z) (ts : list otf.transition) : list kind :=
  match ts with
  | [] => []
  | otf.Correct :: ts => KConfig c :: training_kinds ++ turns_kinds c ts
  | otf.Integrate :: ts => KConfig c :: turns_kinds (c + 1) ts
  end.

(** The number of integrating turns. *)
Fixpoint integrations (ts : list otf.transition) : Z :=
  match ts with
  | [] => 0
  | otf.Correct :: ts => integrations ts
  | otf.Integrate :: ts => 1 + integrations ts
  end.

(** A line that starts with a dash: what the parser of the output takes
    for the first line of a frame. *)
Definition dashed (line : string) : bool :=
  match line with
  | String c _ => Ascii.eqb c "-"%char
  | EmptyString => false
  end.

(** A string with no comma in it. *)
Definition comma_free (s : string) : Prop :=
  (","%char : Ascii.ascii) ∉ list_ascii_of_string s.

(** The dictionary that holds no frame: the key ['species'] with an empty
    list. *)
Definition no_frame : list (otf.key * otf.value) :=
  [(otf.KeyStr "species", otf.Species [])].

Section MoreEngineNotions.
Context `{libm : Libm} `{otf.Collaborators}.

(** What the surrogate [g] reports for an atom in the environment [e]: the
    forces and the standard deviations for the directions 1, 2 and 3. *)
Definition force_row (g : otf.GaussianProcess) (e : otf.Environment) : vec3 :=
  V3 (fst (otf.predict g e 1)) (fst (otf.predict g e 2))
     (fst (otf.predict g e 3)).

Definition std_row (g : otf.GaussianProcess) (e : otf.Environment) : vec3 :=
  V3 (F64.sqrt (F64.abs (snd (otf.predict g e 1))))
     (F64.sqrt (F64.abs (snd (otf.predict g e 2))))
     (F64.sqrt (F64.abs (snd (otf.predict g e 3)))).

(** Two structures with the same atoms: they differ in forces and standard
    deviations at most. *)
Definition same_atoms (s1 s2 : Structure) : Prop :=
  positions s1 = positions s2 /\ prev_positions s1 = prev_positions s2 /\
  species s1 = species s2 /\ mass_dict s1 = mass_dict s2 /\
  cell s1 = cell s2.

(** Where the loop of [predict_on_structure] stands before atom [k]: the
    rows from [k] on are as they were; a row below [k] holds what the
    surrogate [g] reported in the environment of its atom, which was built
    on a structure with the same atoms. *)
Definition rows_below (g : otf.GaussianProcess) (s : Structure) (k : nat)
    (F D : list vec3) : Prop :=
  length F = length (forces s) /\ length D = length (stds s) /\
  (forall j, (k <= j)%nat ->
     F !! j = forces s !! j /\ D !! j = stds s !! j) /\
  (forall j, (j < k)%nat ->
     exists s', same_atoms s' s /\
       F !! j = Some (force_row g (otf.ChemicalEnvironment s' j)) /\
       D !! j = Some (std_row g (otf.ChemicalEnvironment s' j))).

(** What is read off the object without looking at the surrogate, the
    training structure, the output, the generator, the clock, the forces,
    the standard deviations, or the value of a position. *)
Record fixed {X} (f : otf.OTF -> X) : Prop := {
  fixed_untouched : untouched f;
  fixed_clock : forall n o, f (otf.with_curr_step n o) = f o;
  fixed_forces : forall F o,
    f (otf.with_structure (set_forces F (otf.structure o)) o) = f o;
  fixed_stds : forall D o,
    f (otf.with_structure (set_stds D (otf.structure o)) o) = f o;
  fixed_positions : forall i v o,
    f (otf.with_structure
         (set_positions (<[i := v]> (positions (otf.structure o)))
            (otf.structure o)) o) = f o;
  fixed_prev_positions : forall i v o,
    f (otf.with_structure
         (set_prev_positions (<[i := v]> (prev_positions (otf.structure o)))
            (otf.structure o)) o) = f o
}.

(** [m] only appends to the output, whatever its outcome. *)
Definition appends {A} (m : otf.M A) : Prop :=
  forall o, otf.otf_run_out o `prefix_of` otf.otf_run_out (snd (m o)).

(** The object after a call of [run_and_train] that bound the training
    structure to [b] and queried the oracle on it, with the generator [r]
    and the rows [rows] in the output. *)
Definition retrained (o : otf.OTF) (b : otf.referent) (r : otf.RandomState)
    (rows : list (string * vec3 * vec3)) : otf.OTF :=
  let t := otf.referred (otf.structure o) b in
  let frc := otf.run_espresso (otf.qe_input o) t in
  let g := otf.train (otf.update_db (otf.gp o) t frc) in
  otf.with_otf_run_out
    (otf.otf_run_out o ++
     [otf.Text ("====================" ++ otf.newline ++ "Calling QE... ");
      otf.Text ("Done." ++ otf.newline);
      otf.QEResult rows;
      otf.Text ("Updating database hyperparameters..." ++ otf.newline);
      otf.Hyperparameters g])
    (otf.with_gp g
       (otf.with_train_structure (Some b) (otf.with_np_random r o))).

(** What a call of [run_and_train] with the target [target] binds the
    training structure to, and the generator it leaves: the structure
    itself without punch-out; in punch-out mode the structure punched out
    around the target, which the first call draws among the atoms
    instead. *)
Definition training_choice (o : otf.OTF) (target : option nat)
    (b : otf.referent) (r : otf.RandomState) : Prop :=
  match otf.punchout_d o with
  | None => b = otf.TheStructure /\ r = otf.np_random o
  | Some d =>
      match otf.train_structure o with
      | Some _ =>
          b = otf.Punched (otf.punchout (otf.structure o) target d) /\
          r = otf.np_random o
      | None =>
          let n := nat_of (otf.structure o) in
          let k := (fst (otf.draw (otf.np_random o) n) mod n)%nat in
          n <> 0%nat /\ (k < n)%nat /\
          b = otf.Punched (otf.punchout (otf.structure o) (Some k) d) /\
          r = snd (otf.draw (otf.np_random o) n)
      end
  end.

End MoreEngineNotions.

(** * Properties *)

(** ** The literals of the source *)

(** [.1] is 0x1.999999999999ap-4, [0.0000861733034] is
    0x1.696fe145e6195p-14, [0.5] and [2] are themselves. *)
Example threshold_bits :
  threshold = S754_finite false 7205759403792794 (-56).
Proof. reflexivity. Qed.

Example kb_bits : md.kb = S754_finite false 6358467495223701 (-66).
Proof. reflexivity. Qed.

Example half_bits : F64.half = S754_finite false 4503599627370496 (-53).
Proof. reflexivity. Qed.

Example two_bits : F64.two = S754_finite false 4503599627370496 (-51).
Proof. reflexivity. Qed.

Example literals_valid :
  F64.valid threshold = true /\ F64.valid md.kb = true /\
  F64.valid F64.half = true /\ F64.valid F64.two = true.
Proof. repeat split. Qed.

(** ** The order of binary64 *)

Section FloatOrder.

Lemma compare_cont_eq (a b : positive) :
  PosDef.Pos.compare_cont Eq a b = Pos.compare a b.
Proof. reflexivity. Qed.

(** Case analysis on every comparison in sight. *)
Ltac order_cases :=
  repeat first
    [ progress rewrite compare_cont_eq in *
    | match goal with
      | b : bool |- _ => destruct b
      | |- context [Z.compare ?a ?b] => destruct (Z.compare_spec a b)
      | H : context [Z.compare ?a ?b] |- _ => destruct (Z.compare_spec a b)
      | |- context [Pos.compare ?a ?b] => destruct (Pos.compare_spec a b)
      | H : context [Pos.compare ?a ?b] |- _ =>
          destruct (Pos.compare_spec a b)
      end
    | progress simpl in * ];
  subst; try reflexivity; try discriminate; try lia.

Lemma leb_refl (x : float) : F64.is_nan x = false -> F64.leb x x = true.
Proof.
  destruct x; intros Hx; try discriminate;
    unfold F64.leb, SFleb; simpl; rewrite ?compare_cont_eq; order_cases.
Qed.

Lemma leb_total (x y : float) :
  F64.is_nan x = false -> F64.is_nan y = false ->
  F64.leb x y || F64.leb y x = true.
Proof.
  destruct x, y; intros Hx Hy; try discriminate;
    unfold F64.leb, SFleb; simpl; rewrite ?compare_cont_eq; order_cases.
Qed.

Lemma leb_trans (x y z : float) :
  F64.leb x y = true -> F64.leb y z = true -> F64.leb x z = true.
Proof.
  destruct x, y, z; unfold F64.leb, SFleb; simpl;
    rewrite ?compare_cont_eq; intros Hxy Hyz;
    try discriminate; try reflexivity; order_cases.
Qed.

Lemma leb_not_nan (x y : float) :
  F64.leb x y = true -> F64.is_nan x = false /\ F64.is_nan y = false.
Proof. destruct x, y; simpl; try discriminate; auto. Qed.

Lemma ltb_negb_leb (x y : float) :
  F64.is_nan x = false -> F64.is_nan y = false ->
  F64.ltb x y = negb (F64.leb y x).
Proof.
  destruct x, y; intros Hx Hy; try discriminate;
    unfold F64.ltb, F64.leb, SFltb, SFleb; simpl;
    rewrite ?compare_cont_eq; order_cases.
Qed.

End FloatOrder.

(** ** The uncertainty policy *)

Section Policy.

Lemma np_fmax_spec (a b : float) :
  F64.is_nan a = false -> F64.is_nan b = false ->
  (np_fmax a b = a \/ np_fmax a b = b) /\
  F64.leb a (np_fmax a b) = true /\ F64.leb b (np_fmax a b) = true.
Proof.
  intros Ha Hb. unfold np_fmax, F64.geb. rewrite Hb, orb_false_r.
  pose proof (leb_total a b Ha Hb) as Ht.
  destruct (SFleb b a) eqn:E.
  - repeat split; auto using leb_refl.
  - change (SFleb b a) with (F64.leb b a) in E. rewrite E in Ht.
    rewrite orb_false_r in Ht. repeat split; auto using leb_refl.
Qed.

Lemma np_maximum_spec (a b : float) :
  F64.is_nan a = false -> F64.is_nan b = false ->
  (np_maximum a b = a \/ np_maximum a b = b) /\
  F64.leb a (np_maximum a b) = true /\ F64.leb b (np_maximum a b) = true.
Proof.
  intros Ha Hb. unfold np_maximum, F64.geb. rewrite Ha, orb_false_r.
  pose proof (leb_total a b Ha Hb) as Ht.
  destruct (SFleb b a) eqn:E.
  - repeat split; auto using leb_refl.
  - change (SFleb b a) with (F64.leb b a) in E. rewrite E in Ht.
    rewrite orb_false_r in Ht. repeat split; auto using leb_refl.
Qed.

(** A reduction with an operator that picks the larger operand yields a
    maximum. *)
Section Reduce.
Variable f : float -> float -> float.
Hypothesis f_spec : forall a b,
  F64.is_nan a = false -> F64.is_nan b = false ->
  (f a b = a \/ f a b = b) /\
  F64.leb a (f a b) = true /\ F64.leb b (f a b) = true.

Lemma fold_maximum (rest : list float) (x : float) :
  Forall (fun y => F64.is_nan y = false) (x :: rest) ->
  is_maximum (fold_left f rest x) (x :: rest).
Proof.
  revert x. induction rest as [|y rest IH]; intros x Hn.
  - simpl. split; [left|]. constructor; [|constructor].
    apply leb_refl. by inversion Hn.
  - inversion Hn as [|? ? Hx Hr]; subst.
    inversion Hr as [|? ? Hy Hr']; subst.
    destruct (f_spec x y Hx Hy) as (Hc & Hlx & Hly).
    assert (Hm : F64.is_nan (f x y) = false)
      by (destruct Hc as [-> | ->]; done).
    destruct (IH (f x y)) as [Hin Hall]; [by constructor|].
    simpl. inversion Hall as [|? ? Hle Hall']; subst. split.
    + apply elem_of_cons in Hin as [-> | Hin].
      * destruct Hc as [-> | ->]; [left | right; left].
      * right; by right.
    + repeat constructor; eauto using leb_trans.
Qed.
End Reduce.

Lemma np_max_maximum (v : vec3) :
  Forall (fun y => F64.is_nan y = false) (components v) ->
  is_maximum (np_max v) (components v).
Proof. intros Hn. exact (fold_maximum np_maximum np_maximum_spec _ _ Hn). Qed.

Lemma np_nanmax_maximum (a : list vec3) :
  a <> [] -> no_nan a ->
  exists m, np_nanmax a = Ok m /\ is_maximum m (entries a).
Proof.
  intros Ha Hn. destruct a as [|row a]; [done|].
  exists (fold_left np_fmax (c1 row :: c2 row :: entries a) (c0 row)).
  split; [reflexivity|].
  exact (fold_maximum np_fmax np_fmax_spec _ _ Hn).
Qed.

(** Two maxima of a list compare alike with any bound. *)
Lemma maximum_geb (l : list float) (m m' t : float) :
  is_maximum m l -> is_maximum m' l -> F64.geb m t = F64.geb m' t.
Proof.
  intros [Hin Hall] [Hin' Hall']. rewrite Forall_forall in Hall, Hall'.
  pose proof (Hall' _ Hin) as H1. pose proof (Hall _ Hin') as H2.
  unfold F64.geb. change SFleb with F64.leb.
  destruct (F64.leb t m) eqn:E, (F64.leb t m') eqn:E'; try done.
  - by rewrite (leb_trans _ _ _ E H1) in E'.
  - by rewrite (leb_trans _ _ _ E' H2) in E.
Qed.

Lemma maximum_not_nan (l : list float) (m : float) :
  is_maximum m l -> F64.is_nan m = false.
Proof.
  intros [Hin Hall]. rewrite Forall_forall in Hall.
  by destruct (leb_not_nan _ _ (Hall _ Hin)).
Qed.

Lemma no_nan_lookup (a : list vec3) (i : nat) (row : vec3) :
  no_nan a -> a !! i = Some row ->
  Forall (fun y => F64.is_nan y = false) (components row).
Proof.
  unfold no_nan, entries. intros Hn Hi. rewrite Forall_forall in *.
  intros x Hx. apply Hn. apply list_elem_of_In, in_concat.
  exists (components row). split; [|by apply list_elem_of_In].
  apply in_map, list_elem_of_In. by eapply list_elem_of_lookup_2.
Qed.

(** What the loop over the rows collects. *)
Lemma problem_loop_elem (a : list vec3) (i : nat) (acc : list nat) (k : nat) :
  k ∈ problem_loop i a acc <->
  k ∈ acc \/
  exists row, (i <= k)%nat /\ a !! (k - i)%nat = Some row /\
              F64.geb (np_max row) threshold = true.
Proof.
  revert i acc. induction a as [|std rest IH]; intros i acc; simpl.
  - split; [by left|]. intros [?|(row & _ & Hl & _)]; [done|].
    by rewrite lookup_nil in Hl.
  - rewrite IH. split.
    + intros [Hk | (row & Hle & Hl & Hg)].
      * destruct (F64.geb (np_max std) threshold) eqn:E; [|by left].
        apply elem_of_app in Hk as [Hk | Hk]; [by left|].
        apply list_elem_of_singleton in Hk as ->. right. exists std.
        by rewrite Nat.sub_diag.
      * right. exists row. split; [lia|]. split; [|done].
        by replace (k - i)%nat with (S (k - S i)) by lia.
    + intros [Hk | (row & Hle & Hl & Hg)].
      * left. destruct (F64.geb (np_max std) threshold); [|done].
        apply elem_of_app. by left.
      * destruct (decide (k = i)) as [-> | Hne].
        -- rewrite Nat.sub_diag in Hl. simpl in Hl. injection Hl as ->.
           left. rewrite Hg. apply elem_of_app. right. by left.
        -- right. exists row. split; [lia|]. split; [|done].
           by replace (k - i)%nat with (S (k - S i)) in Hl by lia.
Qed.

Lemma problem_loop_sorted (a : list vec3) (i : nat) (acc : list nat) :
  StronglySorted lt acc -> Forall (fun k => (k < i)%nat) acc ->
  StronglySorted lt (problem_loop i a acc).
Proof.
  revert i acc. induction a as [|std rest IH]; intros i acc Hs Hb; simpl.
  - done.
  - apply IH.
    + destruct (F64.geb (np_max std) threshold); [|done].
      apply StronglySorted_app_2; [|done|repeat constructor].
      intros x1 x2 Hx1 Hx2. apply list_elem_of_singleton in Hx2 as ->.
      rewrite Forall_forall in Hb. by apply Hb.
    + destruct (F64.geb (np_max std) threshold).
      * apply Forall_app. split; [|repeat constructor].
        eapply Forall_impl; [done|]. simpl. lia.
      * eapply Forall_impl; [done|]. simpl. lia.
Qed.

(** On an array without NaN, the loop lists the problem atoms. *)
Lemma problem_loop_problem_atom (a : list vec3) (k : nat) :
  no_nan a -> k ∈ problem_loop 0 a [] <-> problem_atom a k.
Proof.
  intros Hn. rewrite problem_loop_elem. rewrite Nat.sub_0_r. split.
  - intros [Hk | (row & _ & Hl & Hg)]; [by apply elem_of_nil in Hk|].
    exists row, (np_max row). split; [done|]. split; [|done].
    apply np_max_maximum. by eapply no_nan_lookup.
  - intros (row & m & Hl & Hm & Hg). right. exists row.
    split; [lia|]. split; [done|].
    rewrite <- Hg. apply maximum_geb with (components row); [|done].
    apply np_max_maximum. by eapply no_nan_lookup.
Qed.

End Policy.

Section PolicyContract.
Context `{libm : Libm} `{otf.Collaborators}.

(** C1. On an array of standard deviations with at least one atom and no
    NaN entry, the maximum entry exists, and [is_std_in_bound] returns
    [(True, [])] if and only if that maximum is strictly below the
    threshold; otherwise it returns [(False, P)] with [P] the indices, in
    ascending order, of exactly the atoms whose own maximum over the three
    components is at or above the threshold.  The object is the same
    after the call. *)
Theorem is_std_in_bound_contract (o : otf.OTF) :
  stds (otf.structure o) <> [] ->
  no_nan (stds (otf.structure o)) ->
  (exists m, is_maximum m (entries (stds (otf.structure o)))) /\
  forall m, is_maximum m (entries (stds (otf.structure o))) ->
    if F64.ltb m threshold
    then otf.is_std_in_bound o = (Ok (true, []), o)
    else exists P,
      otf.is_std_in_bound o = (Ok (false, P), o) /\
      StronglySorted lt P /\
      forall i, i ∈ P <-> problem_atom (stds (otf.structure o)) i.
Proof.
  intros Hne Hn.
  destruct (np_nanmax_maximum _ Hne Hn) as (m0 & Hm0 & Hmax0).
  split; [by exists m0|]. intros m Hmax.
  pose proof (maximum_geb _ _ _ threshold Hmax Hmax0) as Hg.
  rewrite (ltb_negb_leb m threshold (maximum_not_nan _ _ Hmax) eq_refl).
  change (F64.leb threshold m) with (F64.geb m threshold). rewrite Hg.
  unfold otf.is_std_in_bound, otf.bind, otf.get, otf.lift, std_in_bound.
  rewrite Hm0. simpl. destruct (F64.geb m0 threshold); simpl; [|done].
  eexists. split; [reflexivity|]. split.
  - apply problem_loop_sorted; constructor.
  - intros i. by apply problem_loop_problem_atom.
Qed.

End PolicyContract.

(** The contract at work: the second atom of the test system is at 0.5. *)
Lemma is_std_in_bound_contract_witness :
  let o := sample.engine F64.zero F64.zero
             [sample.origin; V3 F64.zero F64.half F64.zero] in
  (exists m, is_maximum m (entries (stds (otf.structure o)))) /\
  forall m, is_maximum m (entries (stds (otf.structure o))) ->
    if F64.ltb m threshold
    then otf.is_std_in_bound o = (Ok (true, []), o)
    else exists P,
      otf.is_std_in_bound o = (Ok (false, P), o) /\
      StronglySorted lt P /\
      forall i, i ∈ P <-> problem_atom (stds (otf.structure o)) i.
Proof.
  intros o. apply is_std_in_bound_contract.
  - discriminate.
  - unfold no_nan. vm_compute. repeat constructor.
Defined.

(** ** Entries that are not numbers *)

Section NotANumber.
Context `{libm : Libm} `{otf.Collaborators}.

Lemma geb_nan_l (x t : float) : F64.is_nan x = true -> F64.geb x t = false.
Proof. destruct x; try discriminate. by destruct t. Qed.

Lemma np_fmax_geb (x y t : float) :
  F64.geb (np_fmax x y) t = F64.geb x t || F64.geb y t.
Proof.
  destruct (F64.is_nan y) eqn:Hy.
  { unfold np_fmax. rewrite Hy, orb_true_r, (geb_nan_l y t Hy).
    by rewrite orb_false_r. }
  destruct (F64.is_nan x) eqn:Hx.
  { unfold np_fmax. rewrite Hy, orb_false_r, (geb_nan_l x t Hx).
    replace (F64.geb x y) with false; [done|].
    destruct x; try discriminate. by destruct y. }
  destruct (np_fmax_spec x y Hx Hy) as (Hc & Hlx & Hly).
  unfold F64.geb in *. change SFleb with F64.leb in *.
  destruct (F64.leb t x) eqn:Ex, (F64.leb t y) eqn:Ey; simpl.
  - eauto using leb_trans.
  - eauto using leb_trans.
  - eauto using leb_trans.
  - destruct Hc as [-> | ->]; done.
Qed.

Lemma fold_fmax_geb (rest : list float) (x t : float) :
  F64.geb (fold_left np_fmax rest x) t =
  existsb (fun y => F64.geb y t) (x :: rest).
Proof.
  revert x. induction rest as [|y rest IH]; intros x; simpl.
  - by rewrite orb_false_r.
  - rewrite IH. simpl. by rewrite np_fmax_geb, orb_assoc.
Qed.

Lemma below_or_nan (x : float) :
  F64.geb x threshold = false <->
  F64.is_nan x = true \/ F64.ltb x threshold = true.
Proof.
  destruct (F64.is_nan x) eqn:Hx.
  - split; [by left|]. intros _. by apply geb_nan_l.
  - rewrite (ltb_negb_leb x threshold Hx eq_refl).
    change (F64.leb threshold x) with (F64.geb x threshold).
    destruct (F64.geb x threshold); simpl; split; auto.
    intros [?|?]; done.
Qed.

(** C2, as the code has it.  A NaN entry is left out of the bound check:
    on a non-empty array [is_std_in_bound] returns [True] exactly when
    every entry that is a number is strictly below the threshold, with an
    empty list of problem atoms, so an array of NaN only is within bound. *)
Theorem is_std_in_bound_skips_nan (o : otf.OTF) :
  stds (otf.structure o) <> [] ->
  exists b P,
    otf.is_std_in_bound o = (Ok (b, P), o) /\
    (b = true <->
     Forall (fun x => F64.is_nan x = true \/ F64.ltb x threshold = true)
       (entries (stds (otf.structure o)))) /\
    (b = true -> P = []) /\
    (Forall (fun x => F64.is_nan x = true)
       (entries (stds (otf.structure o))) -> b = true).
Proof.
  intros Hne. destruct (stds (otf.structure o)) as [|row a] eqn:Ea; [done|].
  unfold otf.is_std_in_bound, otf.bind, otf.get, otf.lift, std_in_bound.
  rewrite Ea. unfold np_nanmax.
  change (entries (row :: a)) with (c0 row :: c1 row :: c2 row :: entries a).
  cbn [reduce res_bind]. rewrite fold_fmax_geb.
  set (l := c0 row :: c1 row :: c2 row :: entries a).
  assert (Hex : existsb (fun y => F64.geb y threshold) l = false <->
                Forall (fun x => F64.is_nan x = true \/
                                 F64.ltb x threshold = true) l).
  { clearbody l. induction l as [|x l IH]; simpl.
    - split; [constructor|done].
    - rewrite orb_false_iff, IH, Forall_cons, below_or_nan. tauto. }
  destruct (existsb (fun y => F64.geb y threshold) l) eqn:E.
  - eexists false, _. split; [reflexivity|]. split; [|split].
    + split; [done|]. intros HF. by apply Hex in HF.
    + done.
    + intros HF. symmetry. apply Hex. eapply Forall_impl; [exact HF|].
      simpl. auto.
  - exists true, []. split; [reflexivity|]. split; [|done].
    split; [|done]. intros _. by apply Hex.
Qed.

End NotANumber.

(** The two-atom system with an array of NaN only. *)
Lemma is_std_in_bound_skips_nan_witness :
  let o := sample.engine F64.zero F64.zero
             [V3 S754_nan S754_nan S754_nan; V3 S754_nan S754_nan S754_nan] in
  exists b P,
    otf.is_std_in_bound o = (Ok (b, P), o) /\
    (b = true <->
     Forall (fun x => F64.is_nan x = true \/ F64.ltb x threshold = true)
       (entries (stds (otf.structure o)))) /\
    (b = true -> P = []) /\
    (Forall (fun x => F64.is_nan x = true)
       (entries (stds (otf.structure o))) -> b = true).
Proof. intros o. apply is_std_in_bound_skips_nan. discriminate. Defined.

(** C2, as the claim has it, fails: with a NaN in the row of the first atom
    and zeros elsewhere the call returns [(True, [])], neither [False] nor a
    list with that atom. *)
Lemma nan_entry_within_bound :
  let o := sample.engine F64.zero F64.zero
             [V3 S754_nan F64.zero F64.zero; sample.origin] in
  F64.is_nan (c0 (V3 S754_nan F64.zero F64.zero)) = true /\
  otf.is_std_in_bound o = (Ok (true, []), o) /\
  ~ (exists P, otf.is_std_in_bound o = (Ok (false, P), o) /\ 0%nat ∈ P).
Proof.
  intros o. split; [reflexivity|]. split; [reflexivity|].
  intros (P & HP & _). discriminate HP.
Qed.

(** ** Outcomes *)

Lemma res_bind_Ok {A B} (r : res A) (k : A -> res B) (b : B) :
  res_bind r k = Ok b -> exists a, r = Ok a /\ k a = Ok b.
Proof. destruct r; simpl; [eauto|discriminate]. Qed.

(** Take a chain of [res_bind] that came out [Ok] apart. *)
Ltac res_inv :=
  repeat match goal with
  | H : res_bind _ _ = Ok _ |- _ =>
      let a := fresh "a" in let E := fresh "E" in
      apply res_bind_Ok in H as (a & E & H)
  | H : Ok _ = Ok _ |- _ => injection H as H; subst
  | H : Raise _ = Ok _ |- _ => discriminate H
  end.

Lemma py_index_Ok {A} (l : list A) (i : nat) (x : A) :
  py_index l i = Ok x <-> l !! i = Some x.
Proof.
  unfold py_index. destruct (l !! i); split; intros E; by inversion E.
Qed.

Lemma py_getitem_Ok {A} (d : gmap string A) (k : string) (x : A) :
  py_getitem d k = Ok x <-> d !! k = Some x.
Proof.
  unfold py_getitem. destruct (d !! k); split; intros E; by inversion E.
Qed.

(** ** The input parser of [pyscf_util] *)

(** C9, as the code has it.  Whatever the file holds, [parse_dft_input]
    fails, and with the diagnostic of the cell: the loop over the lines only
    sets [cell_index] back to [None], so the first assertion never holds and
    the other two are never reached. *)
Theorem parse_dft_input_always_fails (lines : list string) :
  pyscf_util.parse_dft_input lines =
  Raise (AssertionError "Failed to find cell in input file").
Proof.
  unfold pyscf_util.parse_dft_input.
  assert (E : forall (l : list (nat * string)) acc,
             acc = None ->
             fold_left (fun (_ : option nat) _ => None) l acc = None).
  { induction l as [|x l IH]; intros acc ->; simpl; auto. }
  rewrite E; [|done]. reflexivity.
Qed.

(** A file with an atom count, a cell and positions fails like any other. *)
Example parse_dft_input_complete_file :
  pyscf_util.parse_dft_input
    ["nat 1"; "cell"; "1 0 0"; "0 1 0"; "0 0 1"; "positions"; "H 0 0 0"]%string
  = Raise (AssertionError "Failed to find cell in input file").
Proof. reflexivity. Qed.

(** ** The kinetics of [md] *)

Section Kinetics.

Lemma div_by_zero_not_finite (x : float) :
  F64.is_finite (F64.div x F64.zero) = false.
Proof. by destruct x as [[]|[]| |[] ? ?]. Qed.

Lemma add_term_spec (KE : md.number) (mass v : float) :
  fresh_or_float KE ->
  md.add_term KE mass v =
  Ok (md.Float (F64.add (as_float KE)
                  (F64.mul (F64.mul (F64.mul F64.half mass) v) v))).
Proof. intros [-> | [k ->]]; reflexivity. Qed.

Lemma ke_components_spec (s : Structure) (vel : list vec3) (i : nat)
    (KE : md.number) (mass : float) (row : vec3) :
  fresh_or_float KE ->
  mass_of s i = Some mass -> vel !! i = Some row ->
  md.ke_components s vel i (seq 0 3) KE =
  Ok (md.Float (fold_left F64.add (kinetic_terms mass row) (as_float KE))).
Proof.
  intros HK Hm Hr. unfold mass_of in Hm.
  destruct (species s !! i) as [label|] eqn:El; [|done]. simpl in Hm.
  assert (Hl : py_index (md.species_labels s) i = Ok label)
    by by apply py_index_Ok.
  assert (Hd : py_getitem (mass_dict s) label = Ok mass)
    by by apply py_getitem_Ok.
  assert (Hv : py_index vel i = Ok row) by by apply py_index_Ok.
  simpl. rewrite Hl. simpl. rewrite Hd. simpl. rewrite Hv. simpl.
  rewrite (add_term_spec KE) by done. reflexivity.
Qed.

Lemma ke_atoms_spec (s : Structure) (vel : list vec3) :
  (forall i, (i < length vel)%nat -> is_Some (mass_of s i)) ->
  forall (n k : nat) (KE : md.number),
    fresh_or_float KE -> (k + n)%nat = length vel ->
    md.ke_atoms s vel (seq k n) KE =
    Ok (match n with
        | O => KE
        | S _ =>
            md.Float
              (fold_left F64.add
                 (concat
                    (imap (fun j v =>
                             kinetic_terms
                               (default F64.zero (mass_of s (k + j))) v)
                       (drop k vel)))
                 (as_float KE))
        end).
Proof.
  intros Hmass. induction n as [|n IH]; intros k KE HK Hlen; [done|].
  destruct (Hmass k) as [mass Hm]; [lia|].
  destruct (lookup_lt_is_Some_2 vel k) as [row Hr]; [lia|].
  change (seq k (S n)) with (k :: seq (S k) n). cbn [md.ke_atoms].
  rewrite (ke_components_spec s vel k KE mass row HK Hm Hr).
  cbn [res_bind]. rewrite IH; [|right; eauto|lia].
  rewrite (drop_S _ _ _ Hr), imap_cons. cbn [concat].
  rewrite Nat.add_0_r, Hm. cbn [default].
  destruct n as [|n].
  - assert (Hd : drop (S k) vel = []) by (apply drop_ge; lia).
    rewrite Hd, imap_nil. cbn [concat]. by rewrite app_nil_r.
  - rewrite fold_left_app. cbn [as_float]. do 2 f_equal.
    change (id mass) with mass.
    replace (imap ((fun j v => kinetic_terms
                      (default F64.zero (mass_of s (k + j))) v) ∘ S)
               (drop (S k) vel))
      with (imap (fun j v => kinetic_terms
                    (default F64.zero (mass_of s (S k + j))) v)
              (drop (S k) vel)); [done|].
    apply imap_ext. intros j v _. cbn.
    by replace (k + S j)%nat with (S (k + j))%nat by lia.
Qed.

Lemma ke_components_keeps_Float (s : Structure) (vel : list vec3) (i : nat)
    (js : list nat) :
  forall (k : float) (KE' : md.number),
    md.ke_components s vel i js (md.Float k) = Ok KE' ->
    exists k', KE' = md.Float k'.
Proof.
  induction js as [|j js IH]; intros k KE' HK; cbn [md.ke_components] in HK.
  - res_inv. eauto.
  - repeat match type of HK with
           | res_bind ?r _ = _ =>
               destruct r; cbn [res_bind md.add_term] in HK;
               [|discriminate HK]
           end.
    by eapply IH.
Qed.

Lemma ke_components_Float (s : Structure) (vel : list vec3) (i j : nat)
    (js : list nat) (KE KE' : md.number) :
  md.ke_components s vel i (j :: js) KE = Ok KE' ->
  exists k, KE' = md.Float k.
Proof.
  intros HK. cbn [md.ke_components] in HK.
  repeat match type of HK with
         | res_bind (md.add_term _ _ _) _ = _ => fail 1
         | res_bind ?r _ = _ =>
             destruct r; cbn [res_bind] in HK; [|discriminate HK]
         end.
  unfold md.add_term in HK. destruct KE as [n|k].
  - destruct (md.float_of_int n); cbn [res_bind] in HK; [|discriminate HK].
    by eapply ke_components_keeps_Float.
  - cbn [res_bind] in HK. by eapply ke_components_keeps_Float.
Qed.

Lemma np_subtract_same_length (sa sb : md.shape0) (a b : list vec3) :
  a <> [] -> length a = length b ->
  md.np_subtract sa sb a b = Ok (zip_with (vmap2 F64.sub) a b).
Proof.
  intros Ha E. unfold md.np_subtract.
  destruct a as [|x a]; [done|]. destruct b as [|y b]; [discriminate E|].
  cbn [md.flat xorb]. by rewrite decide_True.
Qed.

(** What [calculate_temperature] returns on arrays of one length, in one
    piece. *)
Lemma calculate_temperature_returns (sh_new sh_prev : md.shape0)
    (new_pos : list vec3) (s : Structure) (dt dof : float) (noa : Z) :
  new_pos <> [] ->
  length (positions s) = length new_pos ->
  length (prev_positions s) = length new_pos ->
  has_masses s ->
  md.float_of_int (3 * noa - 3) = Ok dof ->
  let vel := map (vmap (fun x => F64.div x (F64.mul F64.two dt)))
               (zip_with (vmap2 F64.sub) new_pos (prev_positions s)) in
  md.calculate_temperature sh_new sh_prev new_pos s dt noa =
  Ok (md.Float (kinetic_sum s vel),
      F64.div (F64.mul F64.two (kinetic_sum s vel)) (F64.mul dof md.kb),
      vel).
Proof.
  intros Hne Hpos Hprev Hmass Hdof vel.
  assert (Hlen : length vel = length new_pos).
  { unfold vel. rewrite length_map, length_zip_with. lia. }
  unfold md.calculate_temperature.
  rewrite np_subtract_same_length by (done || lia). cbn [res_bind].
  fold vel.
  rewrite (ke_atoms_spec s vel); [|intros i Hi; apply Hmass; lia
                                  |by left|lia].
  rewrite Hpos, <- Hlen. destruct vel as [|v0 vel'] eqn:Ev.
  { destruct new_pos; [done|discriminate Hlen]. }
  cbn [res_bind length]. rewrite Hdof. cbn [res_bind md.two_KE_over].
  reflexivity.
Qed.

(** C8. For arrays of one length with at least one atom, masses for all
    labels and [noa] the number of atoms, [calculate_temperature] returns
    the central differences [(new_pos - prev_positions) / (2 * dt)] as
    velocities, the sum over atoms and components of
    [0.5 * mass * v * v] as kinetic energy, and
    [2 * KE / ((3 * noa - 3) * kb)] as temperature, with
    [kb = 0.0000861733034].  The structure is an argument only: the
    function has no other result than this triple. *)
Theorem calculate_temperature_spec (sh_new sh_prev : md.shape0)
    (new_pos : list vec3) (s : Structure) (dt dof : float) (noa : Z) :
  new_pos <> [] ->
  length (positions s) = length new_pos ->
  length (prev_positions s) = length new_pos ->
  has_masses s ->
  noa = Z.of_nat (length (positions s)) ->
  md.float_of_int (3 * noa - 3) = Ok dof ->
  exists KE temperature velocities,
    md.calculate_temperature sh_new sh_prev new_pos s dt noa =
      Ok (md.Float KE, temperature, velocities) /\
    length velocities = length new_pos /\
    (forall i n p,
       new_pos !! i = Some n -> prev_positions s !! i = Some p ->
       velocities !! i =
       Some (vmap (fun x => F64.div x (F64.mul F64.two dt))
               (vmap2 F64.sub n p))) /\
    KE = kinetic_sum s velocities /\
    temperature = F64.div (F64.mul F64.two KE) (F64.mul dof md.kb) /\
    md.kb = F64.decimal 861733034 (10 ^ 13).
Proof.
  intros Hne Hpos Hprev Hmass Hnoa Hdof.
  pose proof (calculate_temperature_returns sh_new sh_prev new_pos s dt dof
                noa Hne Hpos Hprev Hmass Hdof) as Hret.
  cbv zeta in Hret.
  set (vel := map (vmap (fun x => F64.div x (F64.mul F64.two dt)))
                (zip_with (vmap2 F64.sub) new_pos (prev_positions s))) in *.
  exists (kinetic_sum s vel),
    (F64.div (F64.mul F64.two (kinetic_sum s vel)) (F64.mul dof md.kb)), vel.
  split; [exact Hret|]. split; [|split; [|split; [done|split; [done|]]]].
  - unfold vel. rewrite length_map, length_zip_with. lia.
  - intros i n p Hn Hp. unfold vel.
    rewrite list_lookup_fmap, lookup_zip_with, Hn. cbn. by rewrite Hp.
  - by vm_compute.
Qed.

(** C10. With one atom and [noa = 1] the temperature is [2 * KE] over
    [(3 * 1 - 3) * kb], a zero: whenever [calculate_temperature] returns,
    the temperature it returns is an infinity or a NaN, and on a
    well-formed one-atom structure it does return, with the kinetic
    energy and the velocities computed as for any other. *)
Theorem one_atom_temperature_not_finite (sh_new sh_prev : md.shape0)
    (new_pos : list vec3) (s : Structure) (dt : float) :
  length (positions s) = 1%nat ->
  (forall KE temperature velocities,
     md.calculate_temperature sh_new sh_prev new_pos s dt 1 =
       Ok (KE, temperature, velocities) ->
     F64.is_finite temperature = false) /\
  (length new_pos = 1%nat -> length (prev_positions s) = 1%nat ->
   has_masses s ->
   exists KE temperature velocities,
     md.calculate_temperature sh_new sh_prev new_pos s dt 1 =
       Ok (md.Float KE, temperature, velocities) /\
     temperature = F64.div (F64.mul F64.two KE) F64.zero /\
     F64.is_finite temperature = false /\
     KE = kinetic_sum s velocities /\
     length velocities = 1%nat).
Proof.
  intros Hone. split.
  - intros KE T vel Hc. unfold md.calculate_temperature in Hc.
    rewrite Hone in Hc. res_inv.
    change (seq 0 1) with [0%nat] in E0. cbn [md.ke_atoms] in E0. res_inv.
    change (seq 0 3) with [0; 1; 2]%nat in E3.
    apply ke_components_Float in E3 as [k ->].
    vm_compute in E1. res_inv. cbn [md.two_KE_over] in E2. res_inv.
    change (F64.mul (S754_zero false) md.kb) with F64.zero.
    apply div_by_zero_not_finite.
  - intros Hn Hp Hmass.
    pose proof (calculate_temperature_returns sh_new sh_prev new_pos s dt
                  F64.zero 1) as Hret.
    cbv zeta in Hret.
    set (vel := map (vmap (fun x => F64.div x (F64.mul F64.two dt)))
                  (zip_with (vmap2 F64.sub) new_pos (prev_positions s))) in *.
    exists (kinetic_sum s vel),
      (F64.div (F64.mul F64.two (kinetic_sum s vel)) F64.zero), vel.
    split; [|split; [done|split; [|split; [done|]]]].
    + apply Hret; [by destruct new_pos|lia|lia|done|reflexivity].
    + apply div_by_zero_not_finite.
    + unfold vel. rewrite length_map, length_zip_with. lia.
Qed.

End Kinetics.

(** The kinetics of the two atoms of the sample, a step after they were
    0.01 further down. *)
Lemma calculate_temperature_spec_witness :
  let s := sample.molecule [] in
  let new_pos := [V3 F64.zero F64.zero (F64.decimal 1 100);
                  V3 F64.zero F64.zero (F64.decimal 75 100)] in
  let dt := F64.decimal 1 10000 in
  exists KE temperature velocities,
    md.calculate_temperature md.Shape_0_3 md.Shape_0 new_pos s dt 2 =
      Ok (md.Float KE, temperature, velocities) /\
    length velocities = length new_pos /\
    (forall i n p,
       new_pos !! i = Some n -> prev_positions s !! i = Some p ->
       velocities !! i =
       Some (vmap (fun x => F64.div x (F64.mul F64.two dt))
               (vmap2 F64.sub n p))) /\
    KE = kinetic_sum s velocities /\
    temperature = F64.div (F64.mul F64.two KE)
                    (F64.mul (F64.of_Z 3) md.kb) /\
    md.kb = F64.decimal 861733034 (10 ^ 13).
Proof.
  intros s new_pos dt.
  apply (calculate_temperature_spec md.Shape_0_3 md.Shape_0 new_pos s dt
           (F64.of_Z 3) 2).
  - discriminate.
  - reflexivity.
  - reflexivity.
  - intros i Hi. vm_compute in Hi.
    destruct i as [|[|i]]; [by eexists|by eexists|lia].
  - reflexivity.
  - reflexivity.
Defined.

(** The lone atom of the sample. *)
Lemma one_atom_temperature_not_finite_witness :
  let s := sample.lone_atom in
  let new_pos := [sample.origin] in
  let dt := F64.decimal 1 10000 in
  (forall KE temperature velocities,
     md.calculate_temperature md.Shape_0_3 md.Shape_0 new_pos s dt 1 =
       Ok (KE, temperature, velocities) ->
     F64.is_finite temperature = false) /\
  (exists KE temperature velocities,
     md.calculate_temperature md.Shape_0_3 md.Shape_0 new_pos s dt 1 =
       Ok (md.Float KE, temperature, velocities) /\
     temperature = F64.div (F64.mul F64.two KE) F64.zero /\
     F64.is_finite temperature = false /\
     KE = kinetic_sum s velocities /\
     length velocities = 1%nat).
Proof.
  intros s new_pos dt.
  destruct (one_atom_temperature_not_finite md.Shape_0_3 md.Shape_0
              new_pos s dt) as [Hall Hsome].
  - reflexivity.
  - split; [exact Hall|]. apply Hsome.
    + reflexivity.
    + reflexivity.
    + intros i Hi. vm_compute in Hi. destruct i as [|i]; [by eexists|lia].
Defined.

(** ** Doubling and taking away, exactly *)

Section AtRest.

Lemma shr52 (m : positive) :
  SpecFloat.iter_pos shr_1 52
    (Build_shr_record (Zpos (4503599627370496 * m)) false false) =
  Build_shr_record (Zpos m) false false.
Proof. reflexivity. Qed.

Lemma shr51 (m : positive) :
  SpecFloat.iter_pos shr_1 51
    (Build_shr_record (Zpos (4503599627370496 * m)) false false) =
  Build_shr_record (Zpos m~0) false false.
Proof. reflexivity. Qed.

Lemma digits_shifted (m : positive) :
  Zpos (digits2_pos (4503599627370496 * m)) = Zpos (digits2_pos m) + 52.
Proof.
  change (4503599627370496 * m)%positive with (Pos.iter xO m 52).
  cbv [Pos.iter]. cbn [digits2_pos]. rewrite !Pos2Z.inj_succ. lia.
Qed.

Lemma fexp_binary64 (x : Z) : fexp 53 1024 x = Z.max (x - 53) (-1074).
Proof. reflexivity. Qed.

(** Twice a float: one more in the exponent of a normal number, one more
    bit in the mantissa of a subnormal one. *)
Lemma mul_two_finite (s : bool) (m : positive) (e : Z) :
  bounded 53 1024 m e = true ->
  F64.mul F64.two (S754_finite s m e) =
  if Zpos (digits2_pos m) =? 53 then
    if e + 1 <=? 971 then S754_finite s m (e + 1) else S754_infinity s
  else S754_finite s m~0 e.
Proof.
  unfold bounded, canonical_mantissa. rewrite fexp_binary64.
  intros Hb. apply andb_true_iff in Hb as [Hc He].
  apply Z.eqb_eq in Hc. apply Z.leb_le in He.
  unfold F64.mul, F64.two, SFmul. cbn [xorb].
  unfold binary_round_aux, shr_fexp.
  unfold Zdigits2 at 1. rewrite digits_shifted, fexp_binary64.
  destruct (Z.eqb_spec (Zpos (digits2_pos m)) 53) as [Hd|Hd].
  - rewrite Hd in *.
    replace (Z.max (53 + 52 + (-51 + e) - 53) (-1074) - (-51 + e))
      with 52 by lia.
    unfold shr at 1. cbn [shr_record_of_loc]. rewrite shr52.
    cbn [shr_m loc_of_shr_record round_nearest_even Zdigits2].
    rewrite Hd, fexp_binary64.
    replace (Z.max (53 + (-51 + e + 52) - 53) (-1074) - (-51 + e + 52))
      with 0 by lia.
    cbn [shr shr_record_of_loc shr_m].
    replace (-51 + e + 52) with (e + 1) by lia. reflexivity.
  - assert (e = -1074 /\ Zpos (digits2_pos m) <= 52) as [-> Hd'] by lia.
    replace (Z.max (Zpos (digits2_pos m) + 52 + (-51 + -1074) - 53) (-1074)
             - (-51 + -1074)) with 51 by lia.
    unfold shr at 1. cbn [shr_record_of_loc]. rewrite shr51.
    cbn [shr_m loc_of_shr_record round_nearest_even Zdigits2 digits2_pos].
    rewrite Pos2Z.inj_succ, fexp_binary64.
    replace (Z.max (Z.succ (Zpos (digits2_pos m)) + (-51 + -1074 + 51) - 53)
               (-1074) - (-51 + -1074 + 51)) with 0 by lia.
    cbn [shr shr_record_of_loc shr_m]. reflexivity.
Qed.

(** Rounding a float gives the float. *)
Lemma binary_round_canonical (s : bool) (m : positive) (e : Z) :
  bounded 53 1024 m e = true ->
  binary_round 53 1024 s m e = S754_finite s m e.
Proof.
  unfold bounded, canonical_mantissa.
  intros Hb. apply andb_true_iff in Hb as [Hc He].
  apply Z.eqb_eq in Hc.
  unfold binary_round. rewrite Hc. unfold shl_align. rewrite Z.sub_diag.
  unfold binary_round_aux, shr_fexp. cbn [Zdigits2]. rewrite Hc, Z.sub_diag.
  cbn [shr shr_record_of_loc shr_m loc_of_shr_record round_nearest_even
       Zdigits2].
  rewrite Hc, Z.sub_diag. cbn [shr shr_record_of_loc shr_m]. by rewrite He.
Qed.

Lemma sub_double_normal (s : bool) (m : positive) (e : Z) :
  bounded 53 1024 m e = true ->
  F64.sub (S754_finite s m (e + 1)) (S754_finite s m e) = S754_finite s m e.
Proof.
  intros Hb. unfold F64.sub, SFsub.
  replace (Z.min (e + 1) e) with e by lia.
  unfold shl_align. rewrite Z.sub_diag.
  replace (e - (e + 1)) with (-1) by lia. cbn [fst Pos.iter].
  replace (cond_Zopp s (Zpos m~0) - cond_Zopp s (Zpos m))
    with (cond_Zopp s (Zpos m)) by (destruct s; cbn [cond_Zopp]; lia).
  destruct s; cbn [cond_Zopp Z.opp binary_normalize];
    by apply binary_round_canonical.
Qed.

Lemma sub_double_subnormal (s : bool) (m : positive) (e : Z) :
  bounded 53 1024 m e = true ->
  F64.sub (S754_finite s m~0 e) (S754_finite s m e) = S754_finite s m e.
Proof.
  intros Hb. unfold F64.sub, SFsub. rewrite Z.min_id.
  unfold shl_align. rewrite Z.sub_diag. cbn [fst].
  replace (cond_Zopp s (Zpos m~0) - cond_Zopp s (Zpos m))
    with (cond_Zopp s (Zpos m)) by (destruct s; cbn [cond_Zopp]; lia).
  destruct s; cbn [cond_Zopp Z.opp binary_normalize];
    by apply binary_round_canonical.
Qed.

(** [2 * p - p] is [p]. *)
Lemma double_minus_self (s : bool) (m : positive) (e : Z) :
  coordinate (S754_finite s m e) ->
  F64.sub (F64.mul F64.two (S754_finite s m e)) (S754_finite s m e) =
  S754_finite s m e.
Proof.
  intros (Hv & _ & Hfin). change (bounded 53 1024 m e = true) in Hv.
  rewrite (mul_two_finite s m e Hv) in *.
  destruct (Zpos (digits2_pos m) =? 53).
  - destruct (e + 1 <=? 971); [|discriminate Hfin].
    by apply sub_double_normal.
  - by apply sub_double_subnormal.
Qed.

(** One step at rest: from two values that are [p], with a zero added, to
    a value that is [p]. *)
Lemma rest_step (a b p z : float) :
  coordinate p -> unchanged a p -> unchanged b p -> F64.is_zero z = true ->
  unchanged (F64.add (F64.sub (F64.mul F64.two a) b) z) p.
Proof.
  intros Hp Ha Hb Hz. destruct z as [sz| | |]; try discriminate Hz.
  destruct p as [sp|sp| |sp m e].
  - destruct Ha as [-> | [Ha _]], Hb as [-> | [Hb _]];
      try (destruct a; try discriminate Ha);
      try (destruct b; try discriminate Hb);
      right; split; try reflexivity;
      repeat match goal with s : bool |- _ => destruct s end; reflexivity.
  - by destruct Hp as (_ & Hf & _).
  - by destruct Hp as (_ & Hf & _).
  - destruct Ha as [-> | [_ ?]]; [|done].
    destruct Hb as [-> | [_ ?]]; [|done].
    rewrite (double_minus_self sp m e Hp). by left.
Qed.

Lemma rest_step3 (a b p z : vec3) :
  coordinates p -> unchanged3 a p -> unchanged3 b p -> zero3 z ->
  unchanged3
    (vmap2 F64.add (vmap2 F64.sub (vmap (F64.mul F64.two) a) b) z) p.
Proof.
  intros (H0 & H1 & H2) (A0 & A1 & A2) (B0 & B1 & B2) (Z0 & Z1 & Z2).
  repeat split; cbn; by apply rest_step.
Qed.

(** A zero force moves nothing: [dtdt * 0 / mass] is a zero. *)
Lemma zero_force_term (dtdt mass : float) (frc : vec3) :
  F64.is_finite dtdt = true -> divisor mass -> zero3 frc ->
  zero3 (vmap (fun x => F64.div x mass) (vmap (F64.mul dtdt) frc)).
Proof.
  intros Hd [Hn Hz] (F0 & F1 & F2).
  assert (Hone : forall f, F64.is_zero f = true ->
                   F64.is_zero (F64.div (F64.mul dtdt f) mass) = true).
  { intros f Hf. destruct f; try discriminate Hf.
    destruct dtdt; try discriminate Hd;
      destruct mass; try discriminate Hn; try discriminate Hz; reflexivity. }
  repeat split; cbn; by apply Hone.
Qed.

Lemma unchanged_refl (x : float) : unchanged x x.
Proof. by left. Qed.

Lemma unchanged3_refl (v : vec3) : unchanged3 v v.
Proof. repeat split; apply unchanged_refl. Qed.

(** [unchanged] is what [==] says of a number. *)
Lemma unchanged_eqb (x y : float) :
  F64.is_nan y = false -> unchanged x y -> F64.eqb x y = true.
Proof.
  intros Hy [-> | [Hx Hz]].
  - destruct y as [|[]| |[] m e]; try discriminate Hy; try reflexivity;
      unfold F64.eqb, SFeqb; cbn; rewrite Z.compare_refl, compare_cont_eq;
      by rewrite Pos.compare_refl.
  - destruct x; try discriminate Hx. by destruct y.
Qed.

End AtRest.

(** ** The integrator *)

Section Integrator.
Context `{libm : Libm} `{otf.Collaborators}.

Lemma moved_id (o : otf.OTF) :
  moved o (positions (otf.structure o))
    (prev_positions (otf.structure o)) = o.
Proof. destruct o as [? ? ? ? ? ? [] ? ? ? ?]; reflexivity. Qed.

Lemma update_row_step (o : otf.OTF) (dtdt : float) (k : nat)
    (P Q : list vec3) :
  let s := otf.structure o in
  length (prev_positions s) = length (positions s) ->
  length (forces s) = length (positions s) ->
  has_masses s ->
  (k < length (positions s))%nat ->
  updated_below s dtdt k P Q ->
  exists P' Q',
    otf.update_row dtdt k (moved o P Q) = (Ok tt, moved o P' Q') /\
    updated_below s dtdt (S k) P' Q'.
Proof.
  intros s Hprev Hfrc Hmass Hk (HlP & HlQ & Hge & Hlt & Hnew).
  destruct (Hge k) as [HPk HQk]; [lia|].
  destruct (lookup_lt_is_Some_2 (positions s) k) as [pos Hpos]; [lia|].
  destruct (lookup_lt_is_Some_2 (prev_positions s) k) as [pre Hpre]; [lia|].
  destruct (lookup_lt_is_Some_2 (forces s) k) as [frc Hf]; [lia|].
  destruct (Hmass k Hk) as [mass Hm].
  pose proof Hm as Hm'. unfold mass_of in Hm'.
  destruct (species s !! k) as [label|] eqn:El; [|done]. simpl in Hm'.
  exists (<[k := md.verlet dtdt mass pos pre frc]> P), (<[k := pos]> Q).
  split.
  - unfold otf.update_row, otf.bind, otf.get, otf.lift, otf.modify, moved.
    cbn. fold s. unfold py_index, py_getitem.
    rewrite HQk, Hpre, HPk, Hpos, El, Hm', Hf. reflexivity.
  - unfold updated_below. rewrite !length_insert.
    split; [done|]. split; [done|]. split; [|split].
    + intros i Hi. rewrite !list_lookup_insert_ne by lia. apply Hge. lia.
    + intros i Hi. destruct (decide (i = k)) as [-> | Hne].
      * rewrite list_lookup_insert_eq by lia. done.
      * rewrite list_lookup_insert_ne by lia. apply Hlt. lia.
    + intros i pos' pre' frc' mass' Hi Hp1 Hp2 Hp3 Hp4.
      destruct (decide (i = k)) as [-> | Hne].
      * rewrite list_lookup_insert_eq by lia. congruence.
      * rewrite list_lookup_insert_ne by lia. apply Hnew; [lia|done..].
Qed.

Lemma update_loop_spec (o : otf.OTF) (dtdt : float) :
  let s := otf.structure o in
  length (prev_positions s) = length (positions s) ->
  length (forces s) = length (positions s) ->
  has_masses s ->
  forall (n k : nat) (P Q : list vec3),
    (k + n)%nat = length (positions s) ->
    updated_below s dtdt k P Q ->
    exists P' Q',
      otf.for_ (seq k n) (otf.update_row dtdt) (moved o P Q) =
        (Ok tt, moved o P' Q') /\
      updated_below s dtdt (k + n) P' Q'.
Proof.
  intros s Hprev Hfrc Hmass. induction n as [|n IH]; intros k P Q Hlen Hinv.
  - exists P, Q. rewrite Nat.add_0_r. done.
  - destruct (update_row_step o dtdt k P Q) as (P1 & Q1 & Hstep & Hinv1);
      [done..|fold s; lia|done|].
    destruct (IH (S k) P1 Q1) as (P' & Q' & Hrest & Hinv'); [lia|done|].
    exists P', Q'. split.
    + cbn [seq otf.for_]. unfold otf.bind at 1. by rewrite Hstep.
    + by replace (k + S n)%nat with (S k + n)%nat by lia.
Qed.

(** What the C library returns for an ordinary time step is what
    [dt ** 2] evaluates to. *)
Lemma squares_to_py_sq (dt dtdt : float) :
  squares_to dt dtdt -> py_sq dt = Ok dtdt.
Proof.
  intros ((Hfin & Hz & Hone) & Hpow & Hinf). unfold py_sq.
  destruct dt as [?|?| |? ? ?]; try discriminate Hfin; try discriminate Hz.
  cbn [F64.is_nan F64.is_infinity F64.is_zero].
  rewrite Hone, Hpow. by rewrite Hinf.
Qed.

(** What [update_positions] of the engine does to a well-formed
    structure, in one piece. *)
Lemma update_positions_moves (o : otf.OTF) (dtdt : float) :
  let s := otf.structure o in
  length (prev_positions s) = length (positions s) ->
  length (forces s) = length (positions s) ->
  has_masses s ->
  py_sq (otf.dt o) = Ok dtdt ->
  exists P,
    otf.update_positions o = (Ok tt, moved o P (positions s)) /\
    updated_below s dtdt (length (positions s)) P (positions s).
Proof.
  intros s Hprev Hfrc Hmass Hsq.
  destruct (update_loop_spec o dtdt Hprev Hfrc Hmass
              (length (positions s)) 0%nat
              (positions s) (prev_positions s))
    as (P & Q & Hrun & Hinv); [done| |].
  { split; [done|]. split; [done|]. split; [done|]. split; intros; lia. }
  subst s. rewrite moved_id in Hrun. cbn [Nat.add] in Hinv.
  assert (HQ : Q = positions (otf.structure o)).
  { destruct Hinv as (_ & HlQ & _ & Hlt & _). apply list_eq. intros i.
    destruct (decide (i < length (positions (otf.structure o)))%nat)
      as [Hi|Hi].
    - by apply Hlt.
    - rewrite !lookup_ge_None_2; [done|lia|lia]. }
  subst Q. exists P. split; [|done].
  unfold otf.update_positions, otf.bind, otf.get, otf.lift.
  rewrite Hsq, Hprev. exact Hrun.
Qed.

(** The loop of [update_positions] of [md], atom by atom. *)
Lemma md_update_loop_spec (s : Structure) (dtdt : float) :
  length (prev_positions s) = length (positions s) ->
  length (forces s) = length (positions s) ->
  has_masses s ->
  forall (n k : nat) (new_pos : list vec3),
    (k + n)%nat = length (positions s) ->
    length new_pos = length (positions s) ->
    exists new_pos',
      md.update_loop dtdt s (seq k n) new_pos = Ok new_pos' /\
      length new_pos' = length (positions s) /\
      (forall i, (i < k)%nat -> new_pos' !! i = new_pos !! i) /\
      (forall i pos pre frc mass, (k <= i)%nat ->
         positions s !! i = Some pos -> prev_positions s !! i = Some pre ->
         forces s !! i = Some frc -> mass_of s i = Some mass ->
         new_pos' !! i = Some (md.verlet dtdt mass pos pre frc)).
Proof.
  intros Hprev Hfrc Hmass.
  induction n as [|n IH]; intros k new_pos Hlen Hnew.
  - exists new_pos. repeat split; try done.
    intros i pos pre frc mass Hi Hp. apply lookup_lt_Some in Hp. lia.
  - destruct (lookup_lt_is_Some_2 (positions s) k) as [pos Hpos]; [lia|].
    destruct (lookup_lt_is_Some_2 (prev_positions s) k) as [pre Hpre];
      [lia|].
    destruct (lookup_lt_is_Some_2 (forces s) k) as [frc Hf]; [lia|].
    destruct (Hmass k) as [mass Hm]; [lia|].
    pose proof Hm as Hm'. unfold mass_of in Hm'.
    destruct (species s !! k) as [label|] eqn:El; [|done]. simpl in Hm'.
    destruct (IH (S k) (<[k := md.verlet dtdt mass pos pre frc]> new_pos))
      as (np & Hrun & Hl & Hkeep & Hrest);
      [lia|by rewrite length_insert|].
    exists np. split; [|split; [done|split]].
    + change (seq k (S n)) with (k :: seq (S k) n). cbn [md.update_loop].
      unfold md.update_row, md.species_labels, py_index, py_getitem.
      rewrite Hpre, El. cbn [res_bind]. rewrite Hm', Hpos, Hf.
      cbn [res_bind]. rewrite decide_True by lia. exact Hrun.
    + intros i Hi. rewrite Hkeep by lia.
      by rewrite list_lookup_insert_ne by lia.
    + intros i pos' pre' frc' mass' Hi Hp1 Hp2 Hp3 Hp4.
      destruct (decide (i = k)) as [-> | Hne].
      * rewrite Hkeep by lia. rewrite list_lookup_insert_eq by lia.
        congruence.
      * apply Hrest; [lia|done..].
Qed.

(** [update_positions] of [md] builds the positions the loop of the
    engine ends with. *)
Lemma md_update_positions_agrees (s : Structure) (dt dtdt : float)
    (P Q : list vec3) :
  length (prev_positions s) = length (positions s) ->
  length (forces s) = length (positions s) ->
  has_masses s ->
  py_sq dt = Ok dtdt ->
  updated_below s dtdt (length (positions s)) P Q ->
  md.update_positions dt (Z.of_nat (length (positions s))) s = Ok P.
Proof.
  intros Hprev Hfrc Hmass Hsq (HlP & _ & _ & _ & Hnew).
  unfold md.update_positions, md.np_zeros. rewrite Hsq. cbn [res_bind].
  assert (Hz : (Z.of_nat (length (positions s)) <? 0) = false) by lia.
  rewrite Hz, Nat2Z.id. cbn [res_bind]. rewrite Hprev.
  destruct (md_update_loop_spec s dtdt Hprev Hfrc Hmass
              (length (positions s)) 0%nat
              (replicate (length (positions s))
                 (V3 F64.zero F64.zero F64.zero)))
    as (np & Hloop & Hl & _ & Hall); [done|by rewrite length_replicate|].
  rewrite Hloop. f_equal. apply list_eq. intros i.
  destruct (decide (i < length (positions s))%nat) as [Hi|Hi].
  - destruct (lookup_lt_is_Some_2 (positions s) i) as [pos Hpos]; [lia|].
    destruct (lookup_lt_is_Some_2 (prev_positions s) i) as [pre Hpre];
      [lia|].
    destruct (lookup_lt_is_Some_2 (forces s) i) as [frc Hf]; [lia|].
    destruct (Hmass i) as [mass Hm]; [lia|].
    rewrite (Hall i pos pre frc mass) by (done || lia).
    by rewrite (Hnew i pos pre frc mass).
  - rewrite !lookup_ge_None_2; [done|lia|lia].
Qed.

(** A step at rest: if positions and previous positions both are [p0],
    forces are zero and the numbers are in range, the new positions are
    [p0] again. *)
Lemma update_positions_rest (o : otf.OTF) (dtdt : float) (p0 : list vec3) :
  let s := otf.structure o in
  length (forces s) = length (positions s) ->
  has_masses s ->
  (forall i mass, mass_of s i = Some mass -> divisor mass) ->
  py_sq (otf.dt o) = Ok dtdt -> F64.is_finite dtdt = true ->
  Forall2 unchanged3 (positions s) p0 ->
  Forall2 unchanged3 (prev_positions s) p0 ->
  Forall zero3 (forces s) ->
  Forall coordinates p0 ->
  exists P,
    otf.update_positions o = (Ok tt, moved o P (positions s)) /\
    Forall2 unchanged3 P p0 /\
    md.update_positions (otf.dt o) (Z.of_nat (length (positions s))) s =
      Ok P.
Proof.
  intros s Hfrc Hmass Hdiv Hsq Hfin Hpos Hpre Hzero Hcoord. subst s.
  pose proof (Forall2_length _ _ _ Hpos) as Hl1.
  pose proof (Forall2_length _ _ _ Hpre) as Hl2.
  assert (Hprev : length (prev_positions (otf.structure o)) =
                  length (positions (otf.structure o))) by lia.
  destruct (update_positions_moves o dtdt Hprev Hfrc Hmass Hsq)
    as (P & Hrun & Hinv).
  exists P. split; [done|]. split.
  - destruct Hinv as (HlP & _ & _ & _ & Hnew).
    apply Forall2_same_length_lookup_2; [lia|].
    intros i new p Hnew_i Hp.
    destruct (lookup_lt_is_Some_2 (positions (otf.structure o)) i)
      as [pos Hposi]; [apply lookup_lt_Some in Hp; lia|].
    destruct (lookup_lt_is_Some_2 (prev_positions (otf.structure o)) i)
      as [pre Hprei]; [apply lookup_lt_Some in Hp; lia|].
    destruct (lookup_lt_is_Some_2 (forces (otf.structure o)) i)
      as [frc Hf]; [apply lookup_lt_Some in Hp; lia|].
    destruct (Hmass i) as [mass Hm]; [by eapply lookup_lt_Some|].
    rewrite (Hnew i pos pre frc mass) in Hnew_i;
      [|by eapply lookup_lt_Some|done..].
    injection Hnew_i as <-.
    rewrite Forall_lookup in Hzero, Hcoord.
    rewrite Forall2_lookup in Hpos, Hpre.
    specialize (Hpos i). specialize (Hpre i).
    rewrite Hposi, Hp in Hpos. rewrite Hprei, Hp in Hpre.
    inversion Hpos; inversion Hpre; subst.
    apply rest_step3; eauto using zero_force_term.
  - by eapply md_update_positions_agrees.
Qed.


(** C5, amended. With zero forces and previous positions equal to the
    positions, [update_positions] returns and leaves the position of every
    atom unchanged, for every time step [dt] for which [dt ** 2] returns a
    finite float, on a structure whose coordinates are finite and can be
    doubled and whose masses are non-zero numbers; so does
    [update_positions] of [md].  Unchanged is what [==] says, a zero
    staying a zero. *)
Theorem update_positions_at_rest (o : otf.OTF) :
  let s := otf.structure o in
  length (forces s) = length (positions s) ->
  has_masses s ->
  (forall i mass, mass_of s i = Some mass -> divisor mass) ->
  finite_square (otf.dt o) ->
  prev_positions s = positions s ->
  Forall zero3 (forces s) ->
  Forall coordinates (positions s) ->
  exists o',
    otf.update_positions o = (Ok tt, o') /\
    Forall2 unchanged3 (positions (otf.structure o')) (positions s) /\
    md.update_positions (otf.dt o) (Z.of_nat (length (positions s))) s =
      Ok (positions (otf.structure o')).
Proof.
  intros s Hfrc Hmass Hdiv (dtdt & Hsq & Hfin) Hprev Hzero Hcoord. subst s.
  destruct (update_positions_rest o dtdt (positions (otf.structure o)))
    as (P & Hrun & Hsame & Hmd); try done.
  - apply Forall2_same_length_lookup_2; [done|].
    intros i x y Hx Hy. rewrite Hx in Hy. injection Hy as <-.
    apply unchanged3_refl.
  - rewrite Hprev. apply Forall2_same_length_lookup_2; [done|].
    intros i x y Hx Hy. rewrite Hx in Hy. injection Hy as <-.
    apply unchanged3_refl.
  - exists (moved o P (positions (otf.structure o))). by repeat split.
Qed.

End Integrator.

Section SampleIntegrator.

#[local] Existing Instance sample.libm.


(** The engine of the sample, at rest, advanced by one step. *)
Lemma update_positions_at_rest_witness :
  let o := sample.engine F64.zero F64.zero [sample.origin; sample.origin] in
  let s := otf.structure o in
  py_sq (otf.dt o) = Ok (F64.decimal 1 (10 ^ 8)) /\
  exists o',
    otf.update_positions o = (Ok tt, o') /\
    Forall2 unchanged3 (positions (otf.structure o')) (positions s) /\
    md.update_positions (otf.dt o) (Z.of_nat (length (positions s))) s =
      Ok (positions (otf.structure o')).
Proof.
  intros o s. split; [reflexivity|].
  apply (update_positions_at_rest o).
  - reflexivity.
  - intros i Hi. vm_compute in Hi.
    destruct i as [|[|i]]; [by eexists|by eexists|lia].
  - intros i mass Hm. destruct i as [|[|i]]; vm_compute in Hm;
      try discriminate Hm; injection Hm as <-; by split.
  - by exists (F64.decimal 1 (10 ^ 8)).
  - reflexivity.
  - repeat constructor.
  - repeat constructor.
Defined.

(** C5, as the claim has it, fails: at rest is not enough, and not for
    every time step.  With an infinite time step [dt ** 2] is infinite,
    infinity times the zero force is a NaN, and every coordinate of the
    molecule of the sample comes out a NaN; with a time step of one, an
    atom at rest at 1e308 is moved to infinity, the double of its
    coordinate being out of range. *)
Lemma at_rest_positions_change :
  let nans := V3 S754_nan S754_nan S754_nan in
  let inf := S754_infinity false in
  let o1 := cases.stepping inf (sample.molecule []) in
  let o2 := cases.stepping F64.one cases.far in
  (Forall zero3 (forces (otf.structure o1)) /\
   prev_positions (otf.structure o1) = positions (otf.structure o1) /\
   exists o',
     otf.update_positions o1 = (Ok tt, o') /\
     positions (otf.structure o') = [nans; nans] /\
     ~ Forall2 unchanged3 (positions (otf.structure o'))
         (positions (otf.structure o1))) /\
  (Forall zero3 (forces (otf.structure o2)) /\
   prev_positions (otf.structure o2) = positions (otf.structure o2) /\
   exists o',
     otf.update_positions o2 = (Ok tt, o') /\
     positions (otf.structure o') = [V3 F64.zero F64.zero inf] /\
     ~ Forall2 unchanged3 (positions (otf.structure o'))
         (positions (otf.structure o2))).
Proof.
  intros nans inf o1 o2. split.
  - split; [repeat constructor|]. split; [reflexivity|].
    exists (snd (otf.update_positions o1)).
    split; [reflexivity|]. split; [reflexivity|].
    intros Hsame. apply Forall2_cons_1 in Hsame as [(Hx & _) _].
    destruct Hx as [Hx | [Hx _]]; discriminate Hx.
  - split; [repeat constructor|]. split; [reflexivity|].
    exists (snd (otf.update_positions o2)).
    split; [by vm_compute|]. split; [by vm_compute|].
    intros Hsame. apply Forall2_cons_1 in Hsame as [(_ & _ & Hz) _].
    vm_compute in Hz. destruct Hz as [Hz | [Hz _]]; discriminate Hz.
Qed.

End SampleIntegrator.

(** ** What the methods leave alone *)

Section Frame.
Context `{libm : Libm} `{otf.Collaborators}.

Lemma keeps_ret {X A} (f : otf.OTF -> X) (a : A) : keeps f (otf.ret a).
Proof. by intros o. Qed.

Lemma keeps_get {X} (f : otf.OTF -> X) : keeps f otf.get.
Proof. by intros o. Qed.

Lemma keeps_lift {X A} (f : otf.OTF -> X) (r : res A) : keeps f (otf.lift r).
Proof. by intros o. Qed.

Lemma keeps_modify {X} (f : otf.OTF -> X) (g : otf.OTF -> otf.OTF) :
  (forall o, f (g o) = f o) -> keeps f (otf.modify g).
Proof. intros Hg o. apply Hg. Qed.

Lemma keeps_bind {X A B} (f : otf.OTF -> X) (m : otf.M A)
    (k : A -> otf.M B) :
  keeps f m -> (forall a, keeps f (k a)) -> keeps f (otf.bind m k).
Proof.
  intros Hm Hk o. unfold otf.bind. specialize (Hm o).
  destruct (m o) as [[a|e] o1]; simpl in *; [|done].
  by rewrite Hk.
Qed.

Lemma keeps_for {X A} (f : otf.OTF -> X) (l : list A)
    (body : A -> otf.M unit) :
  (forall x, keeps f (body x)) -> keeps f (otf.for_ l body).
Proof.
  intros Hb. induction l as [|x l IH]; simpl.
  - apply keeps_ret.
  - apply keeps_bind; [apply Hb|]. intros _. apply IH.
Qed.

Lemma untouched_structure : untouched otf.structure.
Proof. by split. Qed.
Lemma setting_curr_step : setting otf.curr_step.
Proof. by repeat split. Qed.
Lemma setting_Nsteps : setting otf.Nsteps.
Proof. by repeat split. Qed.
Lemma setting_dt : setting otf.dt.
Proof. by repeat split. Qed.
Lemma setting_punchout_d : setting otf.punchout_d.
Proof. by repeat split. Qed.
Lemma setting_qe_input : setting otf.qe_input.
Proof. by repeat split. Qed.

Ltac frame_with Hu tac :=
  repeat first
    [ apply keeps_ret | apply keeps_get | apply keeps_lift
    | apply keeps_modify; intros;
      first [ apply (untouched_gp _ Hu) | apply (untouched_train _ Hu)
            | apply (untouched_out _ Hu) | apply (untouched_random _ Hu)
            | tac ]
    | apply keeps_for; intros
    | apply keeps_bind; [|intros]
    | match goal with
      | |- keeps _ (let '(_, _) := ?p in _) => destruct p
      | |- keeps _ (match ?x with _ => _ end) => destruct x
      end ].

Section Untouched.
Context {X : Type} (f : otf.OTF -> X) (Hu : untouched f).

Lemma keeps_write_to_output (e : otf.entry) :
  keeps f (otf.write_to_output e).
Proof. unfold otf.write_to_output. frame_with Hu fail. Qed.

Lemma keeps_is_std_in_bound : keeps f otf.is_std_in_bound.
Proof. unfold otf.is_std_in_bound. frame_with Hu fail. Qed.

Lemma keeps_write_config : keeps f otf.write_config.
Proof. unfold otf.write_config, otf.write_to_output. frame_with Hu fail. Qed.

Lemma keeps_randint (n : nat) : keeps f (otf.randint n).
Proof. unfold otf.randint. frame_with Hu fail. Qed.

Lemma keeps_choice (l : list nat) : keeps f (otf.choice l).
Proof. unfold otf.choice, otf.randint. frame_with Hu fail. Qed.

Lemma keeps_run_and_train (t : option nat) : keeps f (otf.run_and_train t).
Proof.
  unfold otf.run_and_train, otf.write_to_output, otf.randint.
  frame_with Hu fail.
Qed.
End Untouched.

Section Settings.
Context {X : Type} (f : otf.OTF -> X) (Hf : setting f).

Lemma keeps_predict_on_structure : keeps f otf.predict_on_structure.
Proof.
  unfold otf.predict_on_structure, otf.predict_component.
  frame_with (setting_untouched f Hf) ltac:(apply (setting_structure f Hf)).
Qed.

Lemma keeps_update_positions : keeps f otf.update_positions.
Proof.
  unfold otf.update_positions, otf.update_row.
  frame_with (setting_untouched f Hf) ltac:(apply (setting_structure f Hf)).
Qed.
End Settings.

End Frame.

(** ** The clock of the main loop *)

Section Clock.
Context `{libm : Libm} `{otf.Collaborators}.

Lemma bind_inv {A B} (m : otf.M A) (k : A -> otf.M B) (o o' : otf.OTF)
    (r : res B) :
  otf.bind m k o = (r, o') ->
  (exists a o1, m o = (Ok a, o1) /\ k a o1 = (r, o')) \/
  (exists e, m o = (Raise e, o') /\ r = Raise e).
Proof.
  unfold otf.bind. destruct (m o) as [[a|e] o1]; intros E.
  - left. eauto.
  - right. injection E as <- <-. eauto.
Qed.

Lemma keeps_at {X A} (f : otf.OTF -> X) (m : otf.M A) (o o1 : otf.OTF)
    (r : res A) :
  keeps f m -> m o = (r, o1) -> f o1 = f o.
Proof. intros K E. specialize (K o). by rewrite E in K. Qed.

Lemma is_std_in_bound_pure (o o1 : otf.OTF) (r : res (bool * list nat)) :
  otf.is_std_in_bound o = (r, o1) -> o1 = o.
Proof.
  unfold otf.is_std_in_bound, otf.bind, otf.get, otf.lift. by intros [= _ <-].
Qed.

(** One turn of the loop: the number of steps to do stays, and the clock
    moves by one on [Integrate] and not at all otherwise. *)
Lemma loop_body_clock (o o' : otf.OTF) (r : res otf.transition) :
  otf.loop_body o = (r, o') ->
  otf.Nsteps o' = otf.Nsteps o /\
  match r with
  | Ok otf.Integrate =>
      otf.curr_step o' = otf.curr_step o + 1 /\ policy_says o true
  | Ok otf.Correct =>
      otf.curr_step o' = otf.curr_step o /\ policy_says o false
  | Raise _ => otf.curr_step o' = otf.curr_step o
  end.
Proof.
  pose proof setting_curr_step as Hc. pose proof setting_Nsteps as Hn.
  unfold otf.loop_body. intros Hb.
  apply bind_inv in Hb as [([] & o1 & E1 & Hb) | (e & E1 & ->)]; cycle 1.
  { split; eapply keeps_at; eauto using keeps_predict_on_structure. }
  pose proof (keeps_at _ _ _ _ _ (keeps_predict_on_structure _ Hc) E1) as C1.
  pose proof (keeps_at _ _ _ _ _ (keeps_predict_on_structure _ Hn) E1) as N1.
  apply bind_inv in Hb as [([b P] & o2 & E2 & Hb) | (e & E2 & ->)]; cycle 1.
  { apply is_std_in_bound_pure in E2 as ->. done. }
  pose proof (is_std_in_bound_pure _ _ _ E2) as ->.
  assert (Hsays : policy_says o b) by (exists o1, P; done).
  destruct b; cbn [negb] in Hb.
  - apply bind_inv in Hb as [([] & o3 & E3 & Hb) | (e & E3 & ->)]; cycle 1.
    { rewrite <- C1, <- N1.
      split; eapply keeps_at; eauto using keeps_write_config, setting_untouched. }
    pose proof (keeps_at _ _ _ _ _ (keeps_write_config _ (setting_untouched _ Hc)) E3) as C3.
    pose proof (keeps_at _ _ _ _ _ (keeps_write_config _ (setting_untouched _ Hn)) E3) as N3.
    apply bind_inv in Hb as [([] & o4 & E4 & Hb) | (e & E4 & ->)]; cycle 1.
    { rewrite <- C1, <- N1, <- C3, <- N3.
      split; eapply keeps_at; eauto using keeps_update_positions. }
    pose proof (keeps_at _ _ _ _ _ (keeps_update_positions _ Hc) E4) as C4.
    pose proof (keeps_at _ _ _ _ _ (keeps_update_positions _ Hn) E4) as N4.
    unfold otf.bind, otf.modify, otf.ret in Hb. injection Hb as <- <-.
    cbn. split; [congruence|]. split; [congruence|done].
  - apply bind_inv in Hb as [([] & o3 & E3 & Hb) | (e & E3 & ->)]; cycle 1.
    { rewrite <- C1, <- N1.
      split; eapply keeps_at; eauto using keeps_write_config, setting_untouched. }
    pose proof (keeps_at _ _ _ _ _ (keeps_write_config _ (setting_untouched _ Hc)) E3) as C3.
    pose proof (keeps_at _ _ _ _ _ (keeps_write_config _ (setting_untouched _ Hn)) E3) as N3.
    apply bind_inv in Hb as [(o3' & o4 & E4 & Hb) | (e & E4 & ->)];
      [|discriminate E4].
    injection E4 as <- <-.
    apply bind_inv in Hb as [(tgt & o5 & E5 & Hb) | (e & E5 & ->)]; cycle 1.
    { rewrite <- C1, <- N1, <- C3, <- N3.
      destruct (otf.truthy (otf.punchout_d o3)).
      - apply bind_inv in E5 as [(k & o6 & E6 & E5) | (e' & E6 & _)].
        + discriminate E5.
        + split; eapply keeps_at; eauto using keeps_choice, setting_untouched.
      - discriminate E5. }
    assert (C5 : otf.curr_step o5 = otf.curr_step o3 /\
                 otf.Nsteps o5 = otf.Nsteps o3).
    { destruct (otf.truthy (otf.punchout_d o3)).
      - apply bind_inv in E5 as [(k & o6 & E6 & E5) | (e' & E6 & ?)];
          [|done].
        injection E5 as _ <-.
        split; eapply keeps_at; eauto using keeps_choice, setting_untouched.
      - by injection E5 as _ <-. }
    destruct C5 as [C5 N5].
    apply bind_inv in Hb as [([] & o6 & E6 & Hb) | (e & E6 & ->)]; cycle 1.
    { rewrite <- C1, <- N1, <- C3, <- N3, <- C5, <- N5.
      split; eapply keeps_at; eauto using keeps_run_and_train, setting_untouched. }
    pose proof (keeps_at _ _ _ _ _ (keeps_run_and_train _ (setting_untouched _ Hc) tgt) E6) as C6.
    pose proof (keeps_at _ _ _ _ _ (keeps_run_and_train _ (setting_untouched _ Hn) tgt) E6) as N6.
    injection Hb as <- <-. split; [congruence|]. split; [congruence|done].
Qed.

(** C3. Neither the step record nor the oracle query with the update of
    the training set and the retraining moves [curr_step]; a turn of the
    loop that corrects leaves it as it was, and so does one that fails;
    only a turn that integrates adds one.  After a correcting turn the
    condition of the loop holds as before and the next turn, which starts
    with the prediction, is taken from the object the correction left. *)
Theorem clock_moves_on_integrate_only :
  (forall o, otf.curr_step (snd (otf.write_config o)) = otf.curr_step o) /\
  (forall t o,
     otf.curr_step (snd (otf.run_and_train t o)) = otf.curr_step o) /\
  (forall o r o',
     otf.loop_body o = (r, o') ->
     match r with
     | Ok otf.Integrate =>
         otf.curr_step o' = otf.curr_step o + 1 /\ policy_says o true
     | Ok otf.Correct =>
         otf.curr_step o' = otf.curr_step o /\ policy_says o false
     | Raise _ => otf.curr_step o' = otf.curr_step o
     end) /\
  (forall fuel o o',
     otf.curr_step o < otf.Nsteps o ->
     otf.loop_body o = (Ok otf.Correct, o') ->
     otf.curr_step o' < otf.Nsteps o' /\
     otf.main_loop (S fuel) o =
     otf.bind (otf.main_loop fuel)
       (fun r => otf.ret (fst r, otf.Correct :: snd r)) o').
Proof.
  split; [|split; [|split]].
  - intros o.
    apply (keeps_write_config _ (setting_untouched _ setting_curr_step)).
  - intros t o.
    apply (keeps_run_and_train _ (setting_untouched _ setting_curr_step)).
  - intros o r o' Hb. by destruct (loop_body_clock o o' r Hb).
  - intros fuel o o' Hlt Hb.
    destruct (loop_body_clock o o' _ Hb) as (HN & HC & _).
    split; [lia|]. cbn [otf.main_loop].
    apply Z.ltb_lt in Hlt. rewrite Hlt. unfold otf.bind at 1.
    by rewrite Hb.
Qed.

End Clock.

(** ** Turns of the main loop *)

Section Turns.
Context `{libm : Libm} `{otf.Collaborators}.

(** Two objects with the same attributes are the same. *)
Lemma OTF_ext (o1 o2 : otf.OTF) :
  otf.qe_input o1 = otf.qe_input o2 -> otf.dt o1 = otf.dt o2 ->
  otf.Nsteps o1 = otf.Nsteps o2 -> otf.gp o1 = otf.gp o2 ->
  otf.cutoff o1 = otf.cutoff o2 -> otf.punchout_d o1 = otf.punchout_d o2 ->
  otf.structure o1 = otf.structure o2 ->
  otf.curr_step o1 = otf.curr_step o2 ->
  otf.train_referent o1 = otf.train_referent o2 ->
  otf.otf_run_out o1 = otf.otf_run_out o2 ->
  otf.np_random o1 = otf.np_random o2 ->
  o1 = o2.
Proof. destruct o1, o2; cbn; intros; by subst. Qed.

Lemma collect_Ok {A} (f : nat -> res A) (idx : list nat) :
  (forall i, i ∈ idx -> exists x, f i = Ok x) ->
  exists xs, otf.collect f idx = Ok xs.
Proof.
  induction idx as [|i idx IH]; intros Hf; simpl; [eauto|].
  destruct (Hf i) as [x Hx]; [left|].
  destruct IH as [xs Hxs]; [intros j Hj; apply Hf; by right|].
  rewrite Hx, Hxs. simpl. eauto.
Qed.

Lemma py_index_lt {A} (l : list A) (i : nat) :
  (i < length l)%nat -> exists x, py_index l i = Ok x.
Proof.
  intros Hi. destruct (lookup_lt_is_Some_2 l i Hi) as [x Hx].
  exists x. by apply py_index_Ok.
Qed.

Lemma write_config_ok (o : otf.OTF) :
  shaped (otf.structure o) ->
  exists rows, otf.write_config o = (Ok tt, recorded o rows).
Proof.
  intros (_ & Hsp & Hf & Hd).
  destruct (collect_Ok (otf.config_row (otf.structure o))
              (seq 0 (length (positions (otf.structure o)))))
    as [rows Hrows].
  { intros i Hi. apply elem_of_seq in Hi. unfold otf.config_row.
    destruct (py_index_lt (species (otf.structure o)) i) as [? ->]; [lia|].
    destruct (py_index_lt (positions (otf.structure o)) i) as [? ->]; [lia|].
    destruct (py_index_lt (forces (otf.structure o)) i) as [? ->]; [lia|].
    destruct (py_index_lt (stds (otf.structure o)) i) as [? ->]; [lia|].
    simpl. eauto. }
  exists rows.
  unfold otf.write_config, otf.bind, otf.get, otf.lift. by rewrite Hrows.
Qed.

Lemma run_and_train_ok (o : otf.OTF) (target : option nat) :
  otf.punchout_d o = None ->
  length (species (otf.structure o)) =
    length (positions (otf.structure o)) ->
  oracle_ok ->
  exists rows, otf.run_and_train target o = (Ok tt, trained o rows).
Proof.
  intros Hp Hsp Horacle.
  destruct (collect_Ok
              (otf.qe_row (otf.structure o)
                 (otf.run_espresso (otf.qe_input o) (otf.structure o)))
              (seq 0 (nat_of (otf.structure o)))) as [rows Hrows].
  { intros i Hi. apply elem_of_seq in Hi. unfold otf.qe_row.
    specialize (Horacle (otf.qe_input o) (otf.structure o)).
    unfold nat_of in *.
    destruct (py_index_lt (species (otf.structure o)) i) as [? ->]; [lia|].
    destruct (py_index_lt (positions (otf.structure o)) i) as [? ->]; [lia|].
    destruct (py_index_lt (otf.run_espresso (otf.qe_input o)
                             (otf.structure o)) i) as [? ->]; [lia|].
    simpl. eauto. }
  exists rows.
  unfold otf.run_and_train, otf.write_to_output, otf.bind, otf.get,
    otf.lift, otf.modify, otf.ret.
  cbn. rewrite Hp. cbn. rewrite Hrows. cbn.
  unfold trained. f_equal. apply OTF_ext; try reflexivity.
  cbn. by rewrite <- !app_assoc.
Qed.

Lemma predicted_id (o : otf.OTF) :
  predicted o (forces (otf.structure o)) (stds (otf.structure o)) = o.
Proof. destruct o as [? ? ? ? ? ? [] ? ? ? ?]; reflexivity. Qed.

Lemma predict_component_ok (o : otf.OTF) (F D : list vec3)
    (env : otf.Environment) (n i : nat) (rf rs rf' rs' : vec3) :
  F !! n = Some rf -> D !! n = Some rs ->
  vset rf i (fst (otf.predict (otf.gp o) env (i + 1))) = Ok rf' ->
  vset rs i (F64.sqrt (F64.abs (snd (otf.predict (otf.gp o) env (i + 1)))))
    = Ok rs' ->
  otf.predict_component env n i (predicted o F D) =
  (Ok tt, predicted o (<[n := rf']> F) (<[n := rs']> D)).
Proof.
  intros HF HD Hrf Hrs.
  unfold otf.predict_component, otf.bind, otf.get, otf.lift, otf.modify.
  cbn. destruct (otf.predict (otf.gp o) env (i + 1)) as [force var].
  cbn in Hrf, Hrs. unfold otf.setitem2, py_index.
  rewrite HF. cbn. rewrite Hrf. cbn. rewrite HD. cbn. rewrite Hrs.
  reflexivity.
Qed.

Lemma predict_atom_ok (o : otf.OTF) (F D : list vec3) (n : nat)
    (rf rs : vec3) :
  F !! n = Some rf -> D !! n = Some rs ->
  exists rf' rs',
    otf.for_ (seq 0 3)
      (otf.predict_component
         (otf.ChemicalEnvironment (otf.structure (predicted o F D)) n) n)
      (predicted o F D) =
    (Ok tt, predicted o (<[n := rf']> F) (<[n := rs']> D)) /\
    Forall reported_force (components rf') /\
    Forall reported_std (components rs').
Proof.
  intros HF HD.
  set (env := otf.ChemicalEnvironment (otf.structure (predicted o F D)) n).
  set (p := fun i => otf.predict (otf.gp o) env (i + 1)).
  set (sd := fun i => F64.sqrt (F64.abs (snd (p i)))).
  assert (Hn : (n < length F)%nat) by by eapply lookup_lt_Some.
  assert (Hn' : (n < length D)%nat) by by eapply lookup_lt_Some.
  exists (V3 (fst (p 0%nat)) (fst (p 1%nat)) (fst (p 2%nat))),
    (V3 (sd 0%nat) (sd 1%nat) (sd 2%nat)).
  split; [|split].
  - set (rf1 := V3 (fst (p 0%nat)) (c1 rf) (c2 rf)).
    set (rs1 := V3 (sd 0%nat) (c1 rs) (c2 rs)).
    set (rf2 := V3 (fst (p 0%nat)) (fst (p 1%nat)) (c2 rf)).
    set (rs2 := V3 (sd 0%nat) (sd 1%nat) (c2 rs)).
    change (seq 0 3) with [0; 1; 2]%nat. cbn [otf.for_].
    unfold otf.bind at 1.
    rewrite (predict_component_ok o F D env n 0 rf rs rf1 rs1); [|done..].
    unfold otf.bind at 1.
    rewrite (predict_component_ok o (<[n := rf1]> F) (<[n := rs1]> D)
               env n 1 rf1 rs1 rf2 rs2);
      [|by apply list_lookup_insert_eq..|done|done].
    unfold otf.bind at 1.
    rewrite (predict_component_ok o (<[n := rf2]> (<[n := rf1]> F))
               (<[n := rs2]> (<[n := rs1]> D)) env n 2 rf2 rs2
               (V3 (fst (p 0%nat)) (fst (p 1%nat)) (fst (p 2%nat)))
               (V3 (sd 0%nat) (sd 1%nat) (sd 2%nat)));
      [|apply list_lookup_insert_eq; by rewrite length_insert..|done|done].
    by rewrite !list_insert_insert_eq.
  - repeat constructor; unfold reported_force, p; eauto.
  - repeat constructor; unfold reported_std, sd, p; eauto.
Qed.

Lemma predict_loop_ok (o : otf.OTF) (F0 D0 : list vec3) :
  forall (n k : nat) (F D : list vec3),
    (k + n <= length F0)%nat -> (k + n <= length D0)%nat ->
    predicted_below F0 D0 k F D ->
    exists F' D',
      otf.for_ (seq k n)
        (fun n => otf.bind otf.get (fun o =>
           let chemenv := otf.ChemicalEnvironment (otf.structure o) n in
           otf.for_ (seq 0 3) (otf.predict_component chemenv n)))
        (predicted o F D) = (Ok tt, predicted o F' D') /\
      predicted_below F0 D0 (k + n) F' D'.
Proof.
  induction n as [|n IH]; intros k F D HkF HkD Hinv.
  - exists F, D. rewrite Nat.add_0_r. done.
  - destruct Hinv as (HlF & HlD & Hge & HltF & HltD).
    destruct (lookup_lt_is_Some_2 F k) as [rf Hrf]; [lia|].
    destruct (lookup_lt_is_Some_2 D k) as [rs Hrs]; [lia|].
    destruct (predict_atom_ok o F D k rf rs Hrf Hrs)
      as (rf' & rs' & Hatom & Hpf & Hps).
    destruct (IH (S k) (<[k := rf']> F) (<[k := rs']> D))
      as (F' & D' & Hrest & Hinv'); [lia|lia| |].
    { unfold predicted_below. rewrite !length_insert.
      split; [done|]. split; [done|]. split; [|split].
      - intros j Hj. rewrite !list_lookup_insert_ne by lia. apply Hge. lia.
      - intros j row Hj Hrow. destruct (decide (j = k)) as [-> | Hne].
        + rewrite list_lookup_insert_eq in Hrow by lia. by injection Hrow as <-.
        + rewrite list_lookup_insert_ne in Hrow by lia.
          apply (HltF j); [lia|done].
      - intros j row Hj Hrow. destruct (decide (j = k)) as [-> | Hne].
        + rewrite list_lookup_insert_eq in Hrow by lia. by injection Hrow as <-.
        + rewrite list_lookup_insert_ne in Hrow by lia.
          apply (HltD j); [lia|done]. }
    exists F', D'. split.
    + change (seq k (S n)) with (k :: seq (S k) n). cbn [otf.for_].
      unfold otf.bind at 1. unfold otf.bind at 1. unfold otf.get at 1.
      cbv zeta. rewrite Hatom. exact Hrest.
    + by replace (k + S n)%nat with (S k + n)%nat by lia.
Qed.

(** [predict_on_structure] on a structure with a row of forces and of
    standard deviations per atom: every row holds what the surrogate
    reported, and nothing else changed. *)
Lemma predict_on_structure_ok (o : otf.OTF) :
  shaped (otf.structure o) ->
  exists F D,
    otf.predict_on_structure o = (Ok tt, predicted o F D) /\
    length F = length (positions (otf.structure o)) /\
    length D = length (positions (otf.structure o)) /\
    Forall (fun row => Forall reported_force (components row)) F /\
    Forall (fun row => Forall reported_std (components row)) D.
Proof.
  intros (_ & _ & HlF & HlD).
  destruct (predict_loop_ok o (forces (otf.structure o))
              (stds (otf.structure o))
              (length (positions (otf.structure o))) 0%nat
              (forces (otf.structure o)) (stds (otf.structure o)))
    as (F & D & Hrun & HF & HD & _ & Hpf & Hps); [simpl; lia..| |].
  { split; [done|]. split; [done|]. split; [done|]. split; intros; lia. }
  rewrite predicted_id in Hrun. cbn [Nat.add] in *.
  exists F, D. split; [|split; [lia|split; [lia|split]]].
  - unfold otf.predict_on_structure, otf.bind at 1, otf.get at 1.
    exact Hrun.
  - apply Forall_lookup. intros j row Hrow. apply (Hpf j); [|done].
    apply lookup_lt_Some in Hrow. lia.
  - apply Forall_lookup. intros j row Hrow. apply (Hps j); [|done].
    apply lookup_lt_Some in Hrow. lia.
Qed.

Lemma entries_Forall (P : float -> Prop) (D : list vec3) :
  Forall (fun row => Forall P (components row)) D -> Forall P (entries D).
Proof.
  induction 1 as [|row D Hrow _ IH]; [constructor|].
  change (entries (row :: D)) with (components row ++ entries D).
  by apply Forall_app.
Qed.

Lemma nanmax_geb (row : vec3) (D : list vec3) :
  exists m, np_nanmax (row :: D) = Ok m /\
            F64.geb m threshold =
            existsb (fun y => F64.geb y threshold) (entries (row :: D)).
Proof.
  exists (fold_left np_fmax (c1 row :: c2 row :: entries D) (c0 row)).
  split; [reflexivity|]. apply fold_fmax_geb.
Qed.

Lemma std_in_bound_all_below (D : list vec3) :
  D <> [] ->
  Forall (fun x => F64.geb x threshold = false) (entries D) ->
  std_in_bound D = Ok (true, []).
Proof.
  intros Hne Hall. destruct D as [|row D]; [done|].
  destruct (nanmax_geb row D) as (m & Hm & Hg).
  unfold std_in_bound. rewrite Hm. cbn [res_bind]. rewrite Hg.
  replace (existsb _ _) with false; [done|]. symmetry.
  apply not_true_is_false. intros Hex. apply existsb_exists in Hex
    as (x & Hx & Hgx).
  rewrite Forall_forall in Hall. apply list_elem_of_In in Hx.
  by rewrite (Hall x Hx) in Hgx.
Qed.

Lemma std_in_bound_all_above (D : list vec3) :
  D <> [] ->
  Forall (fun x => F64.geb x threshold = true) (entries D) ->
  exists P, std_in_bound D = Ok (false, P).
Proof.
  intros Hne Hall. destruct D as [|row D]; [done|].
  destruct (nanmax_geb row D) as (m & Hm & Hg).
  unfold std_in_bound. rewrite Hm. cbn [res_bind]. rewrite Hg.
  replace (existsb _ _) with true; [eauto|]. symmetry.
  apply existsb_exists. exists (c0 row). split; [by left|].
  by inversion Hall.
Qed.

Lemma integrate_turn (p0 : list vec3) (dtdt : float) (o : otf.OTF) :
  surrogate_at_rest -> at_rest p0 dtdt o ->
  exists o' e,
    otf.loop_body o = (Ok otf.Integrate, o') /\
    at_rest p0 dtdt o' /\
    otf.curr_step o' = otf.curr_step o + 1 /\
    otf.Nsteps o' = otf.Nsteps o /\ otf.gp o' = otf.gp o /\
    otf.otf_run_out o' = otf.otf_run_out o ++ [e] /\
    kind_of e = KConfig (otf.curr_step o).
Proof.
  intros Hsur (Hshape & Hne & Hmass & Hdiv & Hsq & Hfin & Hpos & Hpre & Hco).
  destruct (predict_on_structure_ok o Hshape)
    as (F & D & Hpred & HlF & HlD & HF & HD).
  pose proof Hshape as (Hs1 & Hs2 & Hs3 & Hs4).
  assert (Hzero : Forall zero3 F).
  { eapply Forall_impl; [exact HF|]. intros row Hrow.
    assert (Hz : forall x, reported_force x -> F64.is_zero x = true).
    { intros x (g & e & d & ->). apply Hsur. }
    inversion Hrow as [|? ? H0 Hr1]; subst.
    inversion Hr1 as [|? ? H1 Hr2]; subst.
    inversion Hr2 as [|? ? H2 _]; subst. repeat split; by apply Hz. }
  assert (Hbelow : Forall (fun x => F64.geb x threshold = false) (entries D)).
  { apply entries_Forall. eapply Forall_impl; [exact HD|]. intros row Hrow.
    eapply Forall_impl; [exact Hrow|]. intros x (g & e & d & ->).
    destruct (Hsur g e d) as [_ Hv].
    by destruct (snd (otf.predict g e d)) as [[]| | |]. }
  assert (HDne : D <> []).
  { intros ->. destruct (positions (otf.structure o)); [done|discriminate]. }
  set (o1 := predicted o F D).
  assert (Hstd : otf.is_std_in_bound o1 = (Ok (true, []), o1)).
  { unfold otf.is_std_in_bound, otf.bind, otf.get, otf.lift. cbn.
    by rewrite std_in_bound_all_below. }
  destruct (write_config_ok o1) as [rows Hw].
  { unfold o1, predicted, shaped. cbn. lia. }
  set (o2 := recorded o1 rows).
  destruct (update_positions_rest o2 dtdt p0) as (P & Hup & HP & _);
    try done.
  exists (otf.with_curr_step (otf.curr_step o + 1)
            (moved o2 P (positions (otf.structure o2)))),
    (otf.Config (otf.curr_step o) (otf.dt o) rows).
  split; [|split; [|done]].
  - unfold otf.loop_body, otf.bind at 1. rewrite Hpred. fold o1.
    unfold otf.bind at 1. rewrite Hstd. cbn [negb].
    unfold otf.bind at 1. rewrite Hw. fold o2.
    unfold otf.bind at 1. rewrite Hup. reflexivity.
  - unfold at_rest. cbn.
    pose proof (Forall2_length _ _ _ HP) as HlP.
    pose proof (Forall2_length _ _ _ Hpos) as Hlp.
    split; [unfold shaped; cbn; lia|].
    split; [intros ->; apply Hne, nil_length_inv; cbn in HlP; lia|].
    split; [intros i Hi; apply Hmass; cbn in Hi; lia|].
    split; [exact Hdiv|]. by repeat split.
Qed.

Lemma main_loop_done (fuel : nat) (o : otf.OTF) :
  otf.Nsteps o <= otf.curr_step o ->
  otf.main_loop fuel o = (Ok (true, []), o).
Proof.
  intros Hle. assert (Hc : (otf.curr_step o <? otf.Nsteps o) = false) by lia.
  destruct fuel; cbn [otf.main_loop]; by rewrite Hc.
Qed.

Lemma main_loop_turn (fuel : nat) (o o1 : otf.OTF) (t : otf.transition) :
  otf.curr_step o < otf.Nsteps o ->
  otf.loop_body o = (Ok t, o1) ->
  otf.main_loop (S fuel) o =
  otf.bind (otf.main_loop fuel) (fun r => otf.ret (fst r, t :: snd r)) o1.
Proof.
  intros Hlt Hb. apply Z.ltb_lt in Hlt. cbn [otf.main_loop]. rewrite Hlt.
  unfold otf.bind at 1. by rewrite Hb.
Qed.

(** At rest the loop integrates until the clock reaches [Nsteps]. *)
Lemma integrate_loop (p0 : list vec3) (dtdt : float) :
  surrogate_at_rest ->
  forall (n fuel : nat) (o : otf.OTF),
    at_rest p0 dtdt o ->
    otf.Nsteps o - otf.curr_step o = Z.of_nat n -> (n <= fuel)%nat ->
    exists o' new,
      otf.main_loop fuel o = (Ok (true, replicate n otf.Integrate), o') /\
      at_rest p0 dtdt o' /\
      otf.curr_step o' = otf.Nsteps o /\ otf.gp o' = otf.gp o /\
      otf.otf_run_out o' = otf.otf_run_out o ++ new /\
      kind_of <$> new = KConfig <$> seqZ (otf.curr_step o) (Z.of_nat n).
Proof.
  intros Hsur. induction n as [|n IH]; intros fuel o Hrest Hn Hfuel.
  - exists o, []. rewrite main_loop_done by lia. rewrite app_nil_r.
    split; [done|]. split; [done|]. split; [lia|]. by repeat split.
  - destruct fuel as [|fuel]; [lia|].
    destruct (integrate_turn p0 dtdt o Hsur Hrest)
      as (o1 & e & Hturn & Hrest1 & Hc1 & HN1 & Hg1 & Hout1 & Hk1).
    destruct (IH fuel o1 Hrest1) as (o' & new & Hloop & Hrest' & Hc' & Hg'
                                     & Hout' & Hk'); [lia|lia|].
    exists o', (e :: new).
    rewrite (main_loop_turn fuel o o1 otf.Integrate) by (lia || done).
    unfold otf.bind. rewrite Hloop. cbn.
    split; [done|]. split; [done|]. split; [congruence|].
    split; [congruence|]. split.
    + rewrite Hout', Hout1, <- app_assoc. done.
    + rewrite (seqZ_cons _ (Z.of_nat (S n))) by lia.
      rewrite fmap_cons, Hk1, Hk', Hc1. do 3 f_equal; lia.
Qed.

(** C6. Two atoms at rest (previous positions equal to the positions,
    finite coordinates that can be doubled, non-zero masses),
    [dt = 0.0001], which the C library squares to a finite float, five
    steps, the threshold [0.1], no punch-out, a surrogate that reports a
    zero force and a zero variance, an oracle that returns a force per
    atom: [run] ends, given fuel for five turns or more; it has queried the oracle and retrained once, before the first
    prediction, as the output and the surrogate it ends with tell; its five
    turns all integrate, none corrects; the clock is at five and every
    position is unchanged. *)
Theorem two_atoms_five_steps (o : otf.OTF) (fuel : nat) :
  let s := otf.structure o in
  surrogate_at_rest -> oracle_ok ->
  length (positions s) = 2%nat -> shaped s -> has_masses s ->
  (forall i mass, mass_of s i = Some mass -> divisor mass) ->
  Forall coordinates (positions s) ->
  prev_positions s = positions s ->
  otf.dt o = F64.decimal 1 10000 -> finite_square (otf.dt o) ->
  otf.Nsteps o = 5 ->
  otf.curr_step o = 0 -> otf.punchout_d o = None ->
  (5 <= fuel)%nat ->
  threshold = F64.decimal 1 10 /\
  exists o' new,
    otf.run fuel o = (Ok (true, replicate 5 otf.Integrate), o') /\
    otf.curr_step o' = 5 /\
    Forall2 unchanged3 (positions (otf.structure o')) (positions s) /\
    otf.gp o' =
      otf.train (otf.update_db (otf.gp o) s
                   (otf.run_espresso (otf.qe_input o) s)) /\
    otf.otf_run_out o' = otf.otf_run_out o ++ new /\
    kind_of <$> new =
      [KText; KText; KQEResult; KText; KHyperparameters;
       KConfig 0; KConfig 1; KConfig 2; KConfig 3; KConfig 4].
Proof.
  intros s Hsur Horacle Htwo Hshape Hmass Hdiv Hco Hprev Hdt
    (dtdt & Hsq & Hfin) HN Hc Hp Hfuel.
  split; [reflexivity|]. subst s.
  destruct (run_and_train_ok o None Hp) as [rows Hboot];
    [by destruct Hshape as (_ & ? & _)|done|].
  set (o1 := trained o rows) in *.
  assert (Hsame : Forall2 unchanged3 (positions (otf.structure o))
                    (positions (otf.structure o))).
  { apply Forall2_same_length_lookup_2; [done|].
    intros i x y Hx Hy. rewrite Hx in Hy. injection Hy as <-.
    apply unchanged3_refl. }
  assert (Hrest : at_rest (positions (otf.structure o)) dtdt o1).
  { unfold at_rest, o1. cbn. split; [done|].
    split; [intros E; by rewrite E in Htwo|].
    split; [done|]. split; [done|].
    split; [done|]. split; [done|].
    split; [done|]. split; [by rewrite Hprev|done]. }
  destruct (integrate_loop _ _ Hsur 5%nat fuel o1 Hrest)
    as (o' & new & Hloop & Hrest' & Hc' & Hg' & Hout' & Hk');
    [unfold o1; cbn; lia|done|].
  exists o', (drop (length (otf.otf_run_out o)) (otf.otf_run_out o1) ++ new).
  split; [|split; [|split; [|split; [|split]]]].
  - unfold otf.run, otf.bind. by rewrite Hboot.
  - rewrite Hc'. unfold o1. cbn. done.
  - by destruct Hrest' as (_ & _ & _ & _ & _ & _ & ? & _).
  - rewrite Hg'. reflexivity.
  - rewrite Hout'. unfold o1. cbn. rewrite drop_app_length.
    by rewrite <- app_assoc.
  - assert (Hc1 : otf.curr_step o1 = 0) by exact Hc.
    unfold o1 at 1. cbn. rewrite drop_app_length, fmap_app, Hk', Hc1.
    reflexivity.
Qed.

Lemma above_entries (D : list vec3) :
  surrogate_above ->
  Forall (fun row => Forall reported_std (components row)) D ->
  Forall (fun x => F64.geb x threshold = true) (entries D).
Proof.
  intros Hsur HD. apply entries_Forall. eapply Forall_impl; [exact HD|].
  intros row Hrow. eapply Forall_impl; [exact Hrow|].
  intros x (g & e & d & ->). apply Hsur.
Qed.

(** Under a surrogate that is never sure the policy never says yes. *)
Lemma never_within_bound (o : otf.OTF) :
  surrogate_above -> shaped (otf.structure o) ->
  positions (otf.structure o) <> [] ->
  exists F D P,
    otf.predict_on_structure o = (Ok tt, predicted o F D) /\
    length F = length (positions (otf.structure o)) /\
    length D = length (positions (otf.structure o)) /\
    otf.is_std_in_bound (predicted o F D) =
      (Ok (false, P), predicted o F D).
Proof.
  intros Hsur Hshape Hne.
  destruct (predict_on_structure_ok o Hshape)
    as (F & D & Hpred & HlF & HlD & _ & HD).
  destruct (std_in_bound_all_above D) as [P HP].
  { intros ->. destruct (positions (otf.structure o)); [done|discriminate]. }
  { by apply above_entries. }
  exists F, D, P. repeat split; try done.
  unfold otf.is_std_in_bound, otf.bind, otf.get, otf.lift. cbn.
  by rewrite HP.
Qed.

(** A correcting turn leaves the structure as the prediction left it. *)
Lemma correct_turn_structure (o o' : otf.OTF) :
  otf.loop_body o = (Ok otf.Correct, o') ->
  exists o1,
    otf.predict_on_structure o = (Ok tt, o1) /\
    otf.structure o' = otf.structure o1.
Proof.
  pose proof untouched_structure as Hu.
  unfold otf.loop_body. intros Hb.
  apply bind_inv in Hb as [([] & o1 & E1 & Hb) | (e & _ & ?)]; [|done].
  exists o1. split; [done|].
  apply bind_inv in Hb as [([b P] & o2 & E2 & Hb) | (e & _ & ?)]; [|done].
  pose proof (is_std_in_bound_pure _ _ _ E2) as ->.
  destruct b; cbn [negb] in Hb.
  { apply bind_inv in Hb as [([] & o3 & _ & Hb) | (e & _ & ?)]; [|done].
    apply bind_inv in Hb as [([] & o4 & _ & Hb) | (e & _ & ?)]; [|done].
    unfold otf.bind, otf.modify, otf.ret in Hb. discriminate Hb. }
  apply bind_inv in Hb as [([] & o3 & E3 & Hb) | (e & _ & ?)]; [|done].
  pose proof (keeps_at _ _ _ _ _ (keeps_write_config _ Hu) E3) as S3.
  apply bind_inv in Hb as [(o3' & o4 & E4 & Hb) | (e & E4 & _)];
    [|discriminate E4].
  injection E4 as <- <-.
  apply bind_inv in Hb as [(tgt & o5 & E5 & Hb) | (e & _ & ?)]; [|done].
  assert (S5 : otf.structure o5 = otf.structure o3).
  { destruct (otf.truthy (otf.punchout_d o3)).
    - apply bind_inv in E5 as [(k & o6 & E6 & E5) | (e' & _ & ?)]; [|done].
      injection E5 as _ <-. eapply keeps_at; eauto using keeps_choice.
    - by injection E5 as _ <-. }
  apply bind_inv in Hb as [([] & o6 & E6 & Hb) | (e & _ & ?)]; [|done].
  pose proof (keeps_at _ _ _ _ _ (keeps_run_and_train _ Hu tgt) E6) as S6.
  injection Hb as <-. congruence.
Qed.

(** Whatever the mode and whatever fails, under a surrogate that is never
    sure the loop never integrates and the clock stays where it is. *)
Lemma never_integrates :
  surrogate_above ->
  forall (fuel : nat) (o o' : otf.OTF) (r : res (bool * list otf.transition)),
    shaped (otf.structure o) -> positions (otf.structure o) <> [] ->
    otf.main_loop fuel o = (r, o') ->
    otf.curr_step o' = otf.curr_step o /\
    forall b ts, r = Ok (b, ts) ->
      Forall (eq otf.Correct) ts /\
      (b = true -> otf.Nsteps o <= otf.curr_step o).
Proof.
  intros Hsur. induction fuel as [|fuel IH]; intros o o' r Hshape Hne Hrun;
    cbn [otf.main_loop] in Hrun;
    destruct (Z.ltb_spec (otf.curr_step o) (otf.Nsteps o)) as [Hlt|Hge].
  - injection Hrun as <- <-. split; [done|]. by intros b ts [= <- <-].
  - injection Hrun as <- <-. split; [done|]. by intros b ts [= <- <-].
  - apply bind_inv in Hrun as [(t & o1 & Hturn & Hrest) | (e & Hturn & ->)];
      cycle 1.
    { destruct (loop_body_clock _ _ _ Hturn) as [_ Hc]. done. }
    destruct (loop_body_clock _ _ _ Hturn) as [HN Hc].
    destruct (never_within_bound o Hsur Hshape Hne)
      as (F & D & P & Hpred & HlF & HlD & Hstd).
    destruct t.
    + destruct Hc as [Hc _].
      destruct (correct_turn_structure _ _ Hturn) as (op & Hpred' & Hst).
      rewrite Hpred in Hpred'. injection Hpred' as <-.
      assert (Hshape1 : shaped (otf.structure o1)).
      { rewrite Hst. destruct Hshape as (? & ? & ? & ?).
        unfold shaped. cbn. lia. }
      assert (Hne1 : positions (otf.structure o1) <> [])
        by by rewrite Hst.
      apply bind_inv in Hrest as [([b1 ts1] & o2 & Hloop & Hret)
                                 | (e & Hloop & ->)].
      * destruct (IH _ _ _ Hshape1 Hne1 Hloop) as [Hclock Hts].
        injection Hret as <- <-. split; [congruence|].
        intros b ts [= <- <-]. destruct (Hts b1 ts1 eq_refl) as [? Hb].
        split; [by constructor|]. cbn. intros ->.
        specialize (Hb eq_refl). lia.
      * destruct (IH _ _ _ Hshape1 Hne1 Hloop) as [Hclock _].
        split; [congruence|done].
    + destruct Hc as [_ (op & P' & Hpred' & Hstd')].
      rewrite Hpred in Hpred'. injection Hpred' as <-.
      rewrite Hstd in Hstd'. discriminate Hstd'.
  - injection Hrun as <- <-. split; [done|]. intros b ts [= <- <-].
    split; [constructor|]. intros _. lia.
Qed.

(** Without punch-out and with an oracle that answers, every turn under a
    surrogate that is never sure corrects. *)
Lemma correct_turn (o : otf.OTF) :
  surrogate_above -> oracle_ok ->
  shaped (otf.structure o) -> positions (otf.structure o) <> [] ->
  otf.punchout_d o = None ->
  exists o',
    otf.loop_body o = (Ok otf.Correct, o') /\
    shaped (otf.structure o') /\ positions (otf.structure o') <> [] /\
    otf.punchout_d o' = None /\
    otf.curr_step o' = otf.curr_step o /\ otf.Nsteps o' = otf.Nsteps o.
Proof.
  intros Hsur Horacle Hshape Hne Hp.
  destruct (never_within_bound o Hsur Hshape Hne)
    as (F & D & P & Hpred & HlF & HlD & Hstd).
  set (o1 := predicted o F D) in *.
  assert (Hshape1 : shaped (otf.structure o1)).
  { destruct Hshape as (? & ? & ? & ?). unfold shaped, o1. cbn. lia. }
  destruct (write_config_ok o1 Hshape1) as [rows Hw].
  set (o2 := recorded o1 rows) in *.
  destruct (run_and_train_ok o2 None) as [rows' Ht]; [done| |done|].
  { by destruct Hshape1 as (_ & ? & _). }
  exists (trained o2 rows').
  split; [|split; [exact Hshape1|split; [exact Hne|split; [exact Hp|]]]];
    [|split; reflexivity].
  unfold otf.loop_body, otf.bind at 1. rewrite Hpred.
  unfold otf.bind at 1. rewrite Hstd. cbn [negb].
  unfold otf.bind at 1. rewrite Hw. fold o2.
  unfold otf.bind at 1, otf.get at 1.
  replace (otf.truthy (otf.punchout_d o2)) with false
    by (unfold o2, o1; cbn; by rewrite Hp).
  unfold otf.bind at 1, otf.ret at 1.
  unfold otf.bind at 1. by rewrite Ht.
Qed.

Lemma correct_loop :
  surrogate_above -> oracle_ok ->
  forall (fuel : nat) (o : otf.OTF),
    shaped (otf.structure o) -> positions (otf.structure o) <> [] ->
    otf.punchout_d o = None -> otf.curr_step o < otf.Nsteps o ->
    exists o',
      otf.main_loop fuel o = (Ok (false, replicate fuel otf.Correct), o') /\
      otf.curr_step o' = otf.curr_step o.
Proof.
  intros Hsur Horacle. induction fuel as [|fuel IH];
    intros o Hshape Hne Hp Hlt.
  - exists o. split; [|done]. cbn [otf.main_loop].
    apply Z.ltb_lt in Hlt. by rewrite Hlt.
  - destruct (correct_turn o Hsur Horacle Hshape Hne Hp)
      as (o1 & Hturn & Hshape1 & Hne1 & Hp1 & Hc1 & HN1).
    destruct (IH o1 Hshape1 Hne1 Hp1) as (o' & Hloop & Hc'); [lia|].
    exists o'. split; [|congruence].
    rewrite (main_loop_turn fuel o o1 otf.Correct) by done.
    unfold otf.bind. by rewrite Hloop.
Qed.

(** C7. With a surrogate whose standard deviation is at or above the
    threshold whatever it is asked, on a structure with at least one atom
    and the clock at zero: however long [run] goes on and however it ends,
    the clock is at zero, every turn of the loop it took corrected, none
    integrated, and the loop was not over unless there was no step to do;
    and without punch-out, with an oracle that returns a force per atom
    and a step to do, [run] is still correcting after any number of
    turns: nothing in the loop stops it. *)
Theorem surrogate_never_trusted (o : otf.OTF) :
  surrogate_above ->
  shaped (otf.structure o) -> positions (otf.structure o) <> [] ->
  otf.curr_step o = 0 ->
  (forall fuel r o',
     otf.run fuel o = (r, o') ->
     otf.curr_step o' = 0 /\
     forall b ts, r = Ok (b, ts) ->
       Forall (eq otf.Correct) ts /\ (b = true -> otf.Nsteps o <= 0)) /\
  (0 < otf.Nsteps o -> otf.punchout_d o = None -> oracle_ok ->
   forall fuel, exists o',
     otf.run fuel o = (Ok (false, replicate fuel otf.Correct), o') /\
     otf.curr_step o' = 0).
Proof.
  intros Hsur Hshape Hne Hc. split.
  - intros fuel r o' Hrun. unfold otf.run in Hrun.
    apply bind_inv in Hrun as [([] & o1 & Hboot & Hloop) | (e & Hboot & ->)].
    + pose proof (keeps_at _ _ _ _ _
                    (keeps_run_and_train _ untouched_structure None) Hboot)
        as Hs1.
      pose proof (keeps_at _ _ _ _ _
                    (keeps_run_and_train _
                       (setting_untouched _ setting_curr_step) None) Hboot)
        as Hc1.
      pose proof (keeps_at _ _ _ _ _
                    (keeps_run_and_train _
                       (setting_untouched _ setting_Nsteps) None) Hboot)
        as HN1.
      destruct (never_integrates Hsur fuel o1 o' r) as [Hclock Hts];
        [by rewrite Hs1..|done|].
      split; [congruence|]. intros b ts Hr.
      destruct (Hts b ts Hr) as [? Hb]. split; [done|].
      intros ->. specialize (Hb eq_refl). lia.
    + split; [|done]. rewrite <- Hc. eapply keeps_at; [|exact Hboot].
      apply keeps_run_and_train, setting_untouched, setting_curr_step.
  - intros HN Hp Horacle fuel.
    destruct (run_and_train_ok o None Hp) as [rows Hboot];
      [by destruct Hshape as (_ & ? & _)|done|].
    destruct (correct_loop Hsur Horacle fuel (trained o rows))
      as (o' & Hloop & Hc'); [done|done|done|cbn; lia|].
    exists o'. split; [|by rewrite Hc'].
    unfold otf.run, otf.bind. by rewrite Hboot.
Qed.

End Turns.

Section SampleAtRest.

#[local] Existing Instance sample.libm.
#[local] Existing Instance sample.sure.

(** The engine of the sample, run: five steps at rest. *)
Lemma two_atoms_five_steps_witness :
  let o : @otf.OTF sample.sure :=
    sample.engine F64.zero F64.zero [sample.origin; sample.origin] in
  threshold = F64.decimal 1 10 /\
  exists o' new,
    otf.run 5 o = (Ok (true, replicate 5 otf.Integrate), o') /\
    otf.curr_step o' = 5 /\
    Forall2 unchanged3 (positions (otf.structure o'))
      (positions (otf.structure o)) /\
    otf.gp o' =
      otf.train (otf.update_db (otf.gp o) (otf.structure o)
                   (otf.run_espresso (otf.qe_input o) (otf.structure o))) /\
    otf.otf_run_out o' = otf.otf_run_out o ++ new /\
    kind_of <$> new =
      [KText; KText; KQEResult; KText; KHyperparameters;
       KConfig 0; KConfig 1; KConfig 2; KConfig 3; KConfig 4].
Proof.
  intros o.
  apply (@two_atoms_five_steps sample.libm sample.sure
           o 5%nat).
  - intros g e d. split; reflexivity.
  - intros q t. cbn. by rewrite length_replicate.
  - reflexivity.
  - repeat split.
  - intros i Hi. vm_compute in Hi.
    destruct i as [|[|i]]; [by eexists|by eexists|lia].
  - intros i mass Hm. destruct i as [|[|i]]; vm_compute in Hm;
      try discriminate Hm; injection Hm as <-; by split.
  - repeat constructor.
  - reflexivity.
  - reflexivity.
  - by exists (F64.decimal 1 (10 ^ 8)).
  - reflexivity.
  - reflexivity.
  - reflexivity.
  - lia.
Defined.

End SampleAtRest.

Section SampleInDoubt.

#[local] Existing Instance sample.libm.
#[local] Existing Instance sample.unsure.

(** The engine of the sample with a surrogate that reports a variance of
    one: the standard deviation is one, above the threshold. *)
Lemma surrogate_never_trusted_witness :
  let o : @otf.OTF sample.unsure :=
    sample.engine F64.zero (F64.of_Z 1) [sample.origin; sample.origin] in
  (forall fuel r o',
     otf.run fuel o = (r, o') ->
     otf.curr_step o' = 0 /\
     forall b ts, r = Ok (b, ts) ->
       Forall (eq otf.Correct) ts /\ (b = true -> otf.Nsteps o <= 0)) /\
  (forall fuel, exists o',
     otf.run fuel o = (Ok (false, replicate fuel otf.Correct), o') /\
     otf.curr_step o' = 0).
Proof.
  intros o.
  destruct (@surrogate_never_trusted sample.libm sample.unsure o) as [Hsafe Hlive].
  - intros g e d. reflexivity.
  - repeat split.
  - discriminate.
  - reflexivity.
  - split; [exact Hsafe|]. apply Hlive.
    + reflexivity.
    + reflexivity.
    + intros q t. cbn. by rewrite length_replicate.
Defined.

(** The same engine, one turn: it corrects, the clock stays, and the loop
    goes on from the object the correction left. *)
Lemma clock_moves_on_integrate_only_witness :
  let o : @otf.OTF sample.unsure :=
    sample.engine F64.zero (F64.of_Z 1) [sample.origin; sample.origin] in
  exists o',
    otf.loop_body o = (Ok otf.Correct, o') /\
    otf.curr_step o' = otf.curr_step o /\
    otf.curr_step o' < otf.Nsteps o' /\
    otf.main_loop 1 o =
    otf.bind (otf.main_loop 0)
      (fun r => otf.ret (fst r, otf.Correct :: snd r)) o'.
Proof.
  intros o.
  destruct (@correct_turn sample.libm sample.unsure o) as (o' & Hturn & _).
  - intros g e d. reflexivity.
  - intros q t. cbn. by rewrite length_replicate.
  - repeat split.
  - discriminate.
  - reflexivity.
  - destruct (@clock_moves_on_integrate_only sample.libm sample.unsure)
      as (_ & _ & Hclock & Hnext).
    exists o'. split; [exact Hturn|].
    split; [exact (proj1 (Hclock o _ o' Hturn))|].
    apply (Hnext 0%nat o o'); [reflexivity|exact Hturn].
Defined.

End SampleInDoubt.

(** * Further properties *)

(** Take a chain of binds that came out [Ok] apart, one step. *)
Ltac bind_step Hb a o1 E :=
  apply bind_inv in Hb as [(a & o1 & E & Hb) | (? & _ & ?)]; [|done].

(** ** Rows with a NaN *)

Section WholeRows.

Lemma np_maximum_nan (a b : float) :
  F64.is_nan a = true \/ F64.is_nan b = true ->
  F64.is_nan (np_maximum a b) = true.
Proof.
  intros [Ha | Hb]; unfold np_maximum.
  - by rewrite Ha, orb_true_r.
  - destruct (F64.is_nan a) eqn:Ha; [by rewrite orb_true_r|].
    rewrite orb_false_r.
    replace (F64.geb a b) with false; [done|].
    destruct b; try discriminate Hb. by destruct a.
Qed.

Lemma np_max_nan (row : vec3) :
  Exists (fun x => F64.is_nan x = true) (components row) ->
  F64.is_nan (np_max row) = true.
Proof.
  intros Hex. unfold np_max. apply Exists_exists in Hex as (x & Hx & Hn).
  unfold components in Hx. set_unfold in Hx.
  destruct Hx as [-> | [-> | [-> | []]]]; auto using np_maximum_nan.
Qed.

(** The maximum of a row is at or above the threshold exactly when the row
    has no NaN and a component at or above the threshold. *)
Lemma np_max_geb (row : vec3) :
  F64.geb (np_max row) threshold = true <-> row_above row.
Proof.
  split.
  - intros Hg.
    assert (Hn : Forall (fun x => F64.is_nan x = false) (components row)).
    { apply Forall_forall. intros x Hx.
      destruct (F64.is_nan x) eqn:E; [|done].
      rewrite geb_nan_l in Hg; [done|]. apply np_max_nan.
      apply Exists_exists. eauto. }
    split; [done|]. destruct (np_max_maximum row Hn) as [Hin _].
    apply Exists_exists. eauto.
  - intros [Hn Hex]. destruct (np_max_maximum row Hn) as [_ Hall].
    apply Exists_exists in Hex as (x & Hx & Hg).
    rewrite Forall_forall in Hall. unfold F64.geb in *.
    change SFleb with F64.leb in *. eauto using leb_trans.
Qed.

Lemma entries_row (a : list vec3) (i : nat) (row : vec3) (x : float) :
  a !! i = Some row -> x ∈ components row -> x ∈ entries a.
Proof.
  intros Hi Hx. unfold entries. apply list_elem_of_In, in_concat.
  exists (components row). split; [|by apply list_elem_of_In].
  apply in_map, list_elem_of_In. by eapply list_elem_of_lookup_2.
Qed.

Lemma existsb_Exists (f : float -> bool) (l : list float) :
  existsb f l = true <-> Exists (fun x => f x = true) l.
Proof.
  rewrite existsb_exists, Exists_exists. split.
  - intros (x & Hx & Hf). exists x. split; [by apply list_elem_of_In|done].
  - intros (x & Hx & Hf). exists x. split; [by apply list_elem_of_In|done].
Qed.

End WholeRows.

Section ProblemAtoms.
Context `{libm : Libm} `{otf.Collaborators}.

(** X1. On any non-empty array of standard deviations, with or without
    NaN entries, [is_std_in_bound] returns, leaves the object alone, and
    answers [False] exactly when some entry is at or above the threshold;
    the list it returns is ascending and holds exactly the atoms whose row
    has no NaN and a component at or above the threshold.  A row with a NaN
    is never listed, whatever else it holds: [np.max] of such a row is a
    NaN.  So the answer can be [False] with an empty list. *)
Theorem problem_atoms_are_whole_rows (o : otf.OTF) :
  stds (otf.structure o) <> [] ->
  exists b P,
    otf.is_std_in_bound o = (Ok (b, P), o) /\
    (b = false <->
     Exists (fun x => F64.geb x threshold = true)
       (entries (stds (otf.structure o)))) /\
    StronglySorted lt P /\
    (forall i, i ∈ P <->
       exists row, stds (otf.structure o) !! i = Some row /\ row_above row).
Proof.
  intros Hne. destruct (stds (otf.structure o)) as [|row a] eqn:Ea; [done|].
  destruct (nanmax_geb row a) as (m & Hm & Hg).
  unfold otf.is_std_in_bound, otf.bind, otf.get, otf.lift, std_in_bound.
  rewrite Ea, Hm. cbn [res_bind]. rewrite Hg.
  destruct (existsb _ _) eqn:E.
  - eexists false, _. split; [reflexivity|]. split; [|split].
    + split; [|done]. intros _. by apply existsb_Exists.
    + apply problem_loop_sorted; constructor.
    + intros i. rewrite problem_loop_elem, Nat.sub_0_r. split.
      * intros [Hi | (r & _ & Hl & Hr)]; [by apply elem_of_nil in Hi|].
        exists r. split; [done|]. by apply np_max_geb.
      * intros (r & Hl & Hr). right. exists r. split; [lia|].
        split; [done|]. by apply np_max_geb.
  - exists true, []. split; [reflexivity|]. split; [|split].
    + split; [done|]. intros Hex. apply existsb_Exists in Hex. congruence.
    + constructor.
    + intros i. split; [intros Hi; by apply elem_of_nil in Hi|].
      intros (r & Hl & _ & Hex). exfalso.
      apply Exists_exists in Hex as (x & Hx & Hgx).
      assert (Hex : existsb (fun y => F64.geb y threshold)
                      (entries (row :: a)) = true).
      { apply existsb_Exists, Exists_exists. exists x. split; [|done].
        by eapply entries_row. }
      congruence.
Qed.

(** X2. A turn of the main loop in punch-out mode, after a prediction that
    leaves an entry at or above the threshold but no row that is listed
    (every such row holds a NaN): the policy answers [False] with an empty
    list, the frame is written, and [np.random.choice] of the empty list
    raises [ValueError]; the oracle is not queried and nothing but the
    output and the predicted forces and deviations has changed. *)
Theorem no_problem_atom_to_choose (o o1 : otf.OTF) :
  otf.predict_on_structure o = (Ok tt, o1) ->
  shaped (otf.structure o1) ->
  Exists (fun x => F64.geb x threshold = true)
    (entries (stds (otf.structure o1))) ->
  (forall row, row ∈ stds (otf.structure o1) -> ~ row_above row) ->
  otf.truthy (otf.punchout_d o) = true ->
  exists rows,
    otf.is_std_in_bound o1 = (Ok (false, []), o1) /\
    otf.loop_body o = (Raise ValueError, recorded o1 rows).
Proof.
  intros Hpred Hshape Hex Hrows Hp.
  assert (Hstd : otf.is_std_in_bound o1 = (Ok (false, []), o1)).
  { unfold otf.is_std_in_bound, otf.bind, otf.get, otf.lift, std_in_bound.
    destruct (stds (otf.structure o1)) as [|row a] eqn:Ea.
    { by apply Exists_nil in Hex. }
    destruct (nanmax_geb row a) as (m & Hm & Hg).
    rewrite Hm. cbn [res_bind]. rewrite Hg.
    apply existsb_Exists in Hex. rewrite Hex.
    replace (problem_loop 0 (row :: a) []) with (@nil nat); [done|].
    symmetry. apply elem_of_nil_inv. intros k Hk.
    apply problem_loop_elem in Hk as [Hk | (r & _ & Hl & Hr)].
    - by apply elem_of_nil in Hk.
    - rewrite Nat.sub_0_r in Hl. apply (Hrows r).
      + by eapply list_elem_of_lookup_2.
      + by apply np_max_geb. }
  destruct (write_config_ok o1 Hshape) as [rows Hw].
  exists rows. split; [done|].
  assert (Hp1 : otf.punchout_d (recorded o1 rows) = otf.punchout_d o).
  { cbn. eapply keeps_at; [|exact Hpred].
    apply keeps_predict_on_structure, setting_punchout_d. }
  unfold otf.loop_body, otf.bind at 1. rewrite Hpred.
  unfold otf.bind at 1. rewrite Hstd. cbn [negb].
  unfold otf.bind at 1. rewrite Hw.
  unfold otf.bind at 1, otf.get at 1. rewrite Hp1, Hp.
  reflexivity.
Qed.

(** X3. [run] on a structure without atoms, with a step to do, raises
    [ValueError] in either mode.  Without punch-out the first call of
    [run_and_train] goes through, with the oracle queried on the empty
    structure and the surrogate retrained, and the first turn fails in
    [np.nanmax] of the empty array; in punch-out mode, with no training
    structure yet, [np.random.randint(0, 0)] fails before the oracle is
    queried.  The clock and the structure are as before. *)
Theorem run_without_atoms (o : otf.OTF) (fuel : nat) :
  positions (otf.structure o) = [] -> stds (otf.structure o) = [] ->
  otf.curr_step o < otf.Nsteps o ->
  otf.punchout_d o = None \/ otf.train_structure o = None ->
  exists o',
    otf.run (S fuel) o = (Raise ValueError, o') /\
    otf.curr_step o' = otf.curr_step o /\
    otf.structure o' = otf.structure o /\
    otf.gp o' =
      match otf.punchout_d o with
      | None =>
          otf.train
            (otf.update_db (otf.gp o) (otf.structure o)
               (otf.run_espresso (otf.qe_input o) (otf.structure o)))
      | Some _ => otf.gp o
      end.
Proof.
  intros Hpos Hstds Hlt Hmode.
  destruct (otf.punchout_d o) as [d|] eqn:Hd.
  - destruct Hmode as [?|Ht]; [done|].
    unfold otf.train_structure in Ht.
    destruct (otf.train_referent o) eqn:Hr; [done|].
    eexists. split; [|split; [|split]].
    + unfold otf.run, otf.run_and_train, otf.write_to_output, otf.randint,
        otf.train_structure, otf.bind, otf.get, otf.lift, otf.modify,
        otf.ret.
      cbn. rewrite Hd, Hr. unfold nat_of. rewrite Hpos. cbn. reflexivity.
    + reflexivity.
    + reflexivity.
    + reflexivity.
  - assert (Hboot : otf.run_and_train None o = (Ok tt, trained o [])).
    { unfold otf.run_and_train, otf.write_to_output, otf.bind, otf.get,
        otf.lift, otf.modify, otf.ret.
      cbn. rewrite Hd. cbn. unfold nat_of. rewrite Hpos. cbn.
      unfold trained. f_equal. apply OTF_ext; try reflexivity.
      cbn. by rewrite <- !app_assoc. }
    exists (trained o []). split; [|by repeat split].
    unfold otf.run, otf.bind at 1. rewrite Hboot.
    cbn [otf.main_loop].
    replace (otf.curr_step (trained o []) <? otf.Nsteps (trained o []))
      with true by (symmetry; apply Z.ltb_lt; exact Hlt).
    unfold otf.bind at 1, otf.loop_body, otf.bind at 1,
      otf.predict_on_structure, otf.bind at 1, otf.get at 1.
    replace (nat_of (otf.structure (trained o []))) with 0%nat
      by (unfold nat_of; cbn; by rewrite Hpos).
    cbn [seq otf.for_ otf.ret].
    unfold otf.bind at 1, otf.is_std_in_bound, otf.bind, otf.get, otf.lift.
    replace (stds (otf.structure (trained o []))) with (@nil vec3)
      by (cbn; by rewrite Hstds).
    reflexivity.
Qed.

End ProblemAtoms.

(** ** The prediction, row by row *)

Section Prediction.
Context `{libm : Libm} `{otf.Collaborators}.

Lemma predict_atom_rows (o : otf.OTF) (F D : list vec3) (n : nat)
    (rf rs : vec3) :
  F !! n = Some rf -> D !! n = Some rs ->
  let e := otf.ChemicalEnvironment (otf.structure (predicted o F D)) n in
  otf.for_ (seq 0 3) (otf.predict_component e n) (predicted o F D) =
  (Ok tt, predicted o (<[n := force_row (otf.gp o) e]> F)
            (<[n := std_row (otf.gp o) e]> D)).
Proof.
  intros HF HD e.
  set (p := fun i => otf.predict (otf.gp o) e (i + 1)).
  set (sd := fun i => F64.sqrt (F64.abs (snd (p i)))).
  assert (Hn : (n < length F)%nat) by by eapply lookup_lt_Some.
  assert (Hn' : (n < length D)%nat) by by eapply lookup_lt_Some.
  set (rf1 := V3 (fst (p 0%nat)) (c1 rf) (c2 rf)).
  set (rs1 := V3 (sd 0%nat) (c1 rs) (c2 rs)).
  set (rf2 := V3 (fst (p 0%nat)) (fst (p 1%nat)) (c2 rf)).
  set (rs2 := V3 (sd 0%nat) (sd 1%nat) (c2 rs)).
  change (seq 0 3) with [0; 1; 2]%nat. cbn [otf.for_].
  unfold otf.bind at 1.
  rewrite (predict_component_ok o F D e n 0 rf rs rf1 rs1); [|done..].
  unfold otf.bind at 1.
  rewrite (predict_component_ok o (<[n := rf1]> F) (<[n := rs1]> D)
             e n 1 rf1 rs1 rf2 rs2);
    [|by apply list_lookup_insert_eq..|done|done].
  unfold otf.bind at 1.
  rewrite (predict_component_ok o (<[n := rf2]> (<[n := rf1]> F))
             (<[n := rs2]> (<[n := rs1]> D)) e n 2 rf2 rs2
             (force_row (otf.gp o) e) (std_row (otf.gp o) e));
    [|apply list_lookup_insert_eq; by rewrite length_insert..|done|done].
  by rewrite !list_insert_insert_eq.
Qed.

Lemma predict_loop_rows (o : otf.OTF) :
  let s := otf.structure o in
  forall (n k : nat) (F D : list vec3),
    (k + n <= length (forces s))%nat -> (k + n <= length (stds s))%nat ->
    rows_below (otf.gp o) s k F D ->
    exists F' D',
      otf.for_ (seq k n)
        (fun n => otf.bind otf.get (fun o =>
           let chemenv := otf.ChemicalEnvironment (otf.structure o) n in
           otf.for_ (seq 0 3) (otf.predict_component chemenv n)))
        (predicted o F D) = (Ok tt, predicted o F' D') /\
      rows_below (otf.gp o) s (k + n) F' D'.
Proof.
  intros s. induction n as [|n IH]; intros k F D HkF HkD Hinv.
  - exists F, D. rewrite Nat.add_0_r. done.
  - destruct Hinv as (HlF & HlD & Hge & Hlt).
    destruct (lookup_lt_is_Some_2 F k) as [rf Hrf]; [lia|].
    destruct (lookup_lt_is_Some_2 D k) as [rs Hrs]; [lia|].
    pose proof (predict_atom_rows o F D k rf rs Hrf Hrs) as Hatom.
    cbv zeta in Hatom.
    set (e := otf.ChemicalEnvironment (otf.structure (predicted o F D)) k)
      in *.
    destruct (IH (S k) (<[k := force_row (otf.gp o) e]> F)
                (<[k := std_row (otf.gp o) e]> D))
      as (F' & D' & Hrest & Hinv'); [lia|lia| |].
    { unfold rows_below. rewrite !length_insert.
      split; [done|]. split; [done|]. split.
      - intros j Hj. rewrite !list_lookup_insert_ne by lia. apply Hge. lia.
      - intros j Hj. destruct (decide (j = k)) as [-> | Hne].
        + exists (otf.structure (predicted o F D)).
          split; [by repeat split|].
          rewrite !list_lookup_insert_eq by lia. done.
        + rewrite !list_lookup_insert_ne by lia. apply Hlt. lia. }
    exists F', D'. split.
    + change (seq k (S n)) with (k :: seq (S k) n). cbn [otf.for_].
      unfold otf.bind at 1. unfold otf.bind at 1. unfold otf.get at 1.
      cbv zeta. fold e. rewrite Hatom. exact Hrest.
    + by replace (k + S n)%nat with (S k + n)%nat by lia.
Qed.

(** [predict_on_structure], row by row. *)
Lemma predict_on_structure_rows (o : otf.OTF) :
  let s := otf.structure o in
  (length (positions s) <= length (forces s))%nat ->
  (length (positions s) <= length (stds s))%nat ->
  exists F D,
    otf.predict_on_structure o = (Ok tt, predicted o F D) /\
    rows_below (otf.gp o) s (length (positions s)) F D.
Proof.
  intros s HlF HlD. subst s.
  destruct (predict_loop_rows o (length (positions (otf.structure o))) 0%nat
              (forces (otf.structure o)) (stds (otf.structure o)))
    as (F & D & Hrun & Hinv); [simpl; lia..| |].
  { split; [done|]. split; [done|]. split; [done|]. intros; lia. }
  rewrite predicted_id in Hrun. cbn [Nat.add] in *.
  exists F, D. split; [|done].
  unfold otf.predict_on_structure, otf.bind at 1, otf.get at 1.
  exact Hrun.
Qed.

End Prediction.

Section SignOfRounding.

(** Rounding keeps the sign it is given: the result is a NaN or has it. *)
Lemma binary_round_aux_sign (sx : bool) (mx ex : Z) (lx : location) :
  match binary_round_aux 53 1024 sx mx ex lx with
  | S754_zero s | S754_infinity s | S754_finite s _ _ => s = sx
  | S754_nan => True
  end.
Proof.
  unfold binary_round_aux.
  destruct (shr_fexp 53 1024 mx ex lx) as [mrs' e'].
  destruct (shr_fexp 53 1024 _ e' loc_Exact) as [mrs'' e''].
  destruct (shr_m mrs''); [done| |done].
  by destruct (e'' <=? 1024 - 53).
Qed.

(** A standard deviation the engine stores is never below zero. *)
Lemma sqrt_abs_not_negative (v : float) :
  F64.ltb (F64.sqrt (F64.abs v)) F64.zero = false.
Proof.
  destruct v as [s|s| |s m e]; try reflexivity.
  unfold F64.sqrt, F64.abs, SFabs, SFsqrt, F64.prec, F64.emax.
  destruct (SFsqrt_core_binary 53 1024 (Z.pos m) e) as [[mz ez] lz].
  pose proof (binary_round_aux_sign false mz ez lz) as Hs.
  destruct (binary_round_aux 53 1024 false mz ez lz); subst; reflexivity.
Qed.

End SignOfRounding.

Section PredictionSpec.
Context `{libm : Libm} `{otf.Collaborators}.

(** X4. On a structure with a row of forces and of standard deviations
    for each of its [n] atoms, [predict_on_structure] returns and changes
    nothing but these two arrays.  Row [j < n] of the forces holds the
    forces, and row [j] of the deviations the square roots of the absolute
    variances, that the surrogate of the object predicts for the directions
    1, 2 and 3 in one environment of atom [j], built on a structure with
    the same positions, labels, masses and cell; rows from [n] on are as
    they were; and no deviation written is below zero. *)
Theorem predict_on_structure_overwrites (o : otf.OTF) :
  let s := otf.structure o in
  let n := length (positions s) in
  (n <= length (forces s))%nat -> (n <= length (stds s))%nat ->
  exists F D,
    otf.predict_on_structure o = (Ok tt, predicted o F D) /\
    length F = length (forces s) /\ length D = length (stds s) /\
    (forall j, (j < n)%nat ->
       exists s', same_atoms s' s /\
         F !! j = Some (force_row (otf.gp o) (otf.ChemicalEnvironment s' j)) /\
         D !! j = Some (std_row (otf.gp o) (otf.ChemicalEnvironment s' j))) /\
    (forall j, (n <= j)%nat ->
       F !! j = forces s !! j /\ D !! j = stds s !! j) /\
    (forall j row x, (j < n)%nat -> D !! j = Some row ->
       x ∈ components row -> F64.ltb x F64.zero = false).
Proof.
  intros s n HlF HlD. subst s n.
  destruct (predict_on_structure_rows o HlF HlD)
    as (F & D & Hrun & HF & HD & Hge & Hlt).
  exists F, D. repeat split; try done; try (by apply Hge).
  intros j row x Hj Hrow Hx.
  destruct (Hlt j Hj) as (s' & _ & _ & HDj).
  rewrite HDj in Hrow. injection Hrow as <-.
  unfold std_row, components in Hx. set_unfold in Hx.
  destruct Hx as [-> | [-> | [-> | []]]]; apply sqrt_abs_not_negative.
Qed.

End PredictionSpec.

(** ** The frame written, all or nothing *)

Section Collect.

(** [collect] returns the results in order, if every call returns. *)
Lemma collect_Forall2 {A} (f : nat -> res A) (idx : list nat) (xs : list A) :
  otf.collect f idx = Ok xs <-> Forall2 (fun i x => f i = Ok x) idx xs.
Proof.
  revert xs. induction idx as [|i idx IH]; intros xs; cbn [otf.collect].
  - split; [intros [= <-]; constructor|]. intros Hx. by inversion Hx.
  - split.
    + intros Hc. destruct (f i) as [x|] eqn:Ei; [|done]. cbn in Hc.
      destruct (otf.collect f idx) as [ys|] eqn:Ec; [|done]. cbn in Hc.
      injection Hc as <-. constructor; [done|]. by apply IH.
    + intros Hx. inversion Hx as [|? x ? ys Hi Hrest]; subst.
      rewrite Hi. cbn. apply IH in Hrest. by rewrite Hrest.
Qed.

(** It raises what the first failing call raises. *)
Lemma collect_Raise {A} (f : nat -> res A) (idx : list nat) (e : exn) :
  (forall i e', i ∈ idx -> f i = Raise e' -> e' = e) ->
  (exists i, i ∈ idx /\ forall x, f i <> Ok x) ->
  otf.collect f idx = Raise e.
Proof.
  induction idx as [|i idx IH]; intros Hall (j & Hj & Hfail).
  - by apply elem_of_nil in Hj.
  - cbn [otf.collect]. destruct (f i) as [x|e'] eqn:Ei.
    + cbn. rewrite IH; [done| |].
      * intros k e' Hk. apply Hall. by right.
      * apply elem_of_cons in Hj as [-> | Hj]; [by destruct (Hfail x)|eauto].
    + cbn. f_equal. apply (Hall i); [left|done].
Qed.

End Collect.

Section WriteConfig.
Context `{libm : Libm} `{otf.Collaborators}.

Lemma config_row_Ok (s : Structure) (i : nat)
    (r : string * vec3 * vec3 * vec3) :
  otf.config_row s i = Ok r <->
  species s !! i = Some r.1.1.1 /\ positions s !! i = Some r.1.1.2 /\
  forces s !! i = Some r.1.2 /\ stds s !! i = Some r.2.
Proof.
  destruct r as [[[label pos] frc] std]. unfold otf.config_row. cbn. split.
  - intros Hr. res_inv. by rewrite <- !py_index_Ok.
  - intros (H1 & H2 & H3 & H4). apply py_index_Ok in H1, H2, H3, H4.
    by rewrite H1, H2, H3, H4.
Qed.

Lemma config_row_Raise (s : Structure) (i : nat) (e : exn) :
  otf.config_row s i = Raise e -> e = IndexError.
Proof.
  unfold otf.config_row, py_index.
  destruct (species s !! i); [|by intros [= <-]].
  destruct (positions s !! i); [|by intros [= <-]].
  destruct (forces s !! i); [|by intros [= <-]].
  destruct (stds s !! i); [done|by intros [= <-]].
Qed.

(** X5. [write_config] writes a whole frame or nothing.  If the labels,
    the forces and the standard deviations have a row for each of the [n]
    positions, it appends one entry to the output, with the clock, the time
    step and, for each atom in order, its label, position, force and
    standard deviations, and changes nothing else; if one of the three
    arrays is shorter, it raises [IndexError] and the object, output
    included, is as before. *)
Theorem write_config_all_or_nothing (o : otf.OTF) :
  let s := otf.structure o in
  let n := length (positions s) in
  if decide (n <= length (species s) /\ n <= length (forces s) /\
             n <= length (stds s))%nat
  then exists rows,
    otf.write_config o = (Ok tt, recorded o rows) /\
    length rows = n /\
    forall i row, rows !! i = Some row ->
      species s !! i = Some row.1.1.1 /\ positions s !! i = Some row.1.1.2 /\
      forces s !! i = Some row.1.2 /\ stds s !! i = Some row.2
  else otf.write_config o = (Raise IndexError, o).
Proof.
  intros s n. subst n.
  destruct (decide _) as [(Hsp & Hf & Hd) | Hshort].
  - destruct (collect_Ok (otf.config_row s) (seq 0 (length (positions s))))
      as [rows Hrows].
    { intros i Hi. apply elem_of_seq in Hi. unfold otf.config_row.
      destruct (py_index_lt (species s) i) as [? ->]; [lia|].
      destruct (py_index_lt (positions s) i) as [? ->]; [lia|].
      destruct (py_index_lt (forces s) i) as [? ->]; [lia|].
      destruct (py_index_lt (stds s) i) as [? ->]; [lia|].
      simpl. eauto. }
    exists rows. split; [|split].
    + unfold otf.write_config, otf.bind, otf.get, otf.lift. fold s.
      by rewrite Hrows.
    + apply collect_Forall2, Forall2_length in Hrows.
      by rewrite length_seq in Hrows.
    + intros i row Hrow. apply collect_Forall2 in Hrows.
      destruct (Forall2_lookup_r _ _ _ _ _ Hrows Hrow) as (j & Hj & Hok).
      apply lookup_seq in Hj as [-> _]. by apply config_row_Ok.
  - unfold otf.write_config, otf.bind, otf.get, otf.lift. fold s.
    rewrite (collect_Raise _ _ IndexError); [done| |].
    + intros i e' _. apply config_row_Raise.
    + assert (exists i, (i < length (positions s))%nat /\
                (length (species s) <= i \/ length (forces s) <= i \/
                 length (stds s) <= i)%nat) as (i & Hi & Hout).
      { destruct (decide (length (positions s) <= length (species s))%nat);
          [|exists (length (species s)); lia].
        destruct (decide (length (positions s) <= length (forces s))%nat);
          [|exists (length (forces s)); lia].
        exists (length (stds s)). lia. }
      exists i. split; [apply elem_of_seq; lia|].
      intros [[[label pos] frc] std] Hok. apply config_row_Ok in Hok.
      cbn in Hok. destruct Hok as (H1 & _ & H3 & H4).
      apply lookup_lt_Some in H1, H3, H4. lia.
Qed.

End WriteConfig.

(** ** A step that stops half way *)

Section MissingMass.
Context `{libm : Libm} `{otf.Collaborators}.

Lemma update_row_ready (o : otf.OTF) (dtdt : float) (k : nat)
    (P Q : list vec3) :
  let s := otf.structure o in
  length (prev_positions s) = length (positions s) ->
  length (forces s) = length (positions s) ->
  is_Some (mass_of s k) ->
  (k < length (positions s))%nat ->
  updated_below s dtdt k P Q ->
  exists P' Q',
    otf.update_row dtdt k (moved o P Q) = (Ok tt, moved o P' Q') /\
    updated_below s dtdt (S k) P' Q'.
Proof.
  intros s Hprev Hfrc [mass Hm] Hk (HlP & HlQ & Hge & Hlt & Hnew).
  destruct (Hge k) as [HPk HQk]; [lia|].
  destruct (lookup_lt_is_Some_2 (positions s) k) as [pos Hpos]; [lia|].
  destruct (lookup_lt_is_Some_2 (prev_positions s) k) as [pre Hpre]; [lia|].
  destruct (lookup_lt_is_Some_2 (forces s) k) as [frc Hf]; [lia|].
  pose proof Hm as Hm'. unfold mass_of in Hm'.
  destruct (species s !! k) as [label|] eqn:El; [|done]. simpl in Hm'.
  exists (<[k := md.verlet dtdt mass pos pre frc]> P), (<[k := pos]> Q).
  split.
  - unfold otf.update_row, otf.bind, otf.get, otf.lift, otf.modify, moved.
    cbn. fold s. unfold py_index, py_getitem.
    rewrite HQk, Hpre, HPk, Hpos, El, Hm', Hf. reflexivity.
  - unfold updated_below. rewrite !length_insert.
    split; [done|]. split; [done|]. split; [|split].
    + intros i Hi. rewrite !list_lookup_insert_ne by lia. apply Hge. lia.
    + intros i Hi. destruct (decide (i = k)) as [-> | Hne].
      * rewrite list_lookup_insert_eq by lia. done.
      * rewrite list_lookup_insert_ne by lia. apply Hlt. lia.
    + intros i pos' pre' frc' mass' Hi Hp1 Hp2 Hp3 Hp4.
      destruct (decide (i = k)) as [-> | Hne].
      * rewrite list_lookup_insert_eq by lia. congruence.
      * rewrite list_lookup_insert_ne by lia. apply Hnew; [lia|done..].
Qed.

(** X6. [update_positions] of the engine is not all or nothing.  For a
    time step the C library squares to [dtdt]: if atom [k] is the first
    whose label has no mass, the call raises [KeyError] and leaves the
    structure half way: the atoms below [k] have moved, each to its Verlet
    position, and their previous positions are their old positions; atom
    [k] and the atoms after it are where they were. *)
Theorem update_positions_stops_at_missing_mass (o : otf.OTF) (dtdt : float)
    (k : nat) (label : string) :
  let s := otf.structure o in
  length (prev_positions s) = length (positions s) ->
  length (forces s) = length (positions s) ->
  squares_to (otf.dt o) dtdt ->
  (forall i, (i < k)%nat -> is_Some (mass_of s i)) ->
  (k < length (positions s))%nat ->
  species s !! k = Some label -> mass_dict s !! label = None ->
  exists P Q,
    otf.update_positions o = (Raise KeyError, moved o P Q) /\
    updated_below s dtdt k P Q.
Proof.
  intros s Hprev Hfrc Hsq Hmass Hk Hlabel Hnone.
  apply squares_to_py_sq in Hsq.
  assert (Hloop : forall (n k0 : nat) (P Q : list vec3),
             (k0 <= k < k0 + n)%nat ->
             updated_below s dtdt k0 P Q ->
             exists P' Q',
               otf.for_ (seq k0 n) (otf.update_row dtdt) (moved o P Q) =
                 (Raise KeyError, moved o P' Q') /\
               updated_below s dtdt k P' Q').
  { induction n as [|n IH]; intros k0 P Q Hk0 Hinv; [lia|].
    cbn [seq otf.for_]. destruct (decide (k0 = k)) as [-> | Hne].
    - exists P, Q. split; [|done].
      destruct Hinv as (HlP & HlQ & Hge & _).
      destruct (Hge k) as [HPk HQk]; [lia|].
      destruct (lookup_lt_is_Some_2 (positions s) k) as [pos Hpos]; [lia|].
      destruct (lookup_lt_is_Some_2 (prev_positions s) k) as [pre Hpre];
        [lia|].
      unfold otf.bind at 1.
      unfold otf.update_row, otf.bind, otf.get, otf.lift, otf.modify, moved.
      cbn. fold s. unfold py_index, py_getitem.
      rewrite HQk, Hpre, HPk, Hpos, Hlabel, Hnone. reflexivity.
    - destruct (update_row_ready o dtdt k0 P Q) as (P1 & Q1 & Hstep & Hinv1);
        [done|done|apply Hmass; lia|fold s; lia|done|].
      destruct (IH (S k0) P1 Q1) as (P' & Q' & Hrest & Hinv'); [lia|done|].
      exists P', Q'. split; [|done].
      unfold otf.bind at 1. by rewrite Hstep. }
  destruct (Hloop (length (positions s)) 0%nat (positions s)
              (prev_positions s)) as (P & Q & Hrun & Hinv); [lia| |].
  { split; [done|]. split; [done|]. split; [done|]. split; intros; lia. }
  exists P, Q. split; [|done]. subst s. rewrite moved_id in Hrun.
  unfold otf.update_positions, otf.bind, otf.get, otf.lift.
  rewrite Hsq, Hprev. exact Hrun.
Qed.

End MissingMass.

(** ** What [run] never changes *)

Section Setup.
Context `{libm : Libm} `{otf.Collaborators}.

Ltac frame_by tac :=
  repeat first
    [ apply keeps_ret | apply keeps_get | apply keeps_lift
    | apply keeps_modify; intros; tac
    | apply keeps_for; intros
    | apply keeps_bind; [|intros]
    | match goal with
      | |- keeps _ (let '(_, _) := ?p in _) => destruct p
      | |- keeps _ (match ?x with _ => _ end) => destruct x
      end ].

Section Fixed.
Context {X : Type} (f : otf.OTF -> X) (Hf : fixed f).

Lemma keeps_loop_body : keeps f otf.loop_body.
Proof.
  pose proof (fixed_untouched f Hf) as Hu.
  unfold otf.loop_body, otf.predict_on_structure, otf.predict_component,
    otf.is_std_in_bound, otf.write_config, otf.write_to_output,
    otf.choice, otf.randint, otf.update_positions, otf.update_row.
  frame_by ltac:(first
    [ apply (keeps_run_and_train f Hu)
    | apply (untouched_gp _ Hu) | apply (untouched_train _ Hu)
    | apply (untouched_out _ Hu) | apply (untouched_random _ Hu)
    | apply (fixed_clock _ Hf) | apply (fixed_forces _ Hf)
    | apply (fixed_stds _ Hf) | apply (fixed_positions _ Hf)
    | apply (fixed_prev_positions _ Hf) ]).
  all: try apply (keeps_run_and_train f Hu).
Qed.

Lemma keeps_main_loop (fuel : nat) : keeps f (otf.main_loop fuel).
Proof.
  induction fuel as [|fuel IH]; intros o; cbn [otf.main_loop];
    destruct (otf.curr_step o <? otf.Nsteps o); try done.
  revert o. change (keeps f (otf.bind otf.loop_body (fun t =>
    otf.bind (otf.main_loop fuel) (fun r => otf.ret (fst r, t :: snd r))))).
  apply keeps_bind; [apply keeps_loop_body|]. intros t.
  apply keeps_bind; [done|]. intros r. apply keeps_ret.
Qed.

Lemma keeps_run (fuel : nat) : keeps f (otf.run fuel).
Proof.
  unfold otf.run. apply keeps_bind.
  - apply keeps_run_and_train, Hf.
  - intros _. apply keeps_main_loop.
Qed.

End Fixed.

Ltac fixed_field :=
  repeat split; intros; cbn; rewrite ?length_insert; reflexivity.

(** X7. However long [run] goes on and however it ends, with a result or
    with an exception, it leaves its setup alone: the input file name, the
    time step, the number of steps, the cutoff and the punch-out distance
    of the object, the labels, masses and cell of its structure, and the
    number of positions and of previous positions. *)
Theorem run_keeps_setup (fuel : nat) (o : otf.OTF) :
  let o' := snd (otf.run fuel o) in
  (otf.qe_input o' = otf.qe_input o /\ otf.dt o' = otf.dt o /\
   otf.Nsteps o' = otf.Nsteps o /\ otf.cutoff o' = otf.cutoff o /\
   otf.punchout_d o' = otf.punchout_d o) /\
  (species (otf.structure o') = species (otf.structure o) /\
   mass_dict (otf.structure o') = mass_dict (otf.structure o) /\
   cell (otf.structure o') = cell (otf.structure o)) /\
  length (positions (otf.structure o')) =
    length (positions (otf.structure o)) /\
  length (prev_positions (otf.structure o')) =
    length (prev_positions (otf.structure o)).
Proof.
  intros o'. subst o'. repeat split.
  - apply (keeps_run otf.qe_input). fixed_field.
  - apply (keeps_run otf.dt). fixed_field.
  - apply (keeps_run otf.Nsteps). fixed_field.
  - apply (keeps_run otf.cutoff). fixed_field.
  - apply (keeps_run otf.punchout_d). fixed_field.
  - apply (keeps_run (fun o => species (otf.structure o))). fixed_field.
  - apply (keeps_run (fun o => mass_dict (otf.structure o))). fixed_field.
  - apply (keeps_run (fun o => cell (otf.structure o))). fixed_field.
  - apply (keeps_run (fun o => length (positions (otf.structure o)))).
    fixed_field.
  - apply (keeps_run (fun o => length (prev_positions (otf.structure o)))).
    fixed_field.
Qed.

End Setup.

(** ** The output of a run *)

Section Log.
Context `{libm : Libm} `{otf.Collaborators}.

Lemma keeps_out_randint (n : nat) : keeps otf.otf_run_out (otf.randint n).
Proof.
  unfold otf.randint. destruct (decide _); [apply keeps_lift|].
  apply keeps_bind; [apply keeps_get|]. intros o.
  destruct (otf.draw _ _). apply keeps_bind; [by apply keeps_modify|].
  intros _. apply keeps_ret.
Qed.

Lemma keeps_out_choice (l : list nat) : keeps otf.otf_run_out (otf.choice l).
Proof.
  unfold otf.choice. apply keeps_bind; [apply keeps_out_randint|].
  intros k. apply keeps_lift.
Qed.

Lemma keeps_out_predict_on_structure :
  keeps otf.otf_run_out otf.predict_on_structure.
Proof.
  unfold otf.predict_on_structure, otf.predict_component.
  repeat first
    [ apply keeps_ret | apply keeps_get | apply keeps_lift
    | apply keeps_modify; intros; reflexivity
    | apply keeps_for; intros
    | apply keeps_bind; [|intros]
    | match goal with
      | |- keeps _ (let '(_, _) := ?p in _) => destruct p
      end ].
Qed.

Lemma keeps_out_update_positions :
  keeps otf.otf_run_out otf.update_positions.
Proof.
  unfold otf.update_positions, otf.update_row.
  repeat first
    [ apply keeps_ret | apply keeps_get | apply keeps_lift
    | apply keeps_modify; intros; reflexivity
    | apply keeps_for; intros
    | apply keeps_bind; [|intros] ].
Qed.

Lemma write_config_log (o o' : otf.OTF) :
  otf.write_config o = (Ok tt, o') ->
  exists rows, o' = recorded o rows.
Proof.
  unfold otf.write_config, otf.bind, otf.get, otf.lift.
  destruct (otf.collect _ _) as [rows|]; [|done].
  intros [= <-]. by exists rows.
Qed.

(** What a call of [run_and_train] that returns has appended. *)
Lemma run_and_train_log (target : option nat) (o o' : otf.OTF) :
  otf.run_and_train target o = (Ok tt, o') ->
  exists new,
    otf.otf_run_out o' = otf.otf_run_out o ++ new /\
    kind_of <$> new = training_kinds.
Proof.
  unfold otf.run_and_train. intros Hb.
  bind_step Hb u1 o1 E1. injection E1 as _ <-.
  bind_step Hb og o2 E2. injection E2 as <- <-.
  bind_step Hb t o3 E3.
  assert (Ho3 : otf.otf_run_out o3 =
                otf.otf_run_out o ++
                [otf.Text ("====================" ++ otf.newline ++
                           "Calling QE... ")]).
  { destruct (otf.punchout_d _).
    - bind_step E3 tgt o4 E4. injection E3 as _ <-.
      destruct (otf.train_structure _).
      + by injection E4 as _ <-.
      + bind_step E4 k o5 E5. injection E4 as _ <-.
        by rewrite (keeps_at _ _ _ _ _ (keeps_out_randint _) E5).
    - by injection E3 as _ <-. }
  bind_step Hb u4 o4 E4. injection E4 as _ <-.
  bind_step Hb u5 o5 E5. injection E5 as _ <-.
  bind_step Hb rows o6 E6. injection E6 as _ <-.
  bind_step Hb u7 o7 E7. injection E7 as _ <-.
  bind_step Hb u8 o8 E8. injection E8 as _ <-.
  bind_step Hb u9 o9 E9. injection E9 as _ <-.
  bind_step Hb u10 o10 E10. injection E10 as _ <-.
  bind_step Hb og' o11 E11. injection E11 as <- <-.
  injection Hb as <-. cbn. rewrite Ho3, <- !app_assoc. cbn.
  eexists. split; [reflexivity|reflexivity].
Qed.

(** What a turn of the loop that returns has appended. *)
Lemma loop_body_log (o o' : otf.OTF) (t : otf.transition) :
  otf.loop_body o = (Ok t, o') ->
  exists new,
    otf.otf_run_out o' = otf.otf_run_out o ++ new /\
    kind_of <$> new =
      KConfig (otf.curr_step o) ::
      match t with otf.Correct => training_kinds | otf.Integrate => [] end.
Proof.
  unfold otf.loop_body. intros Hb.
  bind_step Hb u1 o1 E1. destruct u1.
  pose proof (keeps_at _ _ _ _ _ keeps_out_predict_on_structure E1) as L1.
  pose proof (keeps_at _ _ _ _ _
                (keeps_predict_on_structure _ setting_curr_step) E1) as C1.
  bind_step Hb r o2 E2. destruct r as [b P].
  pose proof (is_std_in_bound_pure _ _ _ E2) as ->.
  destruct b; cbn [negb] in Hb.
  - bind_step Hb u3 o3 E3. destruct u3.
    apply write_config_log in E3 as [rows ->].
    bind_step Hb u4 o4 E4.
    pose proof (keeps_at _ _ _ _ _ keeps_out_update_positions E4) as L4.
    unfold otf.bind, otf.modify, otf.ret in Hb. injection Hb as <- <-.
    cbn. rewrite L4. cbn. rewrite L1, C1.
    eexists. split; reflexivity.
  - bind_step Hb u3 o3 E3. destruct u3.
    apply write_config_log in E3 as [rows ->].
    bind_step Hb og o4 E4. injection E4 as <- <-.
    bind_step Hb tgt o5 E5.
    assert (L5 : otf.otf_run_out o5 =
                 otf.otf_run_out (recorded o1 rows)).
    { destruct (otf.truthy _).
      - bind_step E5 k o6 E6. injection E5 as _ <-.
        eapply keeps_at; [apply keeps_out_choice|exact E6].
      - by injection E5 as _ <-. }
    bind_step Hb u6 o6 E6. destruct u6.
    apply run_and_train_log in E6 as (new & L6 & K6).
    injection Hb as <- <-.
    rewrite L6, L5. cbn. rewrite L1, C1, <- app_assoc.
    eexists. split; [reflexivity|]. cbn. by rewrite K6.
Qed.

Lemma main_loop_log (fuel : nat) :
  forall (o o' : otf.OTF) (b : bool) (ts : list otf.transition),
    otf.main_loop fuel o = (Ok (b, ts), o') ->
    (exists new,
       otf.otf_run_out o' = otf.otf_run_out o ++ new /\
       kind_of <$> new = turns_kinds (otf.curr_step o) ts) /\
    otf.curr_step o' = otf.curr_step o + integrations ts /\
    otf.Nsteps o' = otf.Nsteps o /\
    (if b
     then otf.Nsteps o <= otf.curr_step o' /\
          (ts <> [] -> otf.curr_step o' = otf.Nsteps o /\
                       last ts = Some otf.Integrate)
     else otf.curr_step o' < otf.Nsteps o /\ length ts = fuel).
Proof.
  induction fuel as [|fuel IH]; intros o o' b ts Hrun;
    cbn [otf.main_loop] in Hrun;
    destruct (Z.ltb_spec (otf.curr_step o) (otf.Nsteps o)) as [Hlt|Hge].
  - injection Hrun as <- <- <-. split; [exists []; by rewrite app_nil_r|].
    cbn. repeat split; lia.
  - injection Hrun as <- <- <-. split; [exists []; by rewrite app_nil_r|].
    cbn. repeat split; (lia || done).
  - bind_step Hrun t o1 Et. bind_step Hrun r o2 Er. destruct r as [b1 ts1].
    injection Hrun as <- <- <-. cbn [fst snd].
    destruct (loop_body_log _ _ _ Et) as (new1 & L1 & K1).
    destruct (loop_body_clock _ _ _ Et) as (N1 & C1).
    destruct (IH _ _ _ _ Er) as ((new2 & L2 & K2) & C2 & N2 & Hend).
    assert (C1' : otf.curr_step o1 =
                  otf.curr_step o +
                  match t with otf.Correct => 0 | otf.Integrate => 1 end).
    { destruct t; destruct C1 as [C1 _]; lia. }
    split; [|split; [|split]].
    + exists (new1 ++ new2). split; [by rewrite L2, L1, app_assoc|].
      rewrite fmap_app, K1, K2, C1'. destruct t; cbn.
      * rewrite ?Z.add_0_r. reflexivity.
      * reflexivity.
    + rewrite C2, C1'. destruct t; cbn; lia.
    + congruence.
    + destruct b1.
      * destruct Hend as [Hle Hlast]. split; [lia|]. intros _.
        destruct ts1 as [|t1 ts1'].
        -- cbn in C2. destruct t; cbn; [lia|split; [lia|done]].
        -- destruct Hlast as [Heq Hl]; [done|]. split; [lia|].
           by rewrite last_cons, Hl.
      * destruct Hend as [Hlt' Hlen]. split; [lia|]. cbn. by rewrite Hlen.
  - injection Hrun as <- <- <-. split; [exists []; by rewrite app_nil_r|].
    cbn. repeat split; (lia || done).
Qed.

(** X8. The book-keeping of a run that did not fail, whatever the
    surrogate, the oracle and the mode.  The output has grown by the five
    entries of the first call of [run_and_train] and then, turn by turn, by
    one frame with the clock of that turn, followed after a correcting turn
    by the five entries of another call of [run_and_train]; so there is one
    frame per turn, one oracle query per correcting turn besides the first,
    and a correcting turn writes the frame number the next turn writes
    again.  The clock has moved by the number of integrating turns.  When
    the loop is over, the clock is at or above the number of steps, and if
    a turn was taken it is exactly at it and the last turn integrated. *)
Theorem run_log_and_clock (fuel : nat) (o o' : otf.OTF) (b : bool)
    (ts : list otf.transition) :
  otf.run fuel o = (Ok (b, ts), o') ->
  (exists new,
     otf.otf_run_out o' = otf.otf_run_out o ++ new /\
     kind_of <$> new = training_kinds ++ turns_kinds (otf.curr_step o) ts) /\
  otf.curr_step o' = otf.curr_step o + integrations ts /\
  (if b
   then otf.Nsteps o <= otf.curr_step o' /\
        (ts <> [] -> otf.curr_step o' = otf.Nsteps o /\
                     last ts = Some otf.Integrate)
   else otf.curr_step o' < otf.Nsteps o /\ length ts = fuel).
Proof.
  unfold otf.run. intros Hrun.
  bind_step Hrun u o1 Eb. destruct u.
  destruct (run_and_train_log _ _ _ Eb) as (new1 & L1 & K1).
  pose proof (keeps_at _ _ _ _ _
                (keeps_run_and_train _
                   (setting_untouched _ setting_curr_step) None) Eb) as C1.
  pose proof (keeps_at _ _ _ _ _
                (keeps_run_and_train _
                   (setting_untouched _ setting_Nsteps) None) Eb) as N1.
  destruct (main_loop_log _ _ _ _ _ Hrun)
    as ((new2 & L2 & K2) & C2 & N2 & Hend).
  rewrite C1 in *. rewrite N1 in *.
  split; [|split; [done|done]].
  exists (new1 ++ new2). split; [by rewrite L2, L1, app_assoc|].
  by rewrite fmap_app, K1, K2.
Qed.

End Log.

(** ** What the oracle is asked *)

Section Training.
Context `{libm : Libm} `{otf.Collaborators}.

Lemma with_np_random_id (o : otf.OTF) :
  otf.with_np_random (otf.np_random o) o = o.
Proof. by destruct o. Qed.

(** A call of [run_and_train] that returns, in one piece. *)
Lemma run_and_train_inv (target : option nat) (o o' : otf.OTF) :
  otf.run_and_train target o = (Ok tt, o') ->
  exists b r rows,
    let t := otf.referred (otf.structure o) b in
    training_choice o target b r /\
    otf.collect (otf.qe_row t (otf.run_espresso (otf.qe_input o) t))
      (seq 0 (nat_of t)) = Ok rows /\
    o' = retrained o b r rows.
Proof.
  unfold otf.run_and_train. intros Hb.
  bind_step Hb u1 o1 E1. injection E1 as _ <-.
  bind_step Hb og o2 E2. injection E2 as <- <-.
  bind_step Hb b o3 E3.
  set (o1 := otf.with_otf_run_out _ o) in *.
  assert (Ho3 : training_choice o target b (otf.np_random o3) /\
                o3 = otf.with_np_random (otf.np_random o3) o1).
  { unfold training_choice. change (otf.punchout_d o1) with (otf.punchout_d o)
      in E3. destruct (otf.punchout_d o) as [d|].
    - bind_step E3 tgt o4 E4. injection E3 as <- <-.
      change (otf.train_structure o1) with (otf.train_structure o) in E4.
      destruct (otf.train_structure o).
      + injection E4 as <- <-. by rewrite with_np_random_id.
      + bind_step E4 k o5 E5. injection E4 as <- <-.
        unfold otf.randint in E5.
        change (otf.structure o1) with (otf.structure o) in *.
        destruct (decide _) as [|Hn]; [done|].
        unfold otf.bind, otf.get, otf.modify, otf.ret in E5.
        change (otf.np_random o1) with (otf.np_random o) in E5.
        destruct (otf.draw (otf.np_random o) (nat_of (otf.structure o)))
          as [k0 r0] eqn:Ed.
        injection E5 as <- <-. cbn.
        repeat split; try done. apply Nat.mod_upper_bound. done.
    - injection E3 as <- <-. by rewrite with_np_random_id. }
  destruct Ho3 as [Hchoice Ho3].
  bind_step Hb u4 o4 E4. injection E4 as _ <-.
  bind_step Hb u5 o5 E5. injection E5 as _ <-.
  bind_step Hb rows o6 E6.
  unfold otf.lift in E6. injection E6 as E6 <-.
  bind_step Hb u7 o7 E7. injection E7 as _ <-.
  bind_step Hb u8 o8 E8. injection E8 as _ <-.
  bind_step Hb u9 o9 E9. injection E9 as _ <-.
  bind_step Hb u10 o10 E10. injection E10 as _ <-.
  bind_step Hb og' o11 E11. injection E11 as <- <-.
  injection Hb as <-.
  exists b, (otf.np_random o3), rows.
  split; [done|]. split; [done|].
  rewrite Ho3. unfold retrained, o1. apply OTF_ext; try reflexivity.
  cbn. by rewrite <- !app_assoc.
Qed.

(** [np.random.choice] returns an element of the list and touches the
    generator only. *)
Lemma choice_inv (l : list nat) (o o' : otf.OTF) (k : nat) :
  otf.choice l o = (Ok k, o') ->
  k ∈ l /\ exists r, o' = otf.with_np_random r o.
Proof.
  unfold otf.choice, otf.randint. intros Hb.
  bind_step Hb i o1 E1. unfold otf.lift in Hb.
  destruct (py_index l i) as [x|] eqn:Ei; [|done]. injection Hb as -> <-.
  apply py_index_Ok in Ei. split; [by eapply list_elem_of_lookup_2|].
  destruct (decide _); [done|].
  unfold otf.bind, otf.get, otf.modify, otf.ret in E1.
  destruct (otf.draw _ _) as [k0 r0]. injection E1 as _ <-. eauto.
Qed.

(** A correcting turn, step by step. *)
Lemma correct_turn_inv (o o' : otf.OTF) :
  otf.loop_body o = (Ok otf.Correct, o') ->
  exists o1 P rows target o2,
    otf.predict_on_structure o = (Ok tt, o1) /\
    otf.is_std_in_bound o1 = (Ok (false, P), o1) /\
    (if otf.truthy (otf.punchout_d o)
     then exists k r, k ∈ P /\ target = Some k /\
                      o2 = otf.with_np_random r (recorded o1 rows)
     else target = None /\ o2 = recorded o1 rows) /\
    otf.run_and_train target o2 = (Ok tt, o').
Proof.
  unfold otf.loop_body. intros Hb.
  bind_step Hb u1 o1 E1. destruct u1.
  bind_step Hb r o2 E2. destruct r as [b P].
  pose proof (is_std_in_bound_pure _ _ _ E2) as ->.
  destruct b; cbn [negb] in Hb.
  { bind_step Hb u3 o3 E3. bind_step Hb u4 o4 E4.
    unfold otf.bind, otf.modify, otf.ret in Hb. discriminate Hb. }
  bind_step Hb u3 o3 E3. destruct u3.
  apply write_config_log in E3 as [rows ->].
  bind_step Hb og o4 E4. injection E4 as <- <-.
  bind_step Hb tgt o5 E5. bind_step Hb u6 o6 E6. destruct u6.
  injection Hb as <-.
  assert (Hp : otf.punchout_d (recorded o1 rows) = otf.punchout_d o).
  { cbn. eapply keeps_at; [|exact E1].
    apply keeps_predict_on_structure, setting_punchout_d. }
  rewrite Hp in E5.
  exists o1, P, rows, tgt, o5. split; [done|]. split; [done|].
  split; [|done]. destruct (otf.truthy _).
  - bind_step E5 k o7 E7. injection E5 as <- <-.
    apply choice_inv in E7 as [Hk [r ->]]. eauto.
  - by injection E5 as <- <-.
Qed.

(** The prediction leaves the surrogate, the training structure and the
    generator alone, and the positions too; the integration leaves the
    first three. *)
Lemma keeps_training_predict_on_structure :
  keeps (fun o => (otf.gp o, otf.train_referent o, otf.np_random o))
    otf.predict_on_structure.
Proof.
  unfold otf.predict_on_structure, otf.predict_component.
  repeat first
    [ apply keeps_ret | apply keeps_get | apply keeps_lift
    | apply keeps_modify; intros; reflexivity
    | apply keeps_for; intros
    | apply keeps_bind; [|intros]
    | match goal with
      | |- keeps _ (let '(_, _) := ?p in _) => destruct p
      end ].
Qed.

Lemma keeps_positions_predict_on_structure :
  keeps (fun o => (positions (otf.structure o),
                   prev_positions (otf.structure o)))
    otf.predict_on_structure.
Proof.
  unfold otf.predict_on_structure, otf.predict_component.
  repeat first
    [ apply keeps_ret | apply keeps_get | apply keeps_lift
    | apply keeps_modify; intros; reflexivity
    | apply keeps_for; intros
    | apply keeps_bind; [|intros]
    | match goal with
      | |- keeps _ (let '(_, _) := ?p in _) => destruct p
      end ].
Qed.

Lemma keeps_training_update_positions :
  keeps (fun o => (otf.gp o, otf.train_referent o, otf.np_random o))
    otf.update_positions.
Proof.
  unfold otf.update_positions, otf.update_row.
  repeat first
    [ apply keeps_ret | apply keeps_get | apply keeps_lift
    | apply keeps_modify; intros; reflexivity
    | apply keeps_for; intros
    | apply keeps_bind; [|intros] ].
Qed.

(** X9. In punch-out mode every structure the oracle is asked about is
    punched out around an atom of the structure.  The first call of
    [run_and_train], when there is no training structure yet, ignores the
    target it is given and draws an index below the number of atoms; a
    correcting turn of the loop, with a distance that is not zero, punches
    out around an atom it chose among the problem atoms: an atom whose row
    of standard deviations, as the prediction of this turn left it, has no
    NaN and a component at or above the threshold. *)
Theorem punchout_around_problem_atom :
  (forall target o o' d,
     otf.punchout_d o = Some d -> otf.train_structure o = None ->
     otf.run_and_train target o = (Ok tt, o') ->
     exists k,
       (k < length (positions (otf.structure o)))%nat /\
       otf.train_structure o' =
         Some (otf.punchout (otf.structure o) (Some k) d)) /\
  (forall o o' d t0,
     otf.punchout_d o = Some d -> F64.is_zero d = false ->
     otf.train_structure o = Some t0 ->
     otf.loop_body o = (Ok otf.Correct, o') ->
     exists o1 k row,
       otf.predict_on_structure o = (Ok tt, o1) /\
       stds (otf.structure o1) !! k = Some row /\ row_above row /\
       otf.train_structure o' =
         Some (otf.punchout (otf.structure o1) (Some k) d)).
Proof.
  split.
  - intros target o o' d Hd Ht Hrun.
    apply run_and_train_inv in Hrun as (t & r & rows & Hc & _ & ->).
    unfold training_choice in Hc. rewrite Hd, Ht in Hc.
    destruct Hc as (_ & Hk & -> & _). eauto.
  - intros o o' d t0 Hd Hz Ht Hturn.
    apply correct_turn_inv in Hturn
      as (o1 & P & rows & target & o2 & Hpred & Hstd & Htgt & Hrun).
    unfold otf.truthy in Htgt. rewrite Hd, Hz in Htgt. cbn in Htgt.
    destruct Htgt as (k & r & Hk & -> & ->).
    assert (Hrow : exists row, stds (otf.structure o1) !! k = Some row /\
                               row_above row).
    { unfold otf.is_std_in_bound, otf.bind, otf.get, otf.lift,
        std_in_bound in Hstd.
      destruct (np_nanmax _); [|done]. cbn in Hstd.
      destruct (F64.geb _ _); [|done]. injection Hstd as <-.
      apply problem_loop_elem in Hk as [Hk | (row & _ & Hl & Hr)].
      - by apply elem_of_nil in Hk.
      - rewrite Nat.sub_0_r in Hl. exists row. split; [done|].
        by apply np_max_geb. }
    destruct Hrow as (row & Hl & Hr).
    apply run_and_train_inv in Hrun as (t & r' & rows' & Hc & _ & ->).
    pose proof (keeps_at _ _ _ _ _ keeps_training_predict_on_structure Hpred)
      as Hk1. cbn in Hk1. injection Hk1 as _ Ht1 _.
    unfold otf.train_structure in Ht.
    destruct (otf.train_referent o) as [b0|] eqn:Hb0; [|done].
    unfold training_choice, otf.train_structure in Hc. cbn in Hc.
    rewrite (keeps_at _ _ _ _ _
               (keeps_predict_on_structure _ setting_punchout_d) Hpred),
      Hd, Ht1 in Hc. cbn in Hc.
    destruct Hc as [-> _]. exists o1, k, row. done.
Qed.

(** X10. A punch-out distance of zero is a mode of its own.  The loop
    tests the distance for truth and [run_and_train] tests it against
    [None]: with [punchout_d = 0.0] and a training structure in place, a
    correcting turn chooses no atom and does not touch the generator, and
    [run_and_train] then punches out around the target [None]. *)
Theorem zero_punchout_distance (o o' : otf.OTF) (d : float)
    (t0 : Structure) :
  otf.punchout_d o = Some d -> F64.is_zero d = true ->
  otf.train_structure o = Some t0 ->
  otf.loop_body o = (Ok otf.Correct, o') ->
  exists o1,
    otf.predict_on_structure o = (Ok tt, o1) /\
    otf.train_structure o' =
      Some (otf.punchout (otf.structure o1) None d) /\
    otf.np_random o' = otf.np_random o.
Proof.
  intros Hd Hz Ht Hturn.
  apply correct_turn_inv in Hturn
    as (o1 & P & rows & target & o2 & Hpred & Hstd & Htgt & Hrun).
  unfold otf.truthy in Htgt. rewrite Hd, Hz in Htgt. cbn in Htgt.
  destruct Htgt as [-> ->].
  apply run_and_train_inv in Hrun as (t & r' & rows' & Hc & _ & ->).
  pose proof (keeps_at _ _ _ _ _ keeps_training_predict_on_structure Hpred)
    as Hk1. cbn in Hk1. injection Hk1 as _ Ht1 Hr1.
  unfold otf.train_structure in Ht.
  destruct (otf.train_referent o) as [b0|] eqn:Hb0; [|done].
  unfold training_choice, otf.train_structure in Hc. cbn in Hc.
  rewrite (keeps_at _ _ _ _ _
             (keeps_predict_on_structure _ setting_punchout_d) Hpred),
    Hd, Ht1 in Hc. cbn in Hc.
  destruct Hc as [-> ->]. exists o1. split; [done|]. split; [done|].
  exact Hr1.
Qed.

(** X11. An oracle that returns fewer forces than the structure has atoms
    makes [run_and_train] fail in the middle.  Without punch-out, with a
    label per atom: the call raises [IndexError] while it prints the
    forces; the surrogate is as before, neither updated nor retrained, but
    the training structure is already the structure and the output already
    says that the call of the oracle is done. *)
Theorem run_and_train_short_answer (target : option nat) (o : otf.OTF) :
  let s := otf.structure o in
  let frc := otf.run_espresso (otf.qe_input o) s in
  otf.punchout_d o = None ->
  (length (positions s) <= length (species s))%nat ->
  (length frc < length (positions s))%nat ->
  exists o',
    otf.run_and_train target o = (Raise IndexError, o') /\
    otf.gp o' = otf.gp o /\
    otf.train_structure o' = Some s /\
    otf.structure o' = s /\
    otf.otf_run_out o' =
      otf.otf_run_out o ++
      [otf.Text ("====================" ++ otf.newline ++ "Calling QE... ");
       otf.Text ("Done." ++ otf.newline)].
Proof.
  intros s frc Hp Hsp Hshort.
  assert (Hc : otf.collect (otf.qe_row s frc) (seq 0 (nat_of s)) =
               Raise IndexError).
  { apply collect_Raise.
    - intros i e' _. unfold otf.qe_row, py_index.
      destruct (species s !! i); [|by intros [= <-]].
      destruct (positions s !! i); [|by intros [= <-]].
      destruct (frc !! i); [done|by intros [= <-]].
    - exists (length frc). split; [apply elem_of_seq; unfold nat_of; lia|].
      intros x. unfold otf.qe_row, py_index.
      destruct (species s !! _); [|done].
      destruct (positions s !! _); [|done].
      by rewrite (lookup_ge_None_2 frc). }
  eexists. split.
  - unfold otf.run_and_train, otf.write_to_output, otf.bind, otf.get,
      otf.lift, otf.modify, otf.ret.
    cbn. rewrite Hp. cbn. fold s. fold frc. rewrite Hc. reflexivity.
  - cbn. rewrite <- !app_assoc. done.
Qed.

End Training.

(** ** What a run leaves in place *)

Section Growth.
Context `{libm : Libm} `{otf.Collaborators}.

Lemma appends_keeps {A} (m : otf.M A) :
  keeps otf.otf_run_out m -> appends m.
Proof. intros Hk o. by rewrite Hk. Qed.

Lemma appends_bind {A B} (m : otf.M A) (k : A -> otf.M B) :
  appends m -> (forall a, appends (k a)) -> appends (otf.bind m k).
Proof.
  intros Hm Hk o. unfold otf.bind. specialize (Hm o).
  destruct (m o) as [[a|e] o1]; cbn in *; [|done].
  etrans; [exact Hm|apply Hk].
Qed.

Lemma appends_write_to_output (e : otf.entry) :
  appends (otf.write_to_output e).
Proof. intros o. cbn. by apply prefix_app_r. Qed.

Lemma appends_write_config : appends otf.write_config.
Proof.
  unfold otf.write_config. apply appends_bind.
  { apply appends_keeps, keeps_get. }
  intros o. apply appends_bind; [apply appends_keeps, keeps_lift|].
  intros rows. apply appends_write_to_output.
Qed.

Lemma appends_run_and_train (target : option nat) :
  appends (otf.run_and_train target).
Proof.
  unfold otf.run_and_train.
  repeat first
    [ apply appends_write_to_output
    | apply appends_keeps;
      first [ apply keeps_get | apply keeps_lift | apply keeps_ret
            | apply keeps_out_randint
            | apply keeps_modify; intros; reflexivity ]
    | apply appends_bind; [|intros]
    | match goal with
      | |- appends (match ?x with _ => _ end) => destruct x
      end ].
Qed.

Lemma appends_loop_body : appends otf.loop_body.
Proof.
  unfold otf.loop_body.
  repeat first
    [ apply appends_write_config | apply appends_run_and_train
    | apply appends_keeps;
      first [ apply keeps_get | apply keeps_lift | apply keeps_ret
            | apply keeps_out_predict_on_structure
            | apply keeps_out_update_positions
            | apply keeps_out_choice
            | apply keeps_is_std_in_bound; by split
            | apply keeps_modify; intros; reflexivity ]
    | apply appends_bind; [|intros]
    | match goal with
      | |- appends (let '(_, _) := ?p in _) => destruct p
      | |- appends (match ?x with _ => _ end) => destruct x
      end ].
Qed.

Lemma appends_main_loop (fuel : nat) : appends (otf.main_loop fuel).
Proof.
  induction fuel as [|fuel IH]; intros o; cbn [otf.main_loop];
    destruct (otf.curr_step o <? otf.Nsteps o); try done.
  revert o. change (appends (otf.bind otf.loop_body (fun t =>
    otf.bind (otf.main_loop fuel) (fun r => otf.ret (fst r, t :: snd r))))).
  apply appends_bind; [apply appends_loop_body|]. intros t.
  apply appends_bind; [done|]. intros r. apply appends_keeps, keeps_ret.
Qed.

(** X12. The output only grows.  Whatever their outcome, an exception
    included, [write_config], [run_and_train] and [run] leave every entry
    that was in the output where it was, and add at its end. *)
Theorem output_only_grows :
  (forall o, otf.otf_run_out o `prefix_of`
               otf.otf_run_out (snd (otf.write_config o))) /\
  (forall target o, otf.otf_run_out o `prefix_of`
               otf.otf_run_out (snd (otf.run_and_train target o))) /\
  (forall fuel o, otf.otf_run_out o `prefix_of`
               otf.otf_run_out (snd (otf.run fuel o))).
Proof.
  split; [|split].
  - apply appends_write_config.
  - intros target. apply appends_run_and_train.
  - intros fuel. unfold otf.run. apply appends_bind.
    + apply appends_run_and_train.
    + intros _. apply appends_main_loop.
Qed.

(** X13. As long as the loop only corrects, no atom moves: after any
    number of turns that all corrected, the positions and the previous
    positions are those before the first of them, and so is the clock. *)
Theorem corrections_move_nothing (fuel : nat) :
  forall (o o' : otf.OTF) (b : bool) (ts : list otf.transition),
    otf.main_loop fuel o = (Ok (b, ts), o') ->
    Forall (eq otf.Correct) ts ->
    positions (otf.structure o') = positions (otf.structure o) /\
    prev_positions (otf.structure o') = prev_positions (otf.structure o) /\
    otf.curr_step o' = otf.curr_step o.
Proof.
  induction fuel as [|fuel IH]; intros o o' b ts Hrun Hts;
    cbn [otf.main_loop] in Hrun;
    destruct (otf.curr_step o <? otf.Nsteps o).
  - by injection Hrun as _ _ <-.
  - by injection Hrun as _ _ <-.
  - bind_step Hrun t o1 Et. bind_step Hrun r o2 Er. destruct r as [b1 ts1].
    injection Hrun as <- <- <-. cbn [fst snd] in Hts.
    inversion Hts as [|? ? <- Hts1]; subst.
    destruct (IH _ _ _ _ Er Hts1) as (HP & HQ & HC).
    destruct (correct_turn_structure _ _ Et) as (op & Hpred & Hs).
    pose proof (keeps_at _ _ _ _ _ keeps_positions_predict_on_structure Hpred)
      as Hk. cbn in Hk. injection Hk as HP1 HQ1.
    destruct (loop_body_clock _ _ _ Et) as (_ & HC1 & _).
    rewrite HP, HQ, HC, Hs. done.
  - by injection Hrun as _ _ <-.
Qed.

(** X14. The surrogate changes by training only, and so does what the
    training structure is bound to.  An integrating turn leaves the
    surrogate and the generator as they were and the training structure
    bound as it was: a punched-out structure is as before, but the
    training structure that is the structure itself, as [run_and_train]
    binds it without punch-out, has moved with it.  A correcting turn ends
    with a training structure on which the oracle returned a force per
    atom at least, and with the surrogate [train(update_db(gp, s, forces))]
    for the surrogate [gp] before the turn, that structure [s] and the
    forces of the oracle on it; without punch-out, [s] is the structure of
    the object. *)
Theorem surrogate_changes_by_training_only (o o' : otf.OTF)
    (t : otf.transition) :
  otf.loop_body o = (Ok t, o') ->
  match t with
  | otf.Integrate =>
      otf.gp o' = otf.gp o /\
      otf.np_random o' = otf.np_random o /\
      otf.train_referent o' = otf.train_referent o /\
      match otf.train_referent o with
      | Some otf.TheStructure =>
          otf.train_structure o' = Some (otf.structure o')
      | _ => otf.train_structure o' = otf.train_structure o
      end
  | otf.Correct =>
      exists s,
        otf.train_structure o' = Some s /\
        otf.gp o' =
          otf.train
            (otf.update_db (otf.gp o) s
               (otf.run_espresso (otf.qe_input o) s)) /\
        (length (positions s) <=
         length (otf.run_espresso (otf.qe_input o) s))%nat /\
        (otf.punchout_d o = None -> s = otf.structure o')
  end.
Proof.
  intros Hb. destruct t.
  - apply correct_turn_inv in Hb
      as (o1 & P & rows & target & o2 & Hpred & Hstd & Htgt & Hrun).
    pose proof (keeps_at _ _ _ _ _ keeps_training_predict_on_structure Hpred)
      as Hk. cbn in Hk. injection Hk as Hg1 Ht1 Hr1.
    pose proof (keeps_at _ _ _ _ _
                  (keeps_predict_on_structure _ setting_qe_input) Hpred)
      as Hq1.
    pose proof (keeps_at _ _ _ _ _
                  (keeps_predict_on_structure _ setting_punchout_d) Hpred)
      as Hp1.
    assert (Ho2 : otf.gp o2 = otf.gp o /\ otf.qe_input o2 = otf.qe_input o /\
                  otf.punchout_d o2 = otf.punchout_d o /\
                  otf.structure o2 = otf.structure o1).
    { destruct (otf.truthy _).
      - destruct Htgt as (k & r & _ & _ & ->). cbn. done.
      - destruct Htgt as [_ ->]. cbn. done. }
    destruct Ho2 as (Hg2 & Hq2 & Hp2 & Hs2).
    apply run_and_train_inv in Hrun as (b & r' & rows' & Hc & Hrows & ->).
    cbv zeta in Hrows.
    set (s := otf.referred (otf.structure o2) b) in *.
    exists s. unfold retrained. fold s. cbn. rewrite Hg2, Hq2.
    split; [by destruct b|]. split; [done|]. split.
    + rewrite Hq2 in Hrows. apply collect_Forall2 in Hrows.
      destruct (decide (length (positions s) <=
                        length (otf.run_espresso (otf.qe_input o) s))%nat)
        as [|Hshort]; [done|]. exfalso.
      set (frc := otf.run_espresso (otf.qe_input o) s) in *.
      assert (Hi : seq 0 (nat_of s) !! length frc = Some (length frc)).
      { apply lookup_seq. unfold nat_of. lia. }
      destruct (Forall2_lookup_l _ _ _ _ _ Hrows Hi) as (row & _ & Hrow).
      unfold otf.qe_row in Hrow. res_inv. apply py_index_Ok in E1.
      apply lookup_lt_Some in E1. lia.
    + intros Hnone. unfold training_choice in Hc.
      rewrite Hp2, Hnone in Hc. destruct Hc as [Hbs _].
      unfold s. by rewrite Hbs.
  - unfold otf.loop_body in Hb.
    bind_step Hb u1 o1 E1. destruct u1.
    pose proof (keeps_at _ _ _ _ _ keeps_training_predict_on_structure E1)
      as Hk1.
    bind_step Hb r o2 E2. destruct r as [b P].
    pose proof (is_std_in_bound_pure _ _ _ E2) as ->.
    destruct b; cbn [negb] in Hb.
    + bind_step Hb u3 o3 E3. destruct u3.
      apply write_config_log in E3 as [rows ->].
      bind_step Hb u4 o4 E4.
      pose proof (keeps_at _ _ _ _ _ keeps_training_update_positions E4)
        as Hk4.
      unfold otf.bind, otf.modify, otf.ret in Hb. injection Hb as <-.
      cbn in Hk1, Hk4. injection Hk1 as G1 T1 R1. injection Hk4 as G4 T4 R4.
      assert (HT : otf.train_referent
                     (otf.with_curr_step (otf.curr_step o4 + 1) o4) =
                   otf.train_referent o) by (cbn; congruence).
      split; [cbn; congruence|]. split; [cbn; congruence|].
      split; [exact HT|].
      unfold otf.train_structure. rewrite HT.
      by destruct (otf.train_referent o) as [[|t0]|].
    + bind_step Hb u3 o3 E3. bind_step Hb og o4 E4.
      bind_step Hb tgt o5 E5. bind_step Hb u6 o6 E6. discriminate Hb.
Qed.

End Growth.

(** ** More on the functions of [md] *)

Section HalfAndDouble.

Lemma shr53 (m : positive) :
  SpecFloat.iter_pos shr_1 53
    (Build_shr_record (Zpos (4503599627370496 * m)) false false) =
  shr_1 (Build_shr_record (Zpos m) false false).
Proof. reflexivity. Qed.

Lemma digits_succ (p : positive) :
  (digits2_pos (Pos.succ p) <= Pos.succ (digits2_pos p))%positive.
Proof.
  induction p as [p IH|p IH|]; simpl;
    change PosDef.Pos.succ with Pos.succ in *; lia.
Qed.

(** Half a float is a float: the exponent of a normal number goes down by
    one, the mantissa of a subnormal one is halved and rounded. *)
Lemma mul_half_finite (x : float) :
  F64.valid x = true -> F64.is_finite x = true ->
  F64.is_finite (F64.mul F64.half x) = true.
Proof.
  destruct x as [s|s| |s m e]; try done. intros Hb _.
  change (bounded 53 1024 m e = true) in Hb.
  unfold bounded, canonical_mantissa in Hb. rewrite fexp_binary64 in Hb.
  apply andb_true_iff in Hb as [Hc He].
  apply Z.eqb_eq in Hc. apply Z.leb_le in He.
  unfold F64.mul, F64.half, SFmul. cbn [xorb].
  unfold binary_round_aux, shr_fexp.
  unfold Zdigits2 at 1. rewrite digits_shifted, fexp_binary64.
  destruct (Z.eq_dec e (-1074)) as [-> | Hn].
  - assert (Hd : Zpos (digits2_pos m) <= 53) by lia.
    replace (Z.max (Zpos (digits2_pos m) + 52 + (-53 + -1074) - 53) (-1074)
             - (-53 + -1074)) with 53 by lia.
    unfold shr at 1. cbn [shr_record_of_loc]. rewrite shr53.
    assert (Hfit : forall z : positive,
               Zpos (digits2_pos z) <= 53 ->
               F64.is_finite
                 (let '(mrs, e'') :=
                    shr (shr_record_of_loc (Zpos z) loc_Exact)
                      (-53 + -1074 + 53)
                      (fexp 53 1024 (Zdigits2 (Zpos z) + (-53 + -1074 + 53))
                       - (-53 + -1074 + 53)) in
                  match shr_m mrs with
                  | 0 => S754_zero s
                  | Zpos m0 =>
                      if e'' <=? 1024 - 53 then S754_finite s m0 e''
                      else S754_infinity s
                  | Zneg _ => S754_nan
                  end) = true).
    { intros z Hz. cbn [Zdigits2]. rewrite fexp_binary64.
      replace (Z.max (Zpos (digits2_pos z) + (-53 + -1074 + 53) - 53) (-1074)
               - (-53 + -1074 + 53)) with 0 by lia.
      reflexivity. }
    destruct m as [p|p|]; cbn [shr_1 orb shr_m loc_of_shr_record
                               round_nearest_even].
    + cbn [digits2_pos] in Hd.
      destruct (Z.even (Zpos p)).
      * apply Hfit. lia.
      * change (Zpos p + 1) with (Zpos (p + 1)).
        apply Hfit. pose proof (digits_succ p).
        replace (p + 1)%positive with (Pos.succ p) by lia. lia.
    + cbn [digits2_pos] in Hd. apply Hfit. lia.
    + reflexivity.
  - assert (Hd : Zpos (digits2_pos m) = 53) by lia. rewrite Hd.
    replace (Z.max (53 + 52 + (-53 + e) - 53) (-1074) - (-53 + e))
      with 52 by lia.
    unfold shr at 1. cbn [shr_record_of_loc]. rewrite shr52.
    cbn [shr_m loc_of_shr_record round_nearest_even Zdigits2].
    rewrite Hd, fexp_binary64.
    replace (Z.max (53 + (-53 + e + 52) - 53) (-1074) - (-53 + e + 52))
      with 0 by lia.
    cbn [shr shr_record_of_loc shr_m].
    assert (Hle : (-53 + e + 52 <=? F64.emax - F64.prec) = true)
      by (apply Z.leb_le; unfold F64.emax, F64.prec; lia).
    by rewrite Hle.
Qed.

(** Twice a number that is not zero is a number that is not zero. *)
Lemma double_divisor (x : float) :
  F64.valid x = true -> divisor x -> divisor (F64.mul F64.two x).
Proof.
  destruct x as [s|s| |s m e]; intros Hv [Hn Hz]; try done.
  change (bounded 53 1024 m e = true) in Hv.
  rewrite (mul_two_finite s m e Hv).
  destruct (_ =? 53); [destruct (_ <=? 971)|]; done.
Qed.

End HalfAndDouble.

Section Rows.
Context `{libm : Libm}.

Lemma md_update_loop_wide (s : Structure) (dtdt : float) :
  length (prev_positions s) = length (positions s) ->
  length (forces s) = length (positions s) ->
  has_masses s ->
  forall (n k : nat) (new_pos : list vec3),
    (k + n)%nat = length (positions s) ->
    (length (positions s) <= length new_pos)%nat ->
    exists new_pos',
      md.update_loop dtdt s (seq k n) new_pos = Ok new_pos' /\
      length new_pos' = length new_pos /\
      (forall i, (i < k \/ length (positions s) <= i)%nat ->
         new_pos' !! i = new_pos !! i) /\
      (forall i pos pre frc mass, (k <= i)%nat ->
         positions s !! i = Some pos -> prev_positions s !! i = Some pre ->
         forces s !! i = Some frc -> mass_of s i = Some mass ->
         new_pos' !! i = Some (md.verlet dtdt mass pos pre frc)).
Proof.
  intros Hprev Hfrc Hmass.
  induction n as [|n IH]; intros k new_pos Hlen Hnew.
  - exists new_pos. repeat split; try done.
    intros i pos pre frc mass Hi Hp. apply lookup_lt_Some in Hp. lia.
  - destruct (lookup_lt_is_Some_2 (positions s) k) as [pos Hpos]; [lia|].
    destruct (lookup_lt_is_Some_2 (prev_positions s) k) as [pre Hpre];
      [lia|].
    destruct (lookup_lt_is_Some_2 (forces s) k) as [frc Hf]; [lia|].
    destruct (Hmass k) as [mass Hm]; [lia|].
    pose proof Hm as Hm'. unfold mass_of in Hm'.
    destruct (species s !! k) as [label|] eqn:El; [|done]. simpl in Hm'.
    destruct (IH (S k) (<[k := md.verlet dtdt mass pos pre frc]> new_pos))
      as (np & Hrun & Hl & Hkeep & Hrest);
      [lia|by rewrite length_insert|].
    rewrite length_insert in Hl.
    exists np. split; [|split; [done|split]].
    + change (seq k (S n)) with (k :: seq (S k) n). cbn [md.update_loop].
      unfold md.update_row, md.species_labels, py_index, py_getitem.
      rewrite Hpre, El. cbn [res_bind]. rewrite Hm', Hpos, Hf.
      cbn [res_bind]. rewrite decide_True by lia. exact Hrun.
    + intros i Hi. rewrite Hkeep by lia.
      by rewrite list_lookup_insert_ne by lia.
    + intros i pos' pre' frc' mass' Hi Hp1 Hp2 Hp3 Hp4.
      destruct (decide (i = k)) as [-> | Hne].
      * rewrite Hkeep by lia. rewrite list_lookup_insert_eq by lia.
        congruence.
      * apply Hrest; [lia|done..].
Qed.

Lemma md_update_loop_short (s : Structure) (dtdt : float) :
  length (prev_positions s) = length (positions s) ->
  length (forces s) = length (positions s) ->
  has_masses s ->
  forall (n k : nat) (new_pos : list vec3),
    (k + n)%nat = length (positions s) ->
    (k <= length new_pos < k + n)%nat ->
    md.update_loop dtdt s (seq k n) new_pos = Raise IndexError.
Proof.
  intros Hprev Hfrc Hmass.
  induction n as [|n IH]; intros k new_pos Hlen Hnew; [lia|].
  destruct (lookup_lt_is_Some_2 (positions s) k) as [pos Hpos]; [lia|].
  destruct (lookup_lt_is_Some_2 (prev_positions s) k) as [pre Hpre]; [lia|].
  destruct (lookup_lt_is_Some_2 (forces s) k) as [frc Hf]; [lia|].
  destruct (Hmass k) as [mass Hm]; [lia|].
  unfold mass_of in Hm.
  destruct (species s !! k) as [label|] eqn:El; [|done]. simpl in Hm.
  change (seq k (S n)) with (k :: seq (S k) n). cbn [md.update_loop].
  unfold md.update_row, md.species_labels, py_index, py_getitem.
  rewrite Hpre, El. cbn [res_bind]. rewrite Hm, Hpos, Hf. cbn [res_bind].
  destruct (decide (k < length new_pos)%nat) as [Hk|Hk]; [|done].
  cbn [res_bind]. apply IH; [lia|]. rewrite length_insert. lia.
Qed.

(** X15. The number of rows [update_positions] of [md] is given.  On a
    structure with [n] atoms, a previous position, a force and a mass for
    each, and a time step the C library squares to [dtdt]: a negative
    [noa] raises [ValueError] ([np.zeros]); a [noa] below [n] raises
    [IndexError] at atom [noa]; otherwise the result has [noa] rows, the
    first [n] of them the Verlet positions of the atoms and the others
    rows of zeros. *)
Theorem md_update_positions_rows (s : Structure) (dt dtdt : float)
    (noa : Z) :
  let n := length (positions s) in
  length (prev_positions s) = n -> length (forces s) = n ->
  has_masses s -> squares_to dt dtdt ->
  if noa <? 0 then md.update_positions dt noa s = Raise ValueError
  else if noa <? Z.of_nat n
  then md.update_positions dt noa s = Raise IndexError
  else exists new_pos,
    md.update_positions dt noa s = Ok new_pos /\
    length new_pos = Z.to_nat noa /\
    (forall i pos pre frc mass,
       positions s !! i = Some pos -> prev_positions s !! i = Some pre ->
       forces s !! i = Some frc -> mass_of s i = Some mass ->
       new_pos !! i = Some (md.verlet dtdt mass pos pre frc)) /\
    (forall i, (n <= i < Z.to_nat noa)%nat ->
       new_pos !! i = Some (V3 F64.zero F64.zero F64.zero)).
Proof.
  intros n Hprev Hfrc Hmass Hsq. subst n. apply squares_to_py_sq in Hsq.
  unfold md.update_positions, md.np_zeros. rewrite Hsq. cbn [res_bind].
  destruct (Z.ltb_spec noa 0) as [Hneg|Hnn]; [done|]. cbn [res_bind].
  rewrite Hprev.
  set (zeros := replicate (Z.to_nat noa) (V3 F64.zero F64.zero F64.zero)).
  assert (Hz : length zeros = Z.to_nat noa) by apply length_replicate.
  destruct (Z.ltb_spec noa (Z.of_nat (length (positions s)))) as [Hlt|Hge].
  - apply md_update_loop_short; try done. lia.
  - destruct (md_update_loop_wide s dtdt Hprev Hfrc Hmass
                (length (positions s)) 0%nat zeros)
      as (np & Hloop & Hl & Hkeep & Hall); [done|lia|].
    exists np. split; [done|]. split; [lia|]. split.
    + intros i pos pre frc mass Hp1 Hp2 Hp3 Hp4.
      apply (Hall i pos pre frc mass); [lia|done..].
    + intros i Hi. rewrite Hkeep by lia.
      apply lookup_replicate_2. lia.
Qed.

End Rows.

Section NoMotion.

Lemma sub_self_zero (x y : float) :
  F64.is_finite y = true -> unchanged x y -> F64.is_zero (F64.sub x y) = true.
Proof.
  intros Hy [-> | [Hx Hz]].
  - destruct y as [[]|s| |s m e]; try done.
    unfold F64.sub, SFsub. by rewrite Z.sub_diag.
  - destruct x as [[]| | |]; try done; destruct y as [[]| | |]; done.
Qed.

Lemma zero_over_divisor (z d : float) :
  F64.is_zero z = true -> divisor d -> F64.is_zero (F64.div z d) = true.
Proof.
  intros Hz [Hn Hd]. destruct z; try done. by destruct d.
Qed.

Lemma zero_over_other (z d : float) :
  F64.is_zero z = true -> ~ divisor d -> F64.is_nan (F64.div z d) = true.
Proof.
  intros Hz Hd. destruct z; try done.
  destruct d; try done; exfalso; apply Hd; by split.
Qed.

Lemma kinetic_term_zero (hm v : float) :
  F64.is_finite hm = true -> F64.is_zero v = true ->
  F64.is_zero (F64.mul (F64.mul hm v) v) = true.
Proof. intros Hm Hv. destruct v; try done. by destruct hm. Qed.

Lemma sum_of_zeros (l : list float) (z : float) :
  F64.is_zero z = true -> Forall (fun x => F64.is_zero x = true) l ->
  F64.is_zero (fold_left F64.add l z) = true.
Proof.
  intros Hz Hl. revert z Hz. induction Hl as [|x l Hx _ IH]; intros z Hz.
  - done.
  - cbn [fold_left]. apply IH.
    destruct z as [[]| | |]; try done; by destruct x as [[]| | |].
Qed.

(** X16. A system that has not moved has no kinetic energy.  If
    [new_pos] equals the previous positions, all finite, the masses are
    finite and the time step is a number other than zero, then
    [calculate_temperature] returns velocities that are all zero and a
    kinetic energy of zero; the temperature is zero when the divisor
    [(3 * noa - 3) * kb] is a number other than zero, and a NaN
    otherwise. *)
Theorem no_motion_no_temperature (sh_new sh_prev : md.shape0)
    (new_pos : list vec3) (s : Structure) (dt dof : float) (noa : Z) :
  new_pos <> [] ->
  length (positions s) = length new_pos ->
  has_masses s ->
  (forall i mass, mass_of s i = Some mass ->
     F64.valid mass = true /\ F64.is_finite mass = true) ->
  Forall2 unchanged3 new_pos (prev_positions s) ->
  Forall (fun v => Forall (fun x => F64.is_finite x = true) (components v))
    (prev_positions s) ->
  F64.valid dt = true -> divisor dt ->
  md.float_of_int (3 * noa - 3) = Ok dof ->
  exists KE temperature velocities,
    md.calculate_temperature sh_new sh_prev new_pos s dt noa =
      Ok (md.Float KE, temperature, velocities) /\
    length velocities = length new_pos /\
    Forall zero3 velocities /\
    F64.is_zero KE = true /\
    (divisor (F64.mul dof md.kb) -> F64.is_zero temperature = true) /\
    (~ divisor (F64.mul dof md.kb) -> F64.is_nan temperature = true).
Proof.
  intros Hne Hpos Hmass Hfin Hsame Hco Hv Hdt Hdof.
  pose proof (Forall2_length _ _ _ Hsame) as Hlen.
  pose proof (calculate_temperature_returns sh_new sh_prev new_pos s dt dof
                noa Hne Hpos (eq_sym Hlen) Hmass Hdof) as Hret.
  cbv zeta in Hret.
  set (vel := map (vmap (fun x => F64.div x (F64.mul F64.two dt)))
                (zip_with (vmap2 F64.sub) new_pos (prev_positions s))) in *.
  assert (Hl : length vel = length new_pos).
  { unfold vel. rewrite length_map, length_zip_with. lia. }
  assert (Hvel : Forall zero3 vel).
  { apply Forall_lookup. intros i v Hi. unfold vel in Hi.
    rewrite list_lookup_fmap, lookup_zip_with in Hi.
    destruct (new_pos !! i) as [n|] eqn:En; [|done]. cbn in Hi.
    destruct (prev_positions s !! i) as [p|] eqn:Ep; [|done]. cbn in Hi.
    injection Hi as <-.
    rewrite Forall2_lookup in Hsame. specialize (Hsame i).
    rewrite En, Ep in Hsame. inversion Hsame as [? ? (U0 & U1 & U2)|]; subst.
    rewrite Forall_lookup in Hco. specialize (Hco i p Ep).
    inversion Hco as [|? ? F0 Hco1]; subst.
    inversion Hco1 as [|? ? F1 Hco2]; subst.
    inversion Hco2 as [|? ? F2 _]; subst.
    pose proof (double_divisor dt Hv Hdt) as Hd.
    repeat split; cbn; apply zero_over_divisor; auto using sub_self_zero. }
  assert (HKE : F64.is_zero (kinetic_sum s vel) = true).
  { unfold kinetic_sum. apply sum_of_zeros; [done|].
    apply Forall_forall. intros x Hx.
    apply list_elem_of_In, in_concat in Hx as (terms & Hterms & Hx).
    apply list_elem_of_In, elem_of_lookup_imap in Hterms
      as (i & v & -> & Hi).
    assert (Hiv : (i < length (positions s))%nat).
    { apply lookup_lt_Some in Hi. lia. }
    destruct (Hmass i Hiv) as [mass Hm]. rewrite Hm in Hx. cbn in Hx.
    destruct (Hfin i mass Hm) as [Hmv Hmf].
    rewrite Forall_lookup in Hvel. destruct (Hvel i v Hi) as (Z0 & Z1 & Z2).
    destruct Hx as [<- | [<- | [<- | []]]];
      apply kinetic_term_zero; auto using mul_half_finite. }
  exists (kinetic_sum s vel),
    (F64.div (F64.mul F64.two (kinetic_sum s vel)) (F64.mul dof md.kb)), vel.
  split; [exact Hret|]. split; [done|]. split; [done|]. split; [done|].
  assert (H2 : F64.is_zero (F64.mul F64.two (kinetic_sum s vel)) = true).
  { by destruct (kinetic_sum s vel) as [[]| | |]. }
  split; intros Hd; [by apply zero_over_divisor|by apply zero_over_other].
Qed.

End NoMotion.

Section DivisionByZero.

Lemma ke_atoms_keeps_Float (s : Structure) (vel : list vec3)
    (idx : list nat) :
  forall (k : float) (KE' : md.number),
    md.ke_atoms s vel idx (md.Float k) = Ok KE' -> exists k', KE' = md.Float k'.
Proof.
  induction idx as [|i idx IH]; intros k KE' HK; cbn [md.ke_atoms] in HK.
  - injection HK as <-. eauto.
  - destruct (md.ke_components s vel i (seq 0 3) (md.Float k)) as [KE1|]
      eqn:E1; [|done].
    apply ke_components_keeps_Float in E1 as [k1 ->]. by eapply IH.
Qed.

Lemma ke_atoms_Float (s : Structure) (vel : list vec3) (i : nat)
    (idx : list nat) (KE KE' : md.number) :
  md.ke_atoms s vel (i :: idx) KE = Ok KE' -> exists k, KE' = md.Float k.
Proof.
  cbn [md.ke_atoms]. intros HK.
  destruct (md.ke_components s vel i (seq 0 3) KE) as [KE1|] eqn:E1; [|done].
  change (seq 0 3) with [0; 1; 2]%nat in E1.
  apply ke_components_Float in E1 as [k1 ->].
  by eapply ke_atoms_keeps_Float.
Qed.

(** Nothing in the sum of the kinetic energy divides. *)
Lemma res_bind_other {A B} (r : res A) (k : A -> res B) (e : exn) :
  r <> Raise e -> (forall a, k a <> Raise e) -> res_bind r k <> Raise e.
Proof.
  intros Hr Hk. destruct r as [a|e']; cbn; [apply Hk|].
  intros [= ->]. by apply Hr.
Qed.

Lemma ke_components_no_division (s : Structure) (vel : list vec3) (i : nat)
    (js : list nat) (KE : md.number) :
  md.ke_components s vel i js KE <> Raise ZeroDivisionError.
Proof.
  revert KE. induction js as [|j js IH]; intros KE; cbn [md.ke_components].
  - done.
  - apply res_bind_other; [unfold py_index; by destruct (_ !! _)|].
    intros label.
    apply res_bind_other; [unfold py_getitem; by destruct (_ !! _)|].
    intros mass.
    apply res_bind_other; [unfold py_index; by destruct (_ !! _)|].
    intros row.
    apply res_bind_other; [by destruct j as [|[|[|j]]]|]. intros v.
    apply res_bind_other; [|done].
    unfold md.add_term. destruct KE as [n|k]; [|done].
    unfold md.float_of_int. by destruct (F64.is_infinity _).
Qed.

Lemma ke_atoms_no_division (s : Structure) (vel : list vec3)
    (idx : list nat) (KE : md.number) :
  md.ke_atoms s vel idx KE <> Raise ZeroDivisionError.
Proof.
  revert KE. induction idx as [|i idx IH]; intros KE; cbn [md.ke_atoms].
  - done.
  - apply res_bind_other; [apply ke_components_no_division|done].
Qed.

(** X17. Where [calculate_temperature] divides by zero.  On a structure
    with an atom or more it never raises [ZeroDivisionError], whatever
    [noa] and the arrays are: the kinetic energy is a numpy float by then
    and the division is numpy's.  On a structure without atoms, with no
    row in [new_pos] and [noa = 1], it depends on the shapes numpy sees
    the two empty operands of the subtraction in: in one shape, both
    [(0, 3)] or both [(0,)], the kinetic energy is still the [int] 0, the
    division is Python's and raises [ZeroDivisionError]; in two shapes,
    as an array of shape [(0, 3)] and an empty list, the subtraction
    raises [ValueError] before. *)
Theorem temperature_division_by_zero (sh_new sh_prev : md.shape0)
    (new_pos : list vec3) (s : Structure) (dt : float) (noa : Z) :
  (positions s <> [] ->
   md.calculate_temperature sh_new sh_prev new_pos s dt noa <>
   Raise ZeroDivisionError) /\
  (positions s = [] -> prev_positions s = [] -> new_pos = [] -> noa = 1 ->
   md.calculate_temperature sh_new sh_prev new_pos s dt noa =
   Raise match sh_new, sh_prev with
         | md.Shape_0_3, md.Shape_0_3 | md.Shape_0, md.Shape_0 =>
             ZeroDivisionError
         | _, _ => ValueError
         end).
Proof.
  split.
  - intros Hne. unfold md.calculate_temperature.
    apply res_bind_other.
    { unfold md.np_subtract. destruct (xorb _ _); [done|].
      destruct (decide _); [done|].
      destruct new_pos as [|? [|? ?]]; [|done|];
        by destruct (prev_positions s) as [|? [|? ?]]. }
    intros diff.
    destruct (md.ke_atoms _ _ _ _) as [KE|e] eqn:EK; cbn [res_bind].
    + destruct (positions s) as [|p ps]; [done|].
      change (seq 0 (length (p :: ps))) with (0%nat :: seq 1 (length ps))
        in EK.
      apply ke_atoms_Float in EK as [k ->].
      apply res_bind_other.
      { unfold md.float_of_int. by destruct (F64.is_infinity _). }
      done.
    + intros [= ->]. by apply ke_atoms_no_division in EK.
  - intros Hp Hq -> ->. unfold md.calculate_temperature.
    rewrite Hp, Hq. by destruct sh_new, sh_prev.
Qed.

End DivisionByZero.

(** ** [run_def_par] *)

Section RunDefPar.
Context {value files : Type}.
Variable builtins : string -> option value.
Variable bound : string -> value.
Variable call : value -> list value -> files ->
                pyscf_util.outcome value * files.
Variable os_remove : value -> files -> pyscf_util.outcome unit * files.

(** X18. [run_def_par] cannot run.  The first name its body looks up,
    [edit_dft_input_positions], is bound nowhere in the module, so, as it is
    no builtin either, every call raises [NameError] for that name before
    anything is called: no file is written, removed or read, whatever the
    arguments, the file system and the functions outside the module do. *)
Theorem run_def_par_name_error
    (dft_input structure dft_loc ncpus dft_out npool mpi : value)
    (w : files) :
  builtins "edit_dft_input_positions" = None ->
  pyscf_util.run_def_par builtins bound call os_remove
    dft_input structure dft_loc ncpus dft_out npool mpi w =
  (pyscf_util.NameError "edit_dft_input_positions", w).
Proof.
  intros Hb. unfold pyscf_util.run_def_par, pyscf_util.load_global.
  rewrite decide_False; [by rewrite Hb|].
  apply (bool_decide_unpack _). by vm_compute.
Qed.

End RunDefPar.

(** ** The parser of the output *)

Section Lines.

Lemma first_char_dashed (line : string) :
  line <> EmptyString ->
  exists c, otf.first_char line = Ok c /\ Ascii.eqb c "-"%char = dashed line.
Proof. destruct line as [|c rest]; [done|]. intros _. by exists c. Qed.

(** [l.index(x)] of an element of the list is its first position. *)
Lemma list_index_first (l : list string) (x : string) :
  x ∈ l ->
  exists i, otf.list_index l x = Ok i /\ l !! i = Some x /\
            forall j, (j < i)%nat -> l !! j <> Some x.
Proof.
  induction l as [|y l IH]; intros Hx; [by apply elem_of_nil in Hx|].
  cbn [otf.list_index]. destruct (String.eqb_spec y x) as [-> | Hne].
  - exists 0%nat. split; [done|]. split; [done|]. intros j Hj. lia.
  - apply elem_of_cons in Hx as [-> | Hx]; [done|].
    destruct (IH Hx) as (i & Hi & Hl & Hfirst). rewrite Hi. cbn.
    exists (S i). split; [done|]. split; [done|].
    intros [|j] Hj; cbn; [congruence|]. apply Hfirst. lia.
Qed.

Lemma list_index_at (lines : list string) (x : string) (i : nat) :
  lines !! i = Some x -> (forall j, (j < i)%nat -> lines !! j <> Some x) ->
  otf.list_index lines x = Ok i.
Proof.
  intros Hi Hfirst.
  destruct (list_index_first lines x) as (k & Hk & Hl & Hkfirst).
  { by eapply list_elem_of_lookup_2. }
  rewrite Hk. f_equal. destruct (Nat.lt_trichotomy k i) as [Hlt|[->|Hgt]].
  - by destruct (Hfirst k Hlt).
  - done.
  - by destruct (Hkfirst i Hgt).
Qed.

(** The indices the parser collects: one for each dashed line. *)
Lemma frame_indices_dashed (lines todo : list string) :
  Forall (fun line => line <> EmptyString) todo ->
  (forall line, line ∈ todo -> line ∈ lines) ->
  exists l, otf.frame_indices lines todo = Ok l /\
            length l = length (filter (fun line => dashed line = true) todo).
Proof.
  induction todo as [|line todo IH]; intros Hne Hsub; [by exists []|].
  inversion Hne as [|? ? Hline Hrest]; subst.
  destruct IH as (l & Hl & Hlen); [done|intros x Hx; apply Hsub; by right|].
  cbn [otf.frame_indices].
  destruct (first_char_dashed line Hline) as (c & Hc & Hd).
  rewrite Hc. cbn [res_bind]. rewrite Hd, filter_cons.
  destruct (dashed line) eqn:Ed.
  - destruct (list_index_first lines line) as (i & -> & _);
      [apply Hsub; left|].
    cbn [res_bind]. rewrite Hl. cbn [res_bind]. exists (i :: l).
    rewrite decide_True by done. cbn. by rewrite Hlen.
  - rewrite Hl. exists l. by rewrite decide_False by congruence.
Qed.

Lemma frame_indices_skip (lines pre todo : list string) :
  Forall (fun line => line <> EmptyString /\ dashed line = false) pre ->
  otf.frame_indices lines (pre ++ todo) = otf.frame_indices lines todo.
Proof.
  induction 1 as [|line pre [Hne Hd] _ IH]; [done|].
  cbn [app otf.frame_indices].
  destruct (first_char_dashed line Hne) as (c & Hc & Hcd).
  rewrite Hc. cbn [res_bind]. by rewrite Hcd, Hd.
Qed.

(** Collecting the indices fails on an empty line only. *)
Lemma frame_indices_Raise (lines todo : list string) (e : exn) :
  (forall line, line ∈ todo -> line ∈ lines) ->
  otf.frame_indices lines todo = Raise e -> e = IndexError.
Proof.
  induction todo as [|line todo IH]; intros Hsub; [done|].
  cbn [otf.frame_indices].
  destruct line as [|c r]; [by intros [= <-]|].
  cbn [otf.first_char res_bind].
  assert (Hrest : forall line, line ∈ todo -> line ∈ lines)
    by (intros x Hx; apply Hsub; by right).
  destruct (Ascii.eqb c "-"%char).
  - destruct (list_index_first lines (String c r)) as (i & -> & _).
    { apply Hsub. left. }
    cbn [res_bind].
    destruct (otf.frame_indices lines todo) eqn:E; [done|].
    cbn. intros [= <-]. by apply IH.
  - by apply IH.
Qed.

Lemma split_comma_free (s : string) :
  comma_free s -> otf.split ","%char s = [s].
Proof.
  unfold comma_free. induction s as [|c s IH]; intros Hs; [done|].
  cbn [list_ascii_of_string] in Hs. apply not_elem_of_cons in Hs as [Hc Hs].
  cbn [otf.split]. rewrite IH by done.
  destruct (Ascii.eqb_spec c ","%char); [congruence|done].
Qed.

Lemma lstrip_elem (l : list Ascii.ascii) (x : Ascii.ascii) :
  x ∈ otf.lstrip l -> x ∈ l.
Proof.
  induction l as [|c l IH]; [done|]. cbn [otf.lstrip].
  destruct (otf.is_space c); [|done]. intros Hx. right. auto.
Qed.

Lemma strip_comma_free (s : string) :
  comma_free s -> comma_free (otf.strip s).
Proof.
  unfold comma_free, otf.strip. intros Hs Hx. apply Hs.
  rewrite list_ascii_of_string_of_list_ascii in Hx.
  apply elem_of_reverse, lstrip_elem, elem_of_reverse, lstrip_elem in Hx.
  done.
Qed.

End Lines.

Section ParserProperties.
Variable np_fromstring : string -> res (list float).

(** With no atom to read, every frame prints the dictionary that holds no
    frame. *)
Lemma parse_frames_no_atom (lines : list string) (n_atoms : Z)
    (frames : list (nat * nat)) :
  n_atoms <= 0 ->
  forall results printed,
    results = [] \/ results = no_frame ->
    otf.parse_frames np_fromstring lines n_atoms frames results printed =
    (printed ++ replicate (length frames) no_frame, Ok tt).
Proof.
  intros Hn.
  induction frames as [|[frame_number index] frames IH];
    intros results printed Hr; cbn [otf.parse_frames].
  - by rewrite app_nil_r.
  - replace (Z.to_nat n_atoms) with 0%nat by lia.
    cbn [seq otf.parse_atoms otf.results_ otf.species_].
    assert (Hs : otf.setitem results (otf.KeyStr "species")
                   (otf.Species []) = no_frame)
      by (destruct Hr as [-> | ->]; reflexivity).
    rewrite Hs, IH by by right. cbn [length replicate].
    by rewrite <- app_assoc.
Qed.

(** The first atom of a frame cannot be read from lines without commas. *)
Lemma parse_atom_comma_free (lines : list string)
    (frame_number index at_index : nat) (a : otf.atoms) :
  Forall comma_free lines ->
  otf.parse_atom np_fromstring lines frame_number index a at_index =
  Raise IndexError.
Proof.
  intros Hfree. unfold otf.parse_atom.
  unfold py_index at 1.
  destruct (lines !! _) as [line|] eqn:El; [|done]. cbn [res_bind].
  rewrite Forall_lookup in Hfree. specialize (Hfree _ _ El).
  by rewrite (split_comma_free _ (strip_comma_free _ Hfree)).
Qed.

(** X19. [parse_otf_output] needs two lines that start with a dash.  On
    the lines of a file (none of them empty) of which fewer than two start
    with a dash, it raises [IndexError] when it takes the number of atoms
    from the first two frame indices, and has printed nothing: so on the
    file as the constructor of the engine leaves it. *)
Theorem parse_needs_two_frames (lines : list string) :
  Forall (fun line => line <> EmptyString) lines ->
  (length (filter (fun line => dashed line = true) lines) < 2)%nat ->
  otf.parse_otf_output np_fromstring lines = ([], Raise IndexError).
Proof.
  intros Hne Hfew.
  destruct (frame_indices_dashed lines lines Hne) as (l & Hl & Hlen); [done|].
  unfold otf.parse_otf_output. rewrite Hl.
  unfold py_index at 1. rewrite lookup_ge_None_2 by lia. reflexivity.
Qed.

(** X20. [parse_otf_output] reads no atom from a file whose first two
    dashed lines follow each other and differ, as the rule of dashes and
    the line [- Frame ...] that [write_config] writes do: the number of
    atoms comes out as -1, the loop over the atoms of a frame never runs,
    and for each dashed line of the file the dictionary printed holds the
    key ['species'] with an empty list and no frame.  The call ends without
    an exception, whatever follows the two lines. *)
Theorem parse_reads_no_atom (pre post : list string) (rule head : string) :
  Forall (fun line => line <> EmptyString /\ dashed line = false) pre ->
  dashed rule = true -> dashed head = true -> rule <> head ->
  Forall (fun line => line <> EmptyString) post ->
  otf.parse_otf_output np_fromstring (pre ++ rule :: head :: post) =
  (replicate (2 + length (filter (fun line => dashed line = true) post))
     no_frame, Ok tt).
Proof.
  intros Hpre Hrule Hhead Hdiff Hpost.
  set (lines := pre ++ rule :: head :: post).
  assert (Hundashed : forall j x, (j < length pre)%nat ->
            lines !! j = Some x -> dashed x = false).
  { intros j x Hj Hx. unfold lines in Hx. rewrite lookup_app_l in Hx by done.
    rewrite Forall_lookup in Hpre. by destruct (Hpre j x Hx). }
  assert (Hi0 : otf.list_index lines rule = Ok (length pre)).
  { apply list_index_at.
    - unfold lines. by rewrite list_lookup_middle.
    - intros j Hj Hx. apply Hundashed in Hx; [congruence|done]. }
  assert (Hi1 : otf.list_index lines head = Ok (S (length pre))).
  { apply list_index_at.
    - unfold lines. rewrite lookup_app_r by lia.
      by replace (S (length pre) - length pre)%nat with 1%nat by lia.
    - intros j Hj Hx. destruct (decide (j = length pre)) as [-> | Hne].
      + unfold lines in Hx. rewrite list_lookup_middle in Hx by done.
        congruence.
      + apply Hundashed in Hx; [congruence|lia]. }
  destruct (frame_indices_dashed lines post Hpost) as (l & Hl & Hlen).
  { intros x Hx. unfold lines. apply elem_of_app. right.
    apply elem_of_cons. right. apply elem_of_cons. by right. }
  assert (Hidx : otf.frame_indices lines lines =
                 Ok (length pre :: S (length pre) :: l)).
  { unfold lines at 2. rewrite frame_indices_skip by done.
    cbn [otf.frame_indices].
    destruct rule as [|c0 r0]; [done|]. destruct head as [|c1 r1]; [done|].
    cbn [otf.first_char res_bind]. cbn [dashed] in Hrule, Hhead.
    rewrite Hrule, Hi0. cbn [res_bind]. rewrite Hhead, Hi1.
    cbn [res_bind]. rewrite Hl. reflexivity. }
  unfold otf.parse_otf_output. fold lines. rewrite Hidx.
  cbn [py_index lookup list_lookup res_bind].
  rewrite parse_frames_no_atom; [|lia|by left].
  rewrite length_imap. cbn [length app]. by rewrite Hlen.
Qed.

(** X21. [parse_otf_output] records no frame from a file without commas,
    such as the frames [write_config] writes, whose fields are separated by
    spaces and tabs: the parser splits at commas.  On lines with no comma
    the call
    either raises [IndexError] with nothing printed (on an empty line, with
    fewer than two dashed lines, or at the first atom line, which has one
    field only), or ends having printed, each time, the dictionary with the
    key ['species'], an empty list, and no frame. *)
Theorem parse_records_no_frame (lines : list string) :
  Forall comma_free lines ->
  otf.parse_otf_output np_fromstring lines = ([], Raise IndexError) \/
  exists m,
    otf.parse_otf_output np_fromstring lines =
    (replicate m no_frame, Ok tt).
Proof.
  intros Hfree. unfold otf.parse_otf_output.
  destruct (otf.frame_indices lines lines) as [indices|e] eqn:Ei.
  - destruct indices as [|i0 [|i1 indices]]; [by left|by left|].
    cbn [py_index lookup list_lookup res_bind].
    destruct (Z.le_gt_cases (Z.of_nat i1 - Z.of_nat i0 - 2) 0) as [Hle|Hgt].
    + right. eexists. by rewrite parse_frames_no_atom; [|done|by left].
    + left. cbn [imap otf.parse_frames].
      destruct (Z.to_nat _) as [|n] eqn:En; [lia|].
      cbn [seq otf.parse_atoms].
      by rewrite parse_atom_comma_free.
  - left. apply frame_indices_Raise in Ei as ->; done.
Qed.

End ParserProperties.

(** ** The properties at work *)


(** The two atoms of the sample, the first with a NaN beside a deviation
    of one half. *)
Lemma problem_atoms_are_whole_rows_witness :
  let o := sample.engine F64.zero F64.zero
             [V3 S754_nan F64.half F64.zero; sample.origin] in
  exists b P,
    otf.is_std_in_bound o = (Ok (b, P), o) /\
    (b = false <->
     Exists (fun x => F64.geb x threshold = true)
       (entries (stds (otf.structure o)))) /\
    StronglySorted lt P /\
    (forall i, i ∈ P <->
       exists row, stds (otf.structure o) !! i = Some row /\ row_above row).
Proof. intros o. apply problem_atoms_are_whole_rows. discriminate. Defined.

(** That call answers [False] with no problem atom. *)
Example false_without_problem_atom :
  otf.is_std_in_bound
    (sample.engine F64.zero F64.zero
       [V3 S754_nan F64.half F64.zero; sample.origin]) =
  (Ok (false, []),
   sample.engine F64.zero F64.zero
     [V3 S754_nan F64.half F64.zero; sample.origin]).
Proof. reflexivity. Qed.

Section TornCases.
#[local] Existing Instance sample.libm.
#[local] Existing Instance cases.torn.

(** A turn in punch-out mode under the surrogate that reports a NaN for
    the first direction. *)
Lemma no_problem_atom_to_choose_witness :
  let o : @otf.OTF cases.torn :=
    cases.engine cases.torn tt tt (Some (F64.of_Z 3))
      (sample.molecule [sample.origin; sample.origin])
      (Some (sample.molecule [])) in
  exists o1 rows,
    otf.predict_on_structure o = (Ok tt, o1) /\
    otf.is_std_in_bound o1 = (Ok (false, []), o1) /\
    otf.loop_body o = (Raise ValueError, recorded o1 rows).
Proof.
  intros o. set (o1 := snd (otf.predict_on_structure o)).
  assert (Hpred : otf.predict_on_structure o = (Ok tt, o1)) by by vm_compute.
  destruct (no_problem_atom_to_choose o o1 Hpred) as (rows & Hstd & Hturn).
  - repeat split.
  - vm_compute. apply Exists_cons_tl, Exists_cons_hd. reflexivity.
  - intros row Hrow [Hn _]. vm_compute in Hrow.
    apply elem_of_cons in Hrow as [-> | Hrow];
      [|apply elem_of_cons in Hrow as [-> | Hrow]];
      [| |by apply elem_of_nil in Hrow];
      inversion Hn as [|? ? Hc0 _]; discriminate Hc0.
  - reflexivity.
  - exists o1, rows. exact (conj Hpred (conj Hstd Hturn)).
Defined.

End TornCases.

Section SureCases.
#[local] Existing Instance sample.libm.
#[local] Existing Instance sample.sure.

(** The engine on the structure without atoms. *)
Lemma run_without_atoms_witness :
  let o : @otf.OTF sample.sure :=
    cases.engine sample.sure tt tt None cases.void None in
  exists o',
    otf.run 1 o = (Raise ValueError, o') /\
    otf.curr_step o' = otf.curr_step o /\
    otf.structure o' = otf.structure o /\
    otf.gp o' =
      otf.train
        (otf.update_db (otf.gp o) (otf.structure o)
           (otf.run_espresso (otf.qe_input o) (otf.structure o))).
Proof.
  intros o.
  apply (run_without_atoms o 0%nat); [reflexivity|reflexivity|reflexivity|].
  by left.
Defined.

(** The prediction on the two atoms of the sample. *)
Lemma predict_on_structure_overwrites_witness :
  let o : @otf.OTF sample.sure :=
    sample.engine F64.zero F64.zero [sample.origin; sample.origin] in
  let s := otf.structure o in
  exists F D,
    otf.predict_on_structure o = (Ok tt, predicted o F D) /\
    length F = length (forces s) /\ length D = length (stds s) /\
    (forall j, (j < 2)%nat ->
       exists s', same_atoms s' s /\
         F !! j = Some (force_row (otf.gp o) (otf.ChemicalEnvironment s' j)) /\
         D !! j = Some (std_row (otf.gp o) (otf.ChemicalEnvironment s' j))) /\
    (forall j, (2 <= j)%nat ->
       F !! j = forces s !! j /\ D !! j = stds s !! j) /\
    (forall j row x, (j < 2)%nat -> D !! j = Some row ->
       x ∈ components row -> F64.ltb x F64.zero = false).
Proof.
  intros o s.
  apply (predict_on_structure_overwrites o); cbn; lia.
Defined.

(** A step of hydrogen and helium in motion, with no mass for helium: the
    hydrogen moves, the helium does not. *)
Lemma update_positions_stops_at_missing_mass_witness :
  let dtdt := F64.decimal 1 (10 ^ 8) in
  let mass := F64.decimal 1008 1000 in
  let o : @otf.OTF sample.sure :=
    cases.engine sample.sure tt tt None cases.unweighed None in
  let s := otf.structure o in
  squares_to (otf.dt o) dtdt /\
  exists P Q,
    otf.update_positions o = (Raise KeyError, moved o P Q) /\
    updated_below s dtdt 1 P Q /\
    P !! 0%nat =
      Some (md.verlet dtdt mass
              (V3 F64.zero F64.zero (F64.decimal 1 100)) sample.origin
              (V3 (F64.of_Z 1) F64.zero F64.zero)) /\
    P !! 0%nat <> positions s !! 0%nat /\
    P !! 1%nat = positions s !! 1%nat.
Proof.
  intros dtdt mass o s.
  assert (Hsq : squares_to (otf.dt o) dtdt) by by vm_compute.
  split; [exact Hsq|].
  destruct (update_positions_stops_at_missing_mass o dtdt 1%nat "He")
    as (P & Q & Hrun & Hinv).
  - reflexivity.
  - reflexivity.
  - exact Hsq.
  - intros i Hi. assert (i = 0%nat) as -> by lia. by eexists.
  - cbn. lia.
  - reflexivity.
  - reflexivity.
  - exists P, Q.
    pose proof Hinv as (_ & _ & Hge & _ & Hnew).
    assert (HP0 : P !! 0%nat =
                  Some (md.verlet dtdt mass
                          (V3 F64.zero F64.zero (F64.decimal 1 100))
                          sample.origin
                          (V3 (F64.of_Z 1) F64.zero F64.zero))).
    { apply (Hnew 0%nat); [lia|reflexivity..]. }
    refine (conj Hrun (conj Hinv (conj HP0 (conj _ _)))).
    + rewrite HP0. by vm_compute.
    + apply (Hge 1%nat). lia.
Defined.

(** The two atoms in motion with [noa = 3]: the two Verlet positions and a
    third row of zeros. *)
Lemma md_update_positions_rows_witness :
  let s := cases.pushed in
  let dt := F64.decimal 1 10000 in
  let dtdt := F64.decimal 1 (10 ^ 8) in
  let mass := F64.decimal 1008 1000 in
  squares_to dt dtdt /\
  md.update_positions dt 3 s =
    Ok [md.verlet dtdt mass
          (V3 F64.zero F64.zero (F64.decimal 1 100)) sample.origin
          (V3 (F64.of_Z 1) F64.zero F64.zero);
        md.verlet dtdt mass
          (V3 F64.zero F64.zero (F64.decimal 75 100))
          (V3 F64.zero F64.zero (F64.decimal 74 100))
          (V3 F64.zero F64.zero (F64.of_Z (-1)));
        V3 F64.zero F64.zero F64.zero] /\
  md.update_positions dt 1 s = Raise IndexError /\
  md.update_positions dt (-1) s = Raise ValueError.
Proof.
  intros s dt dtdt mass.
  assert (Hsq : squares_to dt dtdt) by by vm_compute.
  assert (Hshape : length (prev_positions s) = length (positions s) /\
                   length (forces s) = length (positions s))
    by (split; reflexivity).
  assert (Hmass : has_masses s).
  { intros i Hi. vm_compute in Hi.
    destruct i as [|[|i]]; [by eexists|by eexists|lia]. }
  destruct Hshape as [Hprev Hfrc].
  split; [exact Hsq|]. split; [|split].
  - destruct (md_update_positions_rows s dt dtdt 3 Hprev Hfrc Hmass Hsq)
      as (new_pos & Hrun & Hlen & Hpos & Hzero).
    rewrite Hrun. f_equal. apply list_eq. intros [|[|[|i]]].
    + by apply (Hpos 0%nat).
    + by apply (Hpos 1%nat).
    + apply (Hzero 2%nat). cbn. lia.
    + rewrite lookup_ge_None_2; [done|]. rewrite Hlen. cbn. lia.
  - exact (md_update_positions_rows s dt dtdt 1 Hprev Hfrc Hmass Hsq).
  - exact (md_update_positions_rows s dt dtdt (-1) Hprev Hfrc Hmass Hsq).
Defined.

(** The two atoms of the sample where they were: no temperature. *)
Lemma no_motion_no_temperature_witness :
  let s := sample.molecule [] in
  let dt := F64.decimal 1 10000 in
  exists KE temperature velocities,
    md.calculate_temperature md.Shape_0_3 md.Shape_0 (positions s) s dt 2 =
      Ok (md.Float KE, temperature, velocities) /\
    length velocities = 2%nat /\
    Forall zero3 velocities /\
    F64.is_zero KE = true /\
    F64.is_zero temperature = true.
Proof.
  intros s dt.
  destruct (no_motion_no_temperature md.Shape_0_3 md.Shape_0 (positions s)
              s dt (F64.of_Z 3) 2)
    as (KE & T & vel & Hc & Hl & Hv & HK & HT & _).
  - discriminate.
  - reflexivity.
  - intros i Hi. vm_compute in Hi.
    destruct i as [|[|i]]; [by eexists|by eexists|lia].
  - intros i mass Hm. destruct i as [|[|i]]; vm_compute in Hm;
      try discriminate Hm; injection Hm as <-; by split.
  - repeat constructor.
  - repeat constructor.
  - reflexivity.
  - by split.
  - reflexivity.
  - exists KE, T, vel.
    exact (conj Hc (conj Hl (conj Hv (conj HK (HT (conj eq_refl eq_refl)))))).
Defined.

(** The lone atom and the structure without atoms, with [noa = 1]: the
    empty operands both of shape [(0, 3)], and an array of shape [(0, 3)]
    against an empty list. *)
Lemma temperature_division_by_zero_witness :
  md.calculate_temperature md.Shape_0_3 md.Shape_0 [sample.origin]
    sample.lone_atom (F64.decimal 1 10000) 1 <> Raise ZeroDivisionError /\
  md.calculate_temperature md.Shape_0_3 md.Shape_0_3 [] cases.void
    (F64.decimal 1 10000) 1 = Raise ZeroDivisionError /\
  md.calculate_temperature md.Shape_0_3 md.Shape_0 [] cases.void
    (F64.decimal 1 10000) 1 = Raise ValueError.
Proof.
  split; [|split].
  - apply (proj1 (temperature_division_by_zero md.Shape_0_3 md.Shape_0
                    [sample.origin] sample.lone_atom (F64.decimal 1 10000)
                    1)).
    discriminate.
  - by apply (proj2 (temperature_division_by_zero md.Shape_0_3 md.Shape_0_3
                       [] cases.void (F64.decimal 1 10000) 1)).
  - by apply (proj2 (temperature_division_by_zero md.Shape_0_3 md.Shape_0
                       [] cases.void (F64.decimal 1 10000) 1)).
Defined.

End SureCases.

Section UnsureCases.
#[local] Existing Instance sample.libm.
#[local] Existing Instance sample.unsure.

(** Two turns under the surrogate that is never sure: the entries of
    three calls of [run_and_train] and two frames numbered 0. *)
Lemma run_log_and_clock_witness :
  let o : @otf.OTF sample.unsure :=
    sample.engine F64.zero (F64.of_Z 1) [sample.origin; sample.origin] in
  exists o' new,
    otf.run 2 o = (Ok (false, [otf.Correct; otf.Correct]), o') /\
    otf.otf_run_out o' = otf.otf_run_out o ++ new /\
    kind_of <$> new =
      training_kinds ++ (KConfig 0 :: training_kinds) ++
      (KConfig 0 :: training_kinds) /\
    otf.curr_step o' = 0 /\ otf.curr_step o' < otf.Nsteps o.
Proof.
  intros o. set (o' := snd (otf.run 2 o)).
  assert (Hrun : otf.run 2 o =
                 (Ok (false, [otf.Correct; otf.Correct]), o'))
    by by vm_compute.
  destruct (run_log_and_clock 2 o o' false _ Hrun)
    as ((new & Hout & Hkinds) & Hclock & Hlt & _).
  exists o', new. split; [exact Hrun|]. split; [exact Hout|].
  split; [exact Hkinds|]. split; [exact Hclock|exact Hlt].
Defined.

(** A correcting turn with a punch-out distance of zero. *)
Lemma zero_punchout_distance_witness :
  let o : @otf.OTF sample.unsure :=
    cases.engine sample.unsure tt tt (Some F64.zero)
      (sample.molecule [sample.origin; sample.origin])
      (Some (sample.molecule [])) in
  exists o' o1,
    otf.loop_body o = (Ok otf.Correct, o') /\
    otf.predict_on_structure o = (Ok tt, o1) /\
    otf.train_structure o' =
      Some (otf.punchout (otf.structure o1) None F64.zero) /\
    otf.np_random o' = otf.np_random o.
Proof.
  intros o. set (o' := snd (otf.loop_body o)).
  assert (Hturn : otf.loop_body o = (Ok otf.Correct, o')) by by vm_compute.
  destruct (zero_punchout_distance o o' F64.zero (sample.molecule [])
              eq_refl eq_refl eq_refl Hturn) as (o1 & Hpred & Ht & Hr).
  exists o', o1. exact (conj Hturn (conj Hpred (conj Ht Hr))).
Defined.

(** The first call of [run_and_train] and a correcting turn with a
    punch-out distance of three. *)
Lemma punchout_around_problem_atom_witness :
  let d := F64.of_Z 3 in
  let s := sample.molecule [sample.origin; sample.origin] in
  let o0 : @otf.OTF sample.unsure :=
    cases.engine sample.unsure tt tt (Some d) s None in
  let o : @otf.OTF sample.unsure :=
    cases.engine sample.unsure tt tt (Some d) s (Some s) in
  (exists o' k,
     otf.run_and_train None o0 = (Ok tt, o') /\ (k < 2)%nat /\
     otf.train_structure o' = Some (otf.punchout s (Some k) d)) /\
  (exists o' o1 k row,
     otf.loop_body o = (Ok otf.Correct, o') /\
     otf.predict_on_structure o = (Ok tt, o1) /\
     stds (otf.structure o1) !! k = Some row /\ row_above row /\
     otf.train_structure o' =
       Some (otf.punchout (otf.structure o1) (Some k) d)).
Proof.
  intros d s o0 o.
  destruct (@punchout_around_problem_atom sample.libm sample.unsure) as [Hfirst Hturn].
  split.
  - set (o' := snd (otf.run_and_train None o0)).
    assert (Hrun : otf.run_and_train None o0 = (Ok tt, o')) by by vm_compute.
    destruct (Hfirst None o0 o' d eq_refl eq_refl Hrun) as (k & Hk & Ht).
    exists o', k. exact (conj Hrun (conj Hk Ht)).
  - set (o' := snd (otf.loop_body o)).
    assert (Hb : otf.loop_body o = (Ok otf.Correct, o')) by by vm_compute.
    destruct (Hturn o o' d s eq_refl eq_refl eq_refl Hb)
      as (o1 & k & row & Hpred & Hrow & Habove & Ht).
    exists o', o1, k, row.
    exact (conj Hb (conj Hpred (conj Hrow (conj Habove Ht)))).
Defined.

(** Two turns that both correct, under the surrogate that is never sure. *)
Lemma corrections_move_nothing_witness :
  let o : @otf.OTF sample.unsure :=
    sample.engine F64.zero (F64.of_Z 1) [sample.origin; sample.origin] in
  exists o',
    otf.main_loop 2 o = (Ok (false, [otf.Correct; otf.Correct]), o') /\
    positions (otf.structure o') = positions (otf.structure o) /\
    prev_positions (otf.structure o') = prev_positions (otf.structure o) /\
    otf.curr_step o' = otf.curr_step o.
Proof.
  intros o. set (o' := snd (otf.main_loop 2 o)).
  assert (Hrun : otf.main_loop 2 o =
                 (Ok (false, [otf.Correct; otf.Correct]), o'))
    by by vm_compute.
  exists o'.
  exact (conj Hrun
           (corrections_move_nothing 2 o o' false _ Hrun
              (Forall_cons_2 _ _ _ eq_refl
                 (Forall_cons_2 _ _ _ eq_refl (Forall_nil_2 _))))).
Defined.

End UnsureCases.

Section TrainingCases.
#[local] Existing Instance sample.libm.

(** A correcting turn without punch-out; and an integrating turn of an
    engine whose training structure is the structure itself: the standard
    deviations the prediction writes into the structure, zeros in the
    place of ones, show in the training structure. *)
Lemma surrogate_changes_by_training_only_witness :
  let o : @otf.OTF sample.unsure :=
    sample.engine F64.zero (F64.of_Z 1) [sample.origin; sample.origin] in
  let ones := V3 (F64.of_Z 1) (F64.of_Z 1) (F64.of_Z 1) in
  let o2 : @otf.OTF sample.sure :=
    otf.with_train_structure (Some otf.TheStructure)
      (sample.engine F64.zero F64.zero [ones; ones]) in
  (exists o' s,
     otf.loop_body o = (Ok otf.Correct, o') /\
     otf.train_structure o' = Some s /\
     otf.gp o' =
       @otf.train sample.unsure
         (@otf.update_db sample.unsure (otf.gp o) s
            (@otf.run_espresso sample.unsure (otf.qe_input o) s)) /\
     (length (positions s) <=
      length (@otf.run_espresso sample.unsure (otf.qe_input o) s))%nat /\
     s = otf.structure o') /\
  (exists o',
     otf.loop_body o2 = (Ok otf.Integrate, o') /\
     otf.gp o' = otf.gp o2 /\ otf.np_random o' = otf.np_random o2 /\
     otf.train_structure o2 = Some (otf.structure o2) /\
     otf.train_structure o' = Some (otf.structure o') /\
     stds (otf.structure o') = [sample.origin; sample.origin] /\
     otf.train_structure o' <> otf.train_structure o2).
Proof.
  intros o ones o2. split.
  - set (o' := snd (otf.loop_body o)).
    assert (Hb : otf.loop_body o = (Ok otf.Correct, o')) by by vm_compute.
    destruct (surrogate_changes_by_training_only o o' otf.Correct Hb)
      as (s & Ht & Hg & Hl & Hs).
    exists o', s.
    exact (conj Hb (conj Ht (conj Hg (conj Hl (Hs eq_refl))))).
  - set (o' := snd (otf.loop_body o2)).
    assert (Hb : otf.loop_body o2 = (Ok otf.Integrate, o')) by by vm_compute.
    destruct (surrogate_changes_by_training_only o2 o' otf.Integrate Hb)
      as (Hg & Hr & _ & Ht).
    exists o'.
    refine (conj Hb (conj Hg (conj Hr (conj eq_refl (conj Ht (conj _ _)))))).
    + by vm_compute.
    + rewrite Ht. intros E. vm_compute in E. discriminate E.
Defined.

End TrainingCases.

Section SilentCases.
#[local] Existing Instance sample.libm.
#[local] Existing Instance cases.silent.

(** The two atoms of the sample and an oracle that returns no force. *)
Lemma run_and_train_short_answer_witness :
  let o : @otf.OTF cases.silent :=
    cases.engine cases.silent tt tt None (sample.molecule []) None in
  exists o',
    otf.run_and_train None o = (Raise IndexError, o') /\
    otf.gp o' = otf.gp o /\
    otf.train_structure o' = Some (otf.structure o) /\
    otf.structure o' = otf.structure o /\
    otf.otf_run_out o' =
      otf.otf_run_out o ++
      [otf.Text ("====================" ++ otf.newline ++ "Calling QE... ");
       otf.Text ("Done." ++ otf.newline)].
Proof.
  intros o. apply (run_and_train_short_answer None o).
  - reflexivity.
  - cbn. lia.
  - cbn. lia.
Defined.

End SilentCases.

(** With no builtin at all and functions that return at once. *)
Lemma run_def_par_name_error_witness :
  pyscf_util.run_def_par (fun _ : string => @None unit) (fun _ => tt)
    (fun _ _ (w : unit) => (pyscf_util.Returned tt, w))
    (fun _ (w : unit) => (pyscf_util.Returned tt, w))
    tt tt tt tt tt tt tt tt =
  (pyscf_util.NameError "edit_dft_input_positions", tt).
Proof. by apply run_def_par_name_error. Defined.

(** The output file before the first frame is written. *)
Lemma parse_needs_two_frames_witness :
  otf.parse_otf_output (fun _ => Raise ValueError) cases.fresh_file =
  ([], Raise IndexError).
Proof.
  apply parse_needs_two_frames.
  - repeat constructor; discriminate.
  - vm_compute. lia.
Defined.

(** The output file with its first frame. *)
Lemma parse_reads_no_atom_witness :
  otf.parse_otf_output (fun _ => Raise ValueError)
    ((cases.fresh_file ++ cases.training_lines) ++ cases.frame_lines) =
  (replicate 2 no_frame, Ok tt).
Proof.
  apply (parse_reads_no_atom (fun _ => Raise ValueError)
           (cases.fresh_file ++ cases.training_lines)
           (drop 2 cases.frame_lines)).
  - repeat constructor; discriminate.
  - reflexivity.
  - reflexivity.
  - discriminate.
  - repeat constructor; discriminate.
Defined.

Lemma parse_records_no_frame_witness :
  let lines :=
    (cases.fresh_file ++ cases.training_lines) ++ cases.frame_lines in
  otf.parse_otf_output (fun _ => Raise ValueError) lines =
    ([], Raise IndexError) \/
  exists m,
    otf.parse_otf_output (fun _ => Raise ValueError) lines =
    (replicate m no_frame, Ok tt).
Proof.
  intros lines. apply parse_records_no_frame.
  unfold lines. repeat constructor; apply (bool_decide_unpack _); by vm_compute.
Defined.
